(** * UptimeProof proof-of-availability verifier: a shallow embedding

    This development embeds [verifier/poa_verify_full.py] and proves the
    properties of its verification pipeline: authoritative DNS retrieval,
    TXT parsing, local evidence matching and the verdict.

    Conventions of the embedding.
    - A Python [str] is a [string]; its characters are the code points
      below 256, which covers everything the wire format uses.
    - A Python [int] is a [Z]; a [float] is the rational it denotes,
      [Q], and an operation that produces a float rounds its exact
      result to the nearest binary64 value ([round_double]).
    - [os.environ] and the dictionary built by [load_env_file] are
      [gmap string string].
    - The operating system (file system, external commands, standard
      output) is a record of oracles read through a small monad that
      records every interaction in a trace and carries Python exceptions
      as values.  The oracles do not change during a run: a file that
      exists when it is tested still exists when it is read. *)

From stdpp Require Import gmap strings list.
From Stdlib Require Import ZArith QArith Ascii String Lia.
From Stdlib Require Import DecimalString Sorted.

Close Scope Q_scope.
Local Open Scope string_scope.
Local Open Scope Z_scope.

(** String concatenation unfolds on a constructor, as list append does. *)
#[local] Arguments String.append !s1 s2 : simpl nomatch.

(** ** Python string primitives *)

Module Py.

(** The double quote, written by its code so that no literal has to
    escape it. *)
Definition dquote : ascii := ascii_of_nat 34.
Definition DQ : string := String dquote "".

Definition code (c : ascii) : nat := nat_of_ascii c.

(** [str.isspace] on the code points below 256: the characters removed by
    a bare [str.strip()]. *)
Definition is_space (c : ascii) : bool :=
  let n := code c in
  ((9 <=? n) && (n <=? 13) || (28 <=? n) && (n <=? 32)
   || (n =? 133) || (n =? 160))%nat.

Definition is_char (a c : ascii) : bool := Ascii.eqb a c.

Fixpoint lstrip_by (p : ascii -> bool) (s : string) : string :=
  match s with
  | "" => ""
  | String c r => if p c then lstrip_by p r else s
  end.

Fixpoint rstrip_by (p : ascii -> bool) (s : string) : string :=
  match s with
  | "" => ""
  | String c r =>
      match rstrip_by p r with
      | "" => if p c then "" else String c ""
      | r' => String c r'
      end
  end.

Definition strip_by (p : ascii -> bool) (s : string) : string :=
  rstrip_by p (lstrip_by p s).

(** [s.strip()], [s.strip(c)], [s.rstrip(c)] *)
Definition strip (s : string) : string := strip_by is_space s.
Definition strip_char (c : ascii) (s : string) : string := strip_by (is_char c) s.
Definition rstrip_char (c : ascii) (s : string) : string := rstrip_by (is_char c) s.

(** [s.replace(old, new)] for a one-character [old]. *)
Fixpoint replace_char (old : ascii) (new : string) (s : string) : string :=
  match s with
  | "" => ""
  | String c r =>
      if Ascii.eqb c old then new ++ replace_char old new r
      else String c (replace_char old new r)
  end.

(** [str.lower] on the code points below 256. *)
Definition lower_char (c : ascii) : ascii :=
  let n := code c in
  if ((65 <=? n) && (n <=? 90)
      || (192 <=? n) && (n <=? 222) && negb (n =? 215))%nat
  then ascii_of_nat (n + 32) else c.

Fixpoint lower (s : string) : string :=
  match s with
  | "" => ""
  | String c r => String (lower_char c) (lower r)
  end.

(** [prefix.startswith] the other way round: [s.startswith(p)]. *)
Fixpoint startswith (p s : string) : bool :=
  match p, s with
  | "", _ => true
  | String a p', String b s' => Ascii.eqb a b && startswith p' s'
  | String _ _, "" => false
  end.

(** [c in s] for a character [c]. *)
Fixpoint contains_char (c : ascii) (s : string) : bool :=
  match s with
  | "" => false
  | String a r => Ascii.eqb a c || contains_char c r
  end.

Fixpoint drop (n : nat) (s : string) : string :=
  match n, s with
  | O, _ => s
  | S n', String _ r => drop n' r
  | S _, "" => ""
  end.

Fixpoint take (n : nat) (s : string) : string :=
  match n, s with
  | S n', String c r => String c (take n' r)
  | _, _ => ""
  end.

Fixpoint take_while (p : ascii -> bool) (s : string) : string :=
  match s with
  | String c r => if p c then String c (take_while p r) else ""
  | "" => ""
  end.

Fixpoint forallb_str (p : ascii -> bool) (s : string) : bool :=
  match s with
  | "" => true
  | String c r => p c && forallb_str p r
  end.

(** [s.split(sep)] for a one-character separator: never an empty list. *)
Fixpoint split_char (sep : ascii) (s : string) : list string :=
  match s with
  | "" => [""]
  | String c r =>
      match split_char sep r with
      | [] => [String c ""]
      | hd :: tl =>
          if Ascii.eqb c sep then "" :: hd :: tl else String c hd :: tl
      end
  end.

(** [s.split(sep, 1)] when [sep in s]: the text before the first
    separator and the text after it. *)
Fixpoint partition_char (sep : ascii) (s : string) : string * string :=
  match s with
  | "" => ("", "")
  | String c r =>
      if Ascii.eqb c sep then ("", r)
      else let '(a, b) := partition_char sep r in (String c a, b)
  end.

(** Line boundaries of [str.splitlines] below 256. *)
Definition is_linebreak (c : ascii) : bool :=
  let n := code c in
  ((10 <=? n) && (n <=? 13) || (28 <=? n) && (n <=? 30) || (n =? 133))%nat.

(** [s.splitlines()]: a carriage return followed by a line feed is one
    boundary, and a final boundary opens no empty last line. *)
Fixpoint splitlines_aux (cur : string) (s : string) : list string :=
  match s with
  | "" => match cur with "" => [] | _ => [cur] end
  | String c r =>
      if is_linebreak c then
        match r with
        | String c' r' =>
            if (code c =? 13)%nat && (code c' =? 10)%nat
            then cur :: splitlines_aux "" r'
            else cur :: splitlines_aux "" r
        | "" => [cur]
        end
      else splitlines_aux (cur ++ String c "") r
  end.

Definition splitlines (s : string) : list string := splitlines_aux "" s.

(** [sep.join(parts)] *)
Definition join (sep : string) (parts : list string) : string :=
  String.concat sep parts.

(** Truthiness of a string. *)
Definition nonempty (s : string) : bool :=
  match s with "" => false | _ => true end.

(** [str(n)] for an integer. *)
Definition str_of_Z (n : Z) : string :=
  NilEmpty.string_of_int (Z.to_int n).

(** [repr(s)], as the [%R] of an error message writes a string: single
    quotes unless the string holds one and no double quote; backslash,
    the quote and the unprintable characters escaped. *)
Definition backslash : ascii := ascii_of_nat 92.

Definition hex_digit (n : nat) : ascii :=
  ascii_of_nat (if (n <? 10)%nat then 48 + n else 87 + n).

Definition is_printable (c : ascii) : bool :=
  let n := code c in
  ((32 <=? n) && (n <=? 126) || (161 <=? n) && negb (n =? 173))%nat.

Definition repr_char (quote c : ascii) : string :=
  let n := code c in
  if Ascii.eqb c backslash || Ascii.eqb c quote then String backslash (String c "")
  else if (n =? 9)%nat then String backslash "t"
  else if (n =? 10)%nat then String backslash "n"
  else if (n =? 13)%nat then String backslash "r"
  else if is_printable c then String c ""
  else String backslash
         (String "x" (String (hex_digit (n / 16)) (String (hex_digit (n mod 16)) ""))).

Fixpoint repr_body (quote : ascii) (s : string) : string :=
  match s with
  | "" => ""
  | String c r => repr_char quote c ++ repr_body quote r
  end.

Definition repr (s : string) : string :=
  let quote :=
    if contains_char "'" s && negb (contains_char dquote s) then dquote else "'"%char in
  String quote (repr_body quote s) ++ String quote "".

End Py.

(** ** Regular expressions of the program

    Each pattern of the source is embedded as the scanner that [re]
    runs for it: leftmost match first, greedy groups. *)

Module Re.

(** [_QUOTED_TXT_RE.findall(s)] for the pattern: a double quote, a
    captured run of characters other than the double quote, a double
    quote.  Matches do not overlap, so the quotes pair up left to right;
    [cur] is the segment being read once a quote is open. *)
Fixpoint findall_quoted_from (cur : option string) (s : string) : list string :=
  match s with
  | "" => []
  | String c r =>
      match cur with
      | None =>
          if Ascii.eqb c Py.dquote then findall_quoted_from (Some "") r
          else findall_quoted_from None r
      | Some seg =>
          if Ascii.eqb c Py.dquote then seg :: findall_quoted_from None r
          else findall_quoted_from (Some (seg ++ String c "")) r
      end
  end.

Definition findall_quoted (s : string) : list string :=
  findall_quoted_from None s.

Definition not_semicolon (c : ascii) : bool := negb (Ascii.eqb c ";").

(** [re.search(marker + "([^;]+)", s)]: group 1 of the leftmost match,
    the longest run of characters other than the semicolon after the
    first occurrence of [marker] that is followed by such a character. *)
Fixpoint search_field (marker : string) (s : string) : option string :=
  match s with
  | "" => None
  | String _ r =>
      if Py.startswith marker s then
        match Py.take_while not_semicolon (Py.drop (String.length marker) s) with
        | "" => search_field marker r
        | v => Some v
        end
      else search_field marker r
  end.

Definition is_hex (c : ascii) : bool :=
  let n := Py.code c in
  ((48 <=? n) && (n <=? 57) || (65 <=? n) && (n <=? 70)
   || (97 <=? n) && (n <=? 102))%nat.

(** The 64 characters after [marker] when they are all hexadecimal. *)
Definition hex64_after (marker : string) (s : string) : option string :=
  let v := Py.take 64 (Py.drop (String.length marker) s) in
  if (String.length v =? 64)%nat && Py.forallb_str is_hex v then Some v else None.

(** [re.search("SHA256=([0-9a-fA-F]{64})", s)]: group 1 of the leftmost
    match. *)
Fixpoint search_sha256 (s : string) : option string :=
  match s with
  | "" => None
  | String _ r =>
      if Py.startswith "SHA256=" s then
        match hex64_after "SHA256=" s with
        | Some v => Some v
        | None => search_sha256 r
        end
      else search_sha256 r
  end.

End Re.

(** ** Constants of the program *)

Definition ENV_FILE : string := "/opt/uptimeproof/infra/poa.env".
Definition DEFAULT_EXPORT_DIR : string := "/proof/exports".
Definition DNS_NAME_DEFAULT : string := "_poa.uptimeproof.io".
Definition DNS_ZONE_DEFAULT : string := "uptimeproof.io".
Definition LOOKBACK_FILES : nat := 300.
Definition WARN_SKEW_SECONDS : Z := 10 * 60.
Definition FAIL_SKEW_SECONDS : Z := 60 * 60.

(** ** The verdict *)

(** The three strings [verdict_from_hash_and_skew] can return. *)
Inductive Verdict : Type := OK | WARN | FAIL.

Definition verdict_str (v : Verdict) : string :=
  match v with OK => "OK" | WARN => "WARN" | FAIL => "FAIL" end.

Definition verdict_from_hash_and_skew (hash_ok : bool) (skew : Z) : Verdict :=
  if negb hash_ok then FAIL
  else if Z.abs skew <=? WARN_SKEW_SECONDS then OK
  else if Z.abs skew <=? FAIL_SKEW_SECONDS then WARN
  else WARN.

(** ** Cleaning the output of dig *)

Definition _clean_dig_txt (out : string) : string :=
  let out := Py.strip out in
  if negb (Py.nonempty out) then ""
  else
    match Re.findall_quoted out with
    | [] => Py.strip (Py.replace_char Py.dquote "" out)
    | parts => Py.strip (Py.join "" parts)
    end.

(** The normalisation as the specification words it: the quoted segments
    joined without separator, or, when there is none, the payload without
    its quote characters and trimmed. *)
Definition spec_normalize_txt (out : string) : string :=
  match Re.findall_quoted out with
  | [] => Py.strip (Py.replace_char Py.dquote "" out)
  | parts => Py.join "" parts
  end.

(** ** The proof published in DNS *)

Record DnsProof : Type := mkDnsProof {
  ts_iso : string;
  sha256 : string;
  filename : option string
}.

(** Python exceptions, with the message [str(e)] gives. *)
Inductive exn : Type :=
| RuntimeError (msg : string)
| ValueError (msg : string)
| OSError (msg : string).

Definition exn_str (e : exn) : string :=
  match e with RuntimeError m | ValueError m | OSError m => m end.

(** [str(last_err)] for an [Optional[Exception]] *)
Definition opt_exn_str (e : option exn) : string :=
  match e with None => "None" | Some e => exn_str e end.

Inductive result (A : Type) : Type :=
| Ok (a : A)
| Raise (e : exn).
Arguments Ok {A} a.
Arguments Raise {A} e.

Definition parse_dns_txt (txt : string) : result DnsProof :=
  let txt := Py.strip_char Py.dquote (Py.strip txt) in
  let m_ts := Re.search_field "TS=" txt in
  let m_sha := Re.search_sha256 txt in
  let m_file := Re.search_field "FILE=" txt in
  match m_ts, m_sha with
  | Some ts, Some sha =>
      Ok {| ts_iso := ts; sha256 := Py.lower sha; filename := m_file |}
  | _, _ => Raise (RuntimeError ("Unrecognized TXT format: " ++ txt))
  end.

(** ** Floats

    [round_double] is the rounding of a real number to the nearest
    binary64 value, ties to even, as the true division of two integers
    and the sum of two floats perform it.  The numbers met here are far
    from the subnormal range and from overflow, which the definition
    leaves out. *)

(** [int(x)] for a float [x]: truncation towards zero. *)
Definition int_of_Q (q : Q) : Z := Z.quot (Qnum q) (Zpos (Qden q)).

(** The integer nearest to [n / d], ties to even, for [0 < d]. *)
Definition round_half_even (n d : Z) : Z :=
  let q := n / d in
  let r := n mod d in
  if 2 * r <? d then q
  else if d <? 2 * r then q + 1
  else if Z.even q then q else q + 1.

(** The binary exponent of [a / d] for [0 < a] and [0 < d]: the [e] with
    [2 ^ (e - 1) <= a / d < 2 ^ e]. *)
Definition binary_exponent (a d : Z) : Z :=
  let e0 := Z.log2 a - Z.log2 d in
  if (if 0 <=? e0 then d * 2 ^ e0 <=? a else d <=? a * 2 ^ (- e0))
  then e0 + 1 else e0.

(** The multiple of [2 ^ (e - 53)] nearest to [x], where [e] is the
    binary exponent of [x]. *)
Definition round_double (x : Q) : Q :=
  let n := Qnum x in
  let d := Zpos (Qden x) in
  if n =? 0 then 0%Q
  else
    let k := 53 - binary_exponent (Z.abs n) d in
    if 0 <=? k then Qmake (round_half_even (n * 2 ^ k) d) (Z.to_pos (2 ^ k))
    else inject_Z (round_half_even n (d * 2 ^ (- k)) * 2 ^ (- k)).

(** A step that can raise, followed by another. *)
#[global] Instance result_bind : MBind result :=
  fun A B f m => match m with Ok a => f a | Raise e => Raise e end.

(** ** Timestamps

    [datetime.fromisoformat] and [datetime.timestamp] of the standard
    library.  [parse] reads the format that [isoformat()] writes,
    [YYYY-MM-DD[*HH[:MM[:SS[.fff[fff]]]][+HH:MM[:SS[.ffffff]]]]], which
    every version since Python 3.7 accepts with the same reading.  What
    the running interpreter makes of any other string is left to it
    ([fromisoformat]): versions before 3.11 reject them all, later ones
    accept further ISO 8601 shapes. *)

Module Datetime.

Record datetime : Type := mkDatetime {
  year : Z; month : Z; day : Z;
  hour : Z; minute : Z; second : Z; microsecond : Z;
  (** [None] for a naive datetime, the UTC offset in microseconds for an
      aware one *)
  tzinfo : option Z
}.

Definition is_digit (c : ascii) : bool :=
  let n := Py.code c in ((48 <=? n) && (n <=? 57))%nat.

Definition digit_val (c : ascii) : Z := Z.of_nat (Py.code c) - 48.

Fixpoint digits_from (acc : Z) (s : string) : option Z :=
  match s with
  | "" => Some acc
  | String c r =>
      if is_digit c then digits_from (10 * acc + digit_val c) r else None
  end.

(** A non-empty run of decimal digits, read as a number. *)
Definition digits (s : string) : option Z :=
  match s with
  | "" => None
  | _ => digits_from 0 s
  end.

(** The next [n] characters as a number, when there are that many and
    they are digits. *)
Definition digits_at (n : nat) (s : string) : option Z :=
  if (String.length (Py.take n s) =? n)%nat then digits (Py.take n s) else None.

Definition _parse_isoformat_date (dtstr : string) : option (Z * Z * Z) :=
  y ← digits_at 4 dtstr;
  if negb (Py.startswith "-" (Py.drop 4 dtstr)) then None else
  m ← digits_at 2 (Py.drop 5 dtstr);
  if negb (Py.startswith "-" (Py.drop 7 dtstr)) then None else
  d ← digits_at 2 (Py.drop 8 dtstr);
  Some (y, m, d).

(** [HH[:MM[:SS[.fff[fff]]]]] *)
Definition _parse_hh_mm_ss_ff (tstr : string) : option (Z * Z * Z * Z) :=
  hh ← digits_at 2 tstr;
  match Py.drop 2 tstr with
  | "" => Some (hh, 0, 0, 0)
  | String c1 r1 =>
      if negb (Ascii.eqb c1 ":") then None else
      mm ← digits_at 2 r1;
      match Py.drop 2 r1 with
      | "" => Some (hh, mm, 0, 0)
      | String c2 r2 =>
          if negb (Ascii.eqb c2 ":") then None else
          ss ← digits_at 2 r2;
          match Py.drop 2 r2 with
          | "" => Some (hh, mm, ss, 0)
          | String c3 r3 =>
              if negb (Ascii.eqb c3 ".") then None else
              if (String.length r3 =? 3)%nat then
                f ← digits r3; Some (hh, mm, ss, f * 1000)
              else if (String.length r3 =? 6)%nat then
                f ← digits r3; Some (hh, mm, ss, f)
              else None
          end
      end
  end.

Definition is_sign (c : ascii) : bool := Ascii.eqb c "+" || Ascii.eqb c "-".

(** The text before the first sign character and, when there is one, the
    sign and the text after it. *)
Fixpoint split_at_sign (s : string) : string * option (ascii * string) :=
  match s with
  | "" => ("", None)
  | String c r =>
      if is_sign c then ("", Some (c, r))
      else let '(a, b) := split_at_sign r in (String c a, b)
  end.

Definition _parse_isoformat_time (tstr : string)
    : option (Z * Z * Z * Z * option Z) :=
  let '(timestr, tz) := split_at_sign tstr in
  '(hh, mm, ss, us) ← _parse_hh_mm_ss_ff timestr;
  match tz with
  | None => Some (hh, mm, ss, us, None)
  | Some (sign, tzstr) =>
      let n := String.length tzstr in
      if negb ((n =? 5) || (n =? 8) || (n =? 15))%nat then None else
      '(th, tm, ts, tu) ← _parse_hh_mm_ss_ff tzstr;
      let off := ((th * 3600 + tm * 60 + ts) * 1000000 + tu) in
      Some (hh, mm, ss, us, Some (if Ascii.eqb sign "-" then - off else off))
  end.

Definition is_leap (y : Z) : bool :=
  (y mod 4 =? 0) && (negb (y mod 100 =? 0) || (y mod 400 =? 0)).

Definition days_in_month (y m : Z) : Z :=
  if m =? 2 then (if is_leap y then 29 else 28)
  else if (m =? 4) || (m =? 6) || (m =? 9) || (m =? 11) then 30
  else 31.

(** The range checks of the [datetime] and [timezone] constructors. *)
Definition valid (dt : datetime) : bool :=
  (1 <=? year dt) && (year dt <=? 9999)
  && (1 <=? month dt) && (month dt <=? 12)
  && (1 <=? day dt) && (day dt <=? days_in_month (year dt) (month dt))
  && (0 <=? hour dt) && (hour dt <=? 23)
  && (0 <=? minute dt) && (minute dt <=? 59)
  && (0 <=? second dt) && (second dt <=? 59)
  && (0 <=? microsecond dt) && (microsecond dt <=? 999999)
  && match tzinfo dt with
     | None => true
     | Some off => (- 86400000000 <? off) && (off <? 86400000000)
     end.

Definition parse (date_string : string) : option datetime :=
  '(y, m, d) ← _parse_isoformat_date (Py.take 10 date_string);
  '(hh, mm, ss, us, tz) ←
     (match Py.drop 10 date_string with
      | "" => Some (0, 0, 0, 0, None)
      | String _ tstr => _parse_isoformat_time tstr
      end);
  let dt := mkDatetime y m d hh mm ss us tz in
  if valid dt then Some dt else None.

(** The first four characters are decimal digits: every version reads
    the year from them before anything else. *)
Definition begins_with_year (date_string : string) : bool :=
  match digits_at 4 date_string with Some _ => true | None => false end.

Definition invalid_isoformat (date_string : string) : exn :=
  ValueError ("Invalid isoformat string: " ++ Py.repr date_string).

(** [datetime.fromisoformat(date_string)].  [rest] is the answer of the
    running interpreter on a string that begins with a year and is not
    read by [parse]: the datetime it makes of a shape added after
    Python 3.10, or the error it raises. *)
Definition fromisoformat (rest : string -> result datetime) (date_string : string)
    : result datetime :=
  match parse date_string with
  | Some dt => Ok dt
  | None =>
      if begins_with_year date_string then rest date_string
      else Raise (invalid_isoformat date_string)
  end.

(** Days from 0001-01-01 (day 1), as [_ymd2ord] counts them. *)
Definition _days_before_year (y : Z) : Z :=
  let y := y - 1 in y * 365 + y / 4 - y / 100 + y / 400.

Fixpoint days_before_month_nat (y : Z) (m : nat) : Z :=
  match m with
  | O => 0
  | S m' => days_before_month_nat y m' + days_in_month y (Z.of_nat m)
  end.

Definition _days_before_month (y m : Z) : Z :=
  days_before_month_nat y (Z.to_nat (m - 1)).

Definition _ymd2ord (y m d : Z) : Z :=
  _days_before_year y + _days_before_month y m + d.

(** Whole seconds from 1970-01-01T00:00:00 to the wall-clock reading of
    [dt], as if that reading were UTC. *)
Definition wall_seconds (dt : datetime) : Z :=
  (_ymd2ord (year dt) (month dt) (day dt) - _ymd2ord 1970 1 1) * 86400
  + hour dt * 3600 + minute dt * 60 + second dt.

(** The wall-clock readings of 0001-01-01T00:00:00 and of
    9999-12-31T23:59:59. *)
Definition min_seconds : Z := -62135596800.
Definition max_seconds : Z := 253402300799.

(** The year of the day that holds the wall-clock reading [t], in the
    proleptic Gregorian calendar ([_ord2ymd], which [localtime] follows
    before year 1 and after year 9999 too). *)
Definition year_of_seconds (t : Z) : Z :=
  let n := t / 86400 + 719162 in
  let n400 := n / 146097 in
  let n := n mod 146097 in
  let n100 := n / 36524 in
  let n := n mod 36524 in
  let n4 := n / 1461 in
  let n := n mod 1461 in
  let n1 := n / 365 in
  let y := n400 * 400 + 1 + n100 * 100 + n4 * 4 + n1 in
  if (n1 =? 4) || (n100 =? 4) then y - 1 else y.

(** [local(u)] of [datetime._mktime]: the local wall-clock reading of
    the instant [u], where [offset u] is the host's UTC offset at [u].
    The reading is turned into seconds by [utc_to_seconds], which
    refuses a year outside 1..9999, that is a reading outside
    [min_seconds .. max_seconds]. *)
Definition local (offset : Z -> Z) (u : Z) : result Z :=
  let t := u + offset u in
  if (min_seconds <=? t) && (t <=? max_seconds) then Ok t
  else Raise (ValueError ("year " ++ Py.str_of_Z (year_of_seconds t)
                          ++ " is out of range")).

(** [datetime._mktime] for [fold = 0]: the instant whose local reading
    is [t]. *)
Definition _mktime (offset : Z -> Z) (t : Z) : result Z :=
  let max_fold_seconds := 24 * 3600 in
  lt ← local offset t;
  let a := lt - t in
  let u1 := t - a in
  t1 ← local offset u1;
  let after (b : Z) : result Z :=
    let u2 := t - b in
    t2 ← local offset u2;
    Ok (if t2 =? t then u2
        else if t1 =? t then u1
        else Z.max u1 u2) in
  if t1 =? t then
    let u2 := u1 - max_fold_seconds in
    lt ← local offset u2;
    let b := lt - u2 in
    if a =? b then Ok u1 else after b
  else after (t1 - u1).

(** [int(dt.timestamp())].  For a naive datetime [timestamp] adds the
    float [microsecond / 1e6] to the seconds [_mktime] returns; for an
    aware one it divides the microseconds since the epoch by a
    million. *)
Definition timestamp_int (offset : Z -> Z) (dt : datetime) : result Z :=
  match tzinfo dt with
  | None =>
      s ← _mktime offset (wall_seconds dt);
      Ok (int_of_Q (round_double
                      (inject_Z s + round_double (Qmake (microsecond dt) 1000000))%Q))
  | Some off =>
      Ok (int_of_Q (round_double
                      (Qmake (wall_seconds dt * 1000000 + microsecond dt - off)
                             1000000)))
  end.

End Datetime.

(** ** The operating system and the effect monad *)

(** What [subprocess.run] hands back. *)
Record CompletedProcess : Type := mkCompleted {
  returncode : Z;
  stdout : string;
  stderr : string
}.

(** The surroundings of one run.
    - [subprocess_run env cmd] answers a command line, or raises when
      the executable cannot be started; the child inherits the process
      environment [env], which decides among other things where [dig]
      is found.
    - [os_stat path] is the modification time of [os.stat(path)], in
      seconds, or the error it raises; [os.path.exists] and
      [os.path.getmtime] both go through it.
    - [glob_glob pattern] lists the paths that match, which may include
      names that cannot be followed, such as a dangling link.
    - [file_sha256 path] is the SHA-256 hex digest of the content of a
      file, or the error met while reading it.
    - [local_utcoffset env u] is the offset, in seconds east of UTC,
      that the host's time zone has at the instant [u]; the zone is
      taken from [TZ] in the environment when it is set.
    - [fromisoformat_rest] is the interpreter's [datetime.fromisoformat]
      on the strings that [Datetime.parse] does not read. *)
Record World : Type := mkWorld {
  environ : gmap string string;
  subprocess_run : gmap string string -> list string -> result CompletedProcess;
  os_stat : string -> result Q;
  read_text : string -> result string;
  glob_glob : string -> list string;
  file_sha256 : string -> result string;
  local_utcoffset : gmap string string -> Z -> Z;
  fromisoformat_rest : string -> result Datetime.datetime
}.

(** Every interaction with the operating system, in program order. *)
Inductive event : Type :=
| EvRun (cmd : list string)
| EvExists (path : string)
| EvReadText (path : string)
| EvGlob (pattern : string)
| EvGetmtime (path : string)
| EvSha256 (path : string)
| EvPrint (line : string).

(** A computation yields a value or a raised exception, and the trace of
    what it did. *)
Definition M (A : Type) : Type := result A * list event.

Definition ret {A} (a : A) : M A := (Ok a, []).
Definition raise {A} (e : exn) : M A := (Raise e, []).

Definition bind {A B} (m : M A) (k : A -> M B) : M B :=
  match m with
  | (Ok a, t1) => let '(r, t2) := k a in (r, (t1 ++ t2)%list)
  | (Raise e, t1) => (Raise e, t1)
  end.

Notation "x <- m ;; k" := (bind m (fun x => k))
  (at level 20, m at level 99, k at level 200, format "x  <-  m  ;;  '/' k").
Notation "' p <- m ;; k" := (bind m (fun 'p => k))
  (at level 20, p pattern, m at level 99, k at level 200, only parsing).

(** [try: m  except Exception as e: ...]: the exception becomes a value. *)
Definition attempt {A} (m : M A) : M (result A) := (Ok (fst m), snd m).

Definition perform {A} (ev : event) (r : result A) : M A := (r, [ev]).

Definition value_of {A} (m : M A) : result A := fst m.
Definition trace_of {A} (m : M A) : list event := snd m.

Definition print (line : string) : M unit := perform (EvPrint line) (Ok tt).

(** [os.getenv(name, default)] *)
Definition getenv (w : World) (name default : string) : string :=
  match environ w !! name with Some v => v | None => default end.

(** [os.path.exists(path)]: whether [os.stat] succeeds. *)
Definition path_exists (w : World) (path : string) : bool :=
  match os_stat w path with Ok _ => true | Raise _ => false end.

(** [os.path.getmtime(path)]: [os.stat(path).st_mtime]. *)
Definition getmtime (w : World) (path : string) : result Q := os_stat w path.

(** The modification time of a path whose [getmtime] has returned. *)
Definition mtime (w : World) (path : string) : Q :=
  match getmtime w path with Ok t => t | Raise _ => 0%Q end.

(** The UTC offset of the host's zone in this run. *)
Definition utcoffset (w : World) : Z -> Z := local_utcoffset w (environ w).

(** [a or b] for an optional string [a]: [None] and the empty string are
    falsy. *)
Definition or_else (a : option string) (b : string) : string :=
  match a with
  | Some s => if Py.nonempty s then s else b
  | None => b
  end.

(** [os.path.join(a, b)] on POSIX. *)
Definition path_join (a b : string) : string :=
  if Py.startswith "/" b then b
  else if negb (Py.nonempty a) || Py.startswith "/" (Py.drop (String.length a - 1) a)
       then a ++ b
       else a ++ "/" ++ b.

Definition NL : string := String (ascii_of_nat 10) "".

(** ** External commands *)

Definition run (w : World) (cmd : list string) : M string :=
  p <- perform (EvRun cmd) (subprocess_run w (environ w) cmd) ;;
  if returncode p =? 0 then ret (Py.strip (stdout p))
  else raise (RuntimeError
                ("Command failed: " ++ Py.join " " cmd ++ NL ++ Py.strip (stderr p))).

(** [[x.strip().rstrip(".") for x in xs if x.strip()]] *)
Definition ns_entries (xs : list string) : list string :=
  map (fun x => Py.rstrip_char "." (Py.strip x))
      (List.filter (fun x => Py.nonempty (Py.strip x)) xs).

Definition ns_query (zone : string) : list string :=
  ["dig"; "+short"; "NS"; zone].

Definition _get_authoritative_ns (w : World) (zone : string) : M (list string) :=
  out <- run w (ns_query zone) ;;
  ret (ns_entries (Py.splitlines out)).

(** The TXT query, directed at a nameserver or, without one, left to the
    system default resolver. *)
Definition txt_query (ns : option string) (name : string) : list string :=
  match ns with
  | Some ns => ["dig"; "@" ++ ns; "+short"; "TXT"; name; "+time=2"; "+tries=1"]
  | None => ["dig"; "+short"; "TXT"; name; "+time=2"; "+tries=1"]
  end.

(** The loop over the nameservers: [inl] when the function returns from
    inside the loop, [inr last_err] when the loop runs to its end. *)
Fixpoint authoritative_loop (w : World) (name : string) (ns_list : list string)
    (last_err : option exn) : M (string * string + option exn) :=
  match ns_list with
  | [] => ret (inr last_err)
  | ns :: rest =>
      r <- attempt (run w (txt_query (Some ns) name)) ;;
      match r with
      | Ok out =>
          let txt := _clean_dig_txt out in
          if Py.nonempty txt then ret (inl (txt, ns))
          else authoritative_loop w name rest last_err
      | Raise e => authoritative_loop w name rest (Some e)
      end
  end.

(** Lines 108 to 112: the nameserver list, from the override when it is
    set and not blank, from the NS lookup otherwise. *)
Definition nameserver_list (w : World) (zone : string) : M (list string) :=
  let ns_override := Py.strip (getenv w "POA_DNS_NS_OVERRIDE" "") in
  if Py.nonempty ns_override then ret (ns_entries (Py.split_char "," ns_override))
  else _get_authoritative_ns w zone.

Definition no_txt_message (name zone : string) (last_err : option exn) : string :=
  "No TXT returned for " ++ name ++ " via authoritative NS (zone=" ++ zone
  ++ "). last_err=" ++ opt_exn_str last_err.

Definition dig_txt_authoritative (w : World) (name zone : string) : M (string * string) :=
  ns_list <- nameserver_list w zone ;;
  r <- authoritative_loop w name ns_list None ;;
  match r with
  | inl found => ret found
  | inr last_err =>
      fallback <-
        (if String.eqb (getenv w "POA_DNS_ALLOW_SYSTEM_RESOLVER" "0") "1" then
           out <- run w (txt_query None name) ;;
           let txt := _clean_dig_txt out in
           if Py.nonempty txt then ret (Some (txt, "SYSTEM_RESOLVER")) else ret None
         else ret None) ;;
      match fallback with
      | Some found => ret found
      | None => raise (RuntimeError (no_txt_message name zone last_err))
      end
  end.

(** ** Local evidence *)

Definition sha256_file (w : World) (path : string) : M string :=
  perform (EvSha256 path) (file_sha256 w path).

(** [list.sort(key=..., reverse=True)]: descending and stable, so files
    with equal keys keep the order they had. *)
Fixpoint insert_desc (key : string -> Q) (x : string) (l : list string) : list string :=
  match l with
  | [] => [x]
  | y :: ys =>
      if Qle_bool (key y) (key x) then x :: y :: ys
      else y :: insert_desc key x ys
  end.

Definition sort_desc (key : string -> Q) (l : list string) : list string :=
  fold_right (insert_desc key) [] l.

(** [list.sort(key=os.path.getmtime)] computes the key of every file
    once, in list order, before it compares anything; a key that cannot
    be computed ends the sort with its error. *)
Fixpoint read_keys (w : World) (files : list string) : M unit :=
  match files with
  | [] => ret tt
  | f :: rest =>
      _ <- perform (EvGetmtime f) (getmtime w f) ;;
      read_keys w rest
  end.

Definition candidates_pattern (export_dir : string) : string :=
  path_join export_dir "heartbeats_*.json".

Definition newest_files (w : World) (export_dir : string) (n : nat) : M (list string) :=
  files <- perform (EvGlob (candidates_pattern export_dir))
                   (Ok (glob_glob w (candidates_pattern export_dir))) ;;
  _ <- read_keys w files ;;
  ret (take n (sort_desc (mtime w) files)).

(** The loop of the hash scan; a file that cannot be hashed is skipped. *)
Fixpoint hash_scan (w : World) (sha : string) (files : list string)
    : M (option string * option string) :=
  match files with
  | [] => ret (None, None)
  | f :: rest =>
      r <- attempt (sha256_file w f) ;;
      match r with
      | Ok h =>
          if String.eqb (Py.lower h) sha
          then ret (Some f, Some "matched_by_hash_scan")
          else hash_scan w sha rest
      | Raise _ => hash_scan w sha rest
      end
  end.

Definition find_local_match (w : World) (export_dir : string) (proof : DnsProof)
    : M (option string * option string) :=
  by_name <-
    (match filename proof with
     | Some name =>
         if Py.nonempty name then
           let candidate := path_join export_dir name in
           found <- perform (EvExists candidate) (Ok (path_exists w candidate)) ;;
           if found : bool then ret (Some candidate) else ret None
         else ret None
     | None => ret None
     end) ;;
  match by_name with
  | Some candidate => ret (Some candidate, Some "matched_by_filename")
  | None =>
      files <- newest_files w export_dir LOOKBACK_FILES ;;
      hash_scan w (sha256 proof) files
  end.

(** ** The published time *)

Definition iso_to_unix (w : World) (ts_iso : string) : result Z :=
  dt ← Datetime.fromisoformat (fromisoformat_rest w)
                              (Py.replace_char "Z" "+00:00" ts_iso);
  Datetime.timestamp_int (utcoffset w) dt.

(** ** The configuration file *)

Definition env_line (d : gmap string string) (line : string) : gmap string string :=
  let line := Py.strip line in
  if negb (Py.nonempty line) || Py.startswith "#" line
     || negb (Py.contains_char "=" line)
  then d
  else let '(k, v) := Py.partition_char "=" line in
       <[Py.strip k := Py.strip v]> d.

Definition load_env_file (w : World) (path : string) : M (gmap string string) :=
  found <- perform (EvExists path) (Ok (path_exists w path)) ;;
  if negb found then ret ∅
  else
    text <- perform (EvReadText path) (read_text w path) ;;
    ret (fold_left env_line (Py.splitlines text) ∅).

(** ** The program *)

(** A pure step that can raise. *)
Definition lift {A} (r : result A) : M A := (r, []).

Definition exit_code (v : Verdict) : Z :=
  match v with OK => 0 | WARN => 1 | FAIL => 2 end.

(** [str(how)] for the optional tag. *)
Definition opt_str (o : option string) : string :=
  match o with Some s => s | None => "None" end.

(** The report of the branch taken when [match_path] is falsy. *)
Definition no_match (used_ns dns_txt export_dir : string) : M Z :=
  _ <- print "VERDICT: FAIL" ;;
  _ <- print ("DNS NS      : " ++ used_ns) ;;
  _ <- print ("DNS TXT     : " ++ dns_txt) ;;
  _ <- print ("EXPORT_DIR  : " ++ export_dir) ;;
  _ <- print ("LOCAL       : FAIL (no matching export found in last "
               ++ Py.str_of_Z (Z.of_nat LOOKBACK_FILES) ++ " files)") ;;
  ret 2.

(** The three settings [main] reads before it starts. *)
Definition dns_name_of (env : gmap string string) : string :=
  default DNS_NAME_DEFAULT (env !! "DNS_NAME").

Definition dns_zone_of (w : World) (env : gmap string string) : string :=
  or_else (environ w !! "DNS_ZONE") (or_else (env !! "DNS_ZONE") DNS_ZONE_DEFAULT).

Definition export_dir_of (w : World) : string :=
  Py.rstrip_char "/" (or_else (environ w !! "POA_EXPORT_DIR") DEFAULT_EXPORT_DIR).

Definition main (w : World) : M Z :=
  env <- load_env_file w ENV_FILE ;;
  let dns_name := dns_name_of env in
  let dns_zone := dns_zone_of w env in
  let export_dir := export_dir_of w in
  '(dns_txt, used_ns) <- dig_txt_authoritative w dns_name dns_zone ;;
  proof <- lift (parse_dns_txt dns_txt) ;;
  dns_ts_unix <- lift (iso_to_unix w (ts_iso proof)) ;;
  '(match_path, how) <- find_local_match w export_dir proof ;;
  match match_path with
  | Some path =>
      if Py.nonempty path then
        digest <- sha256_file w path ;;
        let file_sha := Py.lower digest in
        let hash_ok := String.eqb file_sha (sha256 proof) in
        mt <- perform (EvGetmtime path) (getmtime w path) ;;
        let mtime := int_of_Q mt in
        let skew := mtime - dns_ts_unix in
        let local_v := verdict_from_hash_and_skew hash_ok skew in
        _ <- print ("VERDICT: " ++ verdict_str local_v) ;;
        _ <- print ("DNS NS      : " ++ used_ns) ;;
        _ <- print ("DNS TXT     : " ++ dns_txt) ;;
        _ <- print ("EXPORT_DIR  : " ++ export_dir) ;;
        _ <- print ("Matched file: " ++ path ++ " (" ++ opt_str how ++ ")") ;;
        _ <- print ("DNS SHA256  : " ++ sha256 proof) ;;
        _ <- print ("File SHA256 : " ++ file_sha) ;;
        _ <- print ("Skew seconds: " ++ Py.str_of_Z skew ++ " (file_mtime - dns_ts)") ;;
        _ <- print ("LOCAL: " ++ verdict_str local_v) ;;
        ret (exit_code local_v)
      else no_match used_ns dns_txt export_dir
  | None => no_match used_ns dns_txt export_dir
  end.

(** [sys.exit(main())]: the status is the integer [main] returns; an
    exception that leaves [main] is not caught anywhere, so the
    interpreter prints the traceback and ends with status 1. *)
Definition exit_status (w : World) : Z :=
  match value_of (main w) with
  | Ok n => n
  | Raise _ => 1
  end.

(** * Vocabulary of the properties *)

(** ** The fields of the TXT record *)

(** [marker] occurs in [t] followed by a character other than the
    semicolon: the text has a value for that field. *)
Definition has_field (marker t : string) : Prop :=
  exists pre c post, t = pre ++ marker ++ String c post /\ c <> ";"%char.

(** [SHA256=] occurs in [t] followed by 64 hexadecimal characters. *)
Definition has_sha256 (t : string) : Prop :=
  exists pre h post,
    t = pre ++ "SHA256=" ++ h ++ post
    /\ String.length h = 64%nat /\ Py.forallb_str Re.is_hex h = true.

(** The hash token as the specification words it: the value of a
    [SHA256=] marker runs to the next semicolon or to the end of the
    text, and is well formed when it is exactly 64 hexadecimal
    characters. *)
Fixpoint spec_hash_token_ok (t : string) : bool :=
  match t with
  | "" => false
  | String _ r =>
      (Py.startswith "SHA256=" t
       && (let v := Py.take_while Re.not_semicolon (Py.drop 7 t) in
           (String.length v =? 64)%nat && Py.forallb_str Re.is_hex v))
      || spec_hash_token_ok r
  end.

Definition is_lower_hex (c : ascii) : bool :=
  let n := Py.code c in
  ((48 <=? n) && (n <=? 57) || (97 <=? n) && (n <=? 102))%nat.

Definition unrecognized (t : string) : exn :=
  RuntimeError ("Unrecognized TXT format: " ++ t).

(** The override as the specification words it: the configured list,
    returned verbatim. *)
Definition spec_override_list (value : string) : list string :=
  Py.split_char "," value.

(** ** The nameserver loop *)

(** A query directed at [ns] raises or yields an empty payload. *)
Definition query_failed (w : World) (name ns : string) : Prop :=
  match value_of (run w (txt_query (Some ns) name)) with
  | Ok out => _clean_dig_txt out = ""
  | Raise _ => True
  end.

Definition query_error (w : World) (name ns : string) : option exn :=
  match value_of (run w (txt_query (Some ns) name)) with
  | Ok _ => None
  | Raise e => Some e
  end.

(** The error of the last nameserver whose query raised, if any did. *)
Fixpoint last_error (w : World) (name : string) (ns_list : list string)
    (acc : option exn) : option exn :=
  match ns_list with
  | [] => acc
  | ns :: rest =>
      last_error w name rest
        (match query_error w name ns with Some e => Some e | None => acc end)
  end.

(** One TXT query per nameserver, each directed at it. *)
Definition txt_events (name : string) (ns_list : list string) : list event :=
  map (fun ns => EvRun (txt_query (Some ns) name)) ns_list.

(** ** The local matcher *)

(** The file can be hashed and its digest, lower-cased, is [sha]. *)
Definition matches (w : World) (sha : string) (f : string) : bool :=
  match file_sha256 w f with
  | Ok h => String.eqb (Py.lower h) sha
  | Raise _ => false
  end.

(** The candidates of the export directory, as [glob] lists them. *)
Definition candidates (w : World) (export_dir : string) : list string :=
  glob_glob w (candidates_pattern export_dir).

(** The lookback window: the [LOOKBACK_FILES] most recently modified
    candidates, in scan order. *)
Definition window (w : World) (export_dir : string) : list string :=
  take LOOKBACK_FILES (sort_desc (mtime w) (candidates w export_dir)).

(** The second tier on its own: what [find_local_match] does once the
    first tier has found nothing. *)
Definition second_tier (w : World) (export_dir sha : string)
    : M (option string * option string) :=
  files <- newest_files w export_dir LOOKBACK_FILES ;; hash_scan w sha files.

(** The modification time of every candidate can be read, so that the
    sort goes through. *)
Definition sortable (w : World) (export_dir : string) : Prop :=
  forall f, In f (candidates w export_dir) -> getmtime w f = Ok (mtime w f).

(** The files a trace hashed, in order. *)
Fixpoint hashed (t : list event) : list string :=
  match t with
  | [] => []
  | EvSha256 f :: rest => f :: hashed rest
  | _ :: rest => hashed rest
  end.

Definition scan_outcome (found : option string) : option string * option string :=
  match found with
  | Some f => (Some f, Some "matched_by_hash_scan")
  | None => (None, None)
  end.

(** The first tier does not apply: there is no filename hint, or the
    file it names does not exist. *)
Definition hint_misses (w : World) (export_dir : string) (proof : DnsProof) : Prop :=
  forall name,
    filename proof = Some name -> name <> "" ->
    path_exists w (path_join export_dir name) = false.

(** [a] may stand before [b] in the descending order of [key]: it is
    not older. *)
Definition not_older (key : string -> Q) (a b : string) : Prop :=
  (key b <= key a)%Q.

(** [f] was modified strictly after [g]. *)
Definition newer_than (key : string -> Q) (g f : string) : bool :=
  negb (Qle_bool (key f) (key g)).

(** The number of candidates modified strictly after [g]. *)
Definition newer_count (w : World) (export_dir : string) (g : string) : nat :=
  List.length (List.filter (newer_than (mtime w) g) (candidates w export_dir)).

(** ** Timestamps *)

(** The reading of a datetime as UTC, in whole seconds since the epoch. *)
Definition utc_epoch (dt : Datetime.datetime) : Z :=
  Z.quot (Datetime.wall_seconds dt * 1000000 + Datetime.microsecond dt) 1000000.

(** ** The report *)

(** The lines a run printed, in order. *)
Fixpoint printed (t : list event) : list string :=
  match t with
  | [] => []
  | EvPrint line :: rest => line :: printed rest
  | _ :: rest => printed rest
  end.

(** A computation that prints nothing. *)
Definition quiet {A} (m : M A) : Prop := printed (trace_of m) = [].

Definition no_match_line : string :=
  "LOCAL       : FAIL (no matching export found in last 300 files)".

(** What a run shows of itself: when [main] returns, the first line
    printed is the verdict line and the value returned is the code of
    that verdict, the no-match report going with code 2; when [main]
    raises, nothing was printed. *)
Definition reported (r : result Z) (lines : list string) : Prop :=
  match r with
  | Ok n =>
      exists v rest,
        lines = ("VERDICT: " ++ verdict_str v) :: rest
        /\ n = exit_code v
        /\ (In no_match_line lines -> n = 2)
  | Raise _ => lines = []
  end.

(** ** Worlds for the examples *)

Module Example.

(** [s.endswith(p)] *)
Definition endswith (p s : string) : bool :=
  String.eqb (Py.drop (String.length s - String.length p) s) p
  && (String.length p <=? String.length s)%nat.

(** A pattern with one star: the prefix and the suffix around it. *)
Definition glob_match (pattern path : string) : bool :=
  let '(pre, suf) := Py.partition_char "*" pattern in
  Py.startswith pre path && endswith suf (Py.drop (String.length pre) path)
  && negb (Py.contains_char "/" (Py.drop (String.length pre) path)).

(** A file: its path, its modification time, its digest or the error
    raised on reading it. *)
Definition file : Type := string * (Q * result string).

Fixpoint lookup (files : list file) (path : string) : option (Q * result string) :=
  match files with
  | [] => None
  | (p, v) :: rest => if String.eqb p path then Some v else lookup rest path
  end.

Definition no_such_file (path : string) : exn :=
  OSError ("[Errno 2] No such file or directory: '" ++ path ++ "'").

(** The world made of an environment, an answer to every command, a list
    of files and a fixed UTC offset of the host, under an interpreter
    older than Python 3.11. *)
Definition world (env : gmap string string)
    (answer : list string -> result CompletedProcess)
    (files : list file) (offset : Z) : World :=
  {| environ := env;
     subprocess_run := fun _ => answer;
     os_stat := fun p =>
       match lookup files p with Some (t, _) => Ok t | None => Raise (no_such_file p) end;
     read_text := fun p => Raise (no_such_file p);
     glob_glob := fun pat => List.filter (glob_match pat) (map fst files);
     file_sha256 := fun p =>
       match lookup files p with Some (_, d) => d | None => Raise (no_such_file p) end;
     local_utcoffset := fun _ _ => offset;
     fromisoformat_rest := fun s => Raise (Datetime.invalid_isoformat s) |}.

(** A resolver that knows two nameservers, neither of which answers: the
    first times out, the second returns an empty payload. *)
Definition silent_dns (cmd : list string) : result CompletedProcess :=
  match cmd with
  | ["dig"; "+short"; "NS"; _] =>
      Ok (mkCompleted 0 ("ns1.example.net." ++ NL ++ "ns2.example.net." ++ NL) "")
  | ["dig"; "@ns1.example.net"; _; _; _; _; _] =>
      Ok (mkCompleted 9 "" ";; connection timed out; no servers could be reached")
  | ["dig"; "@ns2.example.net"; _; _; _; _; _] => Ok (mkCompleted 0 "" "")
  | _ => Ok (mkCompleted 0 (Py.DQ ++ "from the system resolver" ++ Py.DQ) "")
  end.

(** A network on which every command fails. *)
Definition no_network (cmd : list string) : result CompletedProcess :=
  Ok (mkCompleted 9 "" ";; communications error").

End Example.

Definition sha_a : string :=
  "aaaaaaaaaaaaaaaaaaaaaaaaaaaaaaaaaaaaaaaaaaaaaaaaaaaaaaaaaaaaaaaa".
Definition sha_b : string :=
  "bbbbbbbbbbbbbbbbbbbbbbbbbbbbbbbbbbbbbbbbbbbbbbbbbbbbbbbbbbbbbbbb".

Definition hex64_example : string :=
  "0123456789abcdef0123456789abcdef0123456789abcdef0123456789ABCDEF".

Definition silent_world : World :=
  Example.world ∅ Example.silent_dns [] 0.

Definition override_world : World :=
  Example.world (<["POA_DNS_NS_OVERRIDE" := "ns1.example.net., ns2.example.net"]> ∅)
                Example.no_network [] 0.

(** An export directory in which the hinted file has another content
    and a different file has the published hash. *)
Definition two_files_world : World :=
  Example.world ∅ Example.no_network
    [("/proof/exports/heartbeats_1.json", ((1704067000 # 1)%Q, Ok sha_b));
     ("/proof/exports/heartbeats_2.json", ((1704067100 # 1)%Q, Ok sha_a))] 0.

(** A directory of 301 candidates, the [i]-th modified [i] seconds after
    the first; only the first, the oldest, has the published hash. *)
Definition candidate_name (i : nat) : string :=
  "/proof/exports/heartbeats_" ++ Py.str_of_Z (Z.of_nat i) ++ ".json".

Definition candidate_index (path : string) : Z :=
  match Datetime.digits (Py.take_while Datetime.is_digit (Py.drop 26 path)) with
  | Some n => n
  | None => 0
  end.

Definition crowded_world : World :=
  {| environ := ∅;
     subprocess_run := fun _ => Example.no_network;
     os_stat := fun p =>
       if (candidate_index p <? 301)
          && String.eqb p (candidate_name (Z.to_nat (candidate_index p)))
       then Ok (inject_Z (1704000000 + candidate_index p))
       else Raise (Example.no_such_file p);
     read_text := fun p => Raise (Example.no_such_file p);
     glob_glob := fun pat =>
       if String.eqb pat "/proof/exports/heartbeats_*.json"
       then map candidate_name (seq 0 301) else [];
     file_sha256 := fun p =>
       if String.eqb p (candidate_name 0) then Ok sha_a else Ok sha_b;
     local_utcoffset := fun _ _ => 0;
     fromisoformat_rest := fun s => Raise (Datetime.invalid_isoformat s) |}.

(** A host one hour east of UTC. *)
Definition paris_world : World := Example.world ∅ Example.no_network [] 3600.

(** A host without network, and a host whose nameserver publishes a
    record without hash. *)
Definition offline_world : World := Example.world ∅ Example.no_network [] 0.

Definition hashless_dns (cmd : list string) : result CompletedProcess :=
  match cmd with
  | ["dig"; "+short"; "NS"; _] => Ok (mkCompleted 0 ("ns1.example.net." ++ NL) "")
  | _ => Ok (mkCompleted 0 (Py.DQ ++ "TS=2024-01-01T00:00:00Z" ++ Py.DQ ++ NL) "")
  end.

Definition hashless_world : World := Example.world ∅ hashless_dns [] 0.

(** A host on which everything agrees: the record names a file that
    exists, has the published hash and was written 100 seconds after the
    published time. *)
Definition healthy_dns (cmd : list string) : result CompletedProcess :=
  match cmd with
  | ["dig"; "+short"; "NS"; _] => Ok (mkCompleted 0 ("ns1.example.net." ++ NL) "")
  | _ =>
      Ok (mkCompleted 0
            (Py.DQ ++ "TS=2024-01-01T00:00:00Z;SHA256=" ++ sha_a
             ++ ";FILE=heartbeats_1.json" ++ Py.DQ ++ NL) "")
  end.

Definition healthy_world : World :=
  Example.world ∅ healthy_dns
    [("/proof/exports/heartbeats_1.json", ((1704067300 # 1)%Q, Ok sha_a))] 0.

(** ** Further vocabulary *)

(** A character other than the double quote. *)
Definition no_dquote (c : ascii) : bool := negb (Ascii.eqb c Py.dquote).

(** No character of [s] satisfies [p]. *)
Definition free_of (p : ascii -> bool) (s : string) : bool :=
  Py.forallb_str (fun c => negb (p c)) s.

(** Three nameservers: the first times out, the second publishes the
    record, the third would publish another one. *)
Definition answering_dns (cmd : list string) : result CompletedProcess :=
  match cmd with
  | ["dig"; "+short"; "NS"; _] =>
      Ok (mkCompleted 0
            ("ns1.example.net." ++ NL ++ "ns2.example.net." ++ NL
             ++ "ns3.example.net." ++ NL) "")
  | ["dig"; "@ns1.example.net"; _; _; _; _; _] =>
      Ok (mkCompleted 9 "" ";; connection timed out; no servers could be reached")
  | ["dig"; "@ns2.example.net"; _; _; _; _; _] =>
      Ok (mkCompleted 0
            (Py.DQ ++ "TS=2024-01-01T00:00:00Z;SHA256=" ++ sha_a
             ++ ";FILE=heartbeats_1.json" ++ Py.DQ ++ NL) "")
  | _ => Ok (mkCompleted 0 (Py.DQ ++ "another record" ++ Py.DQ ++ NL) "")
  end.

Definition answering_world : World := Example.world ∅ answering_dns [] 0.

Definition published_record : string :=
  "TS=2024-01-01T00:00:00Z;SHA256=" ++ sha_a ++ ";FILE=heartbeats_1.json".

(** Silent nameservers and the fallback switched on. *)
Definition fallback_world : World :=
  Example.world (<["POA_DNS_ALLOW_SYSTEM_RESOLVER" := "1"]> ∅)
                Example.silent_dns [] 0.

(** A record as it is published: the fields in the order TS, SHA256,
    FILE, separated by semicolons, the last one optional. *)
Definition render_proof (ts h : string) (file : option string) : string :=
  "TS=" ++ ts ++ ";SHA256=" ++ h
  ++ match file with Some f => ";FILE=" ++ f | None => "" end.

(** The characters a timestamp must avoid for the record to read back:
    the separator and the first letters of the two other markers. *)
Definition breaks_timestamp (c : ascii) : bool :=
  Ascii.eqb c ";" || Ascii.eqb c "S" || Ascii.eqb c "F".

(** [s] is not empty and does not end with whitespace or with a double
    quote. *)
Definition well_ended (s : string) : Prop :=
  s <> "" /\ Py.rstrip_by Py.is_space s = s /\ Py.rstrip_char Py.dquote s = s.

(** A field value that reads back: without semicolon and well ended. *)
Definition readable_field (file : option string) : Prop :=
  match file with
  | Some f => free_of (fun c => Ascii.eqb c ";") f = true /\ well_ended f
  | None => True
  end.

(** The assignment a line of the configuration file makes, if it makes
    one: the key and the value that [load_env_file] stores for it. *)
Definition parse_env_line (line : string) : option (string * string) :=
  let line := Py.strip line in
  if negb (Py.nonempty line) || Py.startswith "#" line
     || negb (Py.contains_char "=" line)
  then None
  else let '(k, v) := Py.partition_char "=" line in Some (Py.strip k, Py.strip v).

(** [line] assigns a value to [key]. *)
Definition defines (key line : string) : Prop :=
  exists v, parse_env_line line = Some (key, v).

(** In [lines], the last line that assigns a value to [key] assigns
    [v]. *)
Definition last_assignment (lines : list string) (key v : string) : Prop :=
  exists l1 line l2,
    lines = (l1 ++ line :: l2)%list
    /\ parse_env_line line = Some (key, v)
    /\ forall l, In l l2 -> ~ defines key l.

(** A host whose configuration file names the record twice and the zone
    once, among a comment and a line without assignment. *)
Definition poa_env_text : string :=
  "# proof of availability" ++ NL
  ++ "DNS_NAME = _old.example.org" ++ NL
  ++ "  DNS_ZONE=example.org  " ++ NL
  ++ "no assignment here" ++ NL
  ++ "DNS_NAME=_poa.example.org" ++ NL.

Definition configured_world : World :=
  {| environ := <["DNS_NAME" := "_env.example.org"]> ∅;
     subprocess_run := fun _ => Example.no_network;
     os_stat := fun p =>
       if String.eqb p ENV_FILE then Ok 0%Q else Raise (Example.no_such_file p);
     read_text := fun p =>
       if String.eqb p ENV_FILE then Ok poa_env_text
       else Raise (Example.no_such_file p);
     glob_glob := fun _ => [];
     file_sha256 := fun p => Raise (Example.no_such_file p);
     local_utcoffset := fun _ _ => 0;
     fromisoformat_rest := fun s => Raise (Datetime.invalid_isoformat s) |}.

(** Two runs in the same surroundings: the same files and interpreter,
    and, each under the environment of its run, the same answers of the
    commands and the same local time zone.  The child processes inherit
    the whole environment and the zone follows [TZ], so this is a
    condition on the two environments as well. *)
Definition same_host (w1 w2 : World) : Prop :=
  subprocess_run w1 (environ w1) = subprocess_run w2 (environ w2)
  /\ os_stat w1 = os_stat w2
  /\ read_text w1 = read_text w2
  /\ glob_glob w1 = glob_glob w2
  /\ file_sha256 w1 = file_sha256 w2
  /\ utcoffset w1 = utcoffset w2
  /\ fromisoformat_rest w1 = fromisoformat_rest w2.

(** The environment variables the program looks up. *)
Definition environment_keys : list string :=
  ["DNS_ZONE"; "POA_EXPORT_DIR"; "POA_DNS_NS_OVERRIDE";
   "POA_DNS_ALLOW_SYSTEM_RESOLVER"].

Definition same_settings (w1 w2 : World) : Prop :=
  forall k, In k environment_keys -> environ w1 !! k = environ w2 !! k.

(** The host of [configured_world] with an empty environment. *)
Definition bare_configured_world : World :=
  {| environ := ∅;
     subprocess_run := subprocess_run configured_world;
     os_stat := os_stat configured_world;
     read_text := read_text configured_world;
     glob_glob := glob_glob configured_world;
     file_sha256 := file_sha256 configured_world;
     local_utcoffset := local_utcoffset configured_world;
     fromisoformat_rest := fromisoformat_rest configured_world |}.

(** The steps of [main] before the local comparison went through: the
    settings were read, the record was fetched and parsed into [proof],
    its time was converted into [ts]. *)
Definition record_obtained (w : World) (proof : DnsProof) (ts : Z) : Prop :=
  exists env dns_txt used_ns,
    value_of (load_env_file w ENV_FILE) = Ok env
    /\ value_of (dig_txt_authoritative w (dns_name_of env) (dns_zone_of w env))
       = Ok (dns_txt, used_ns)
    /\ parse_dns_txt dns_txt = Ok proof
    /\ iso_to_unix w (ts_iso proof) = Ok ts.

(** The seconds between the modification time of [path], truncated, and
    the published time. *)
Definition skew_of (w : World) (path : string) (ts : Z) : Z :=
  int_of_Q (mtime w path) - ts.

(** A record without filename, and an export directory in which the
    newer of two files has the published hash. *)
Definition nameless_dns (cmd : list string) : result CompletedProcess :=
  match cmd with
  | ["dig"; "+short"; "NS"; _] => Ok (mkCompleted 0 ("ns1.example.net." ++ NL) "")
  | _ =>
      Ok (mkCompleted 0
            (Py.DQ ++ "TS=2024-01-01T00:00:00Z;SHA256=" ++ sha_a ++ Py.DQ ++ NL) "")
  end.

Definition scanned_world : World :=
  Example.world ∅ nameless_dns
    [("/proof/exports/heartbeats_1.json", ((1704067000 # 1)%Q, Ok sha_b));
     ("/proof/exports/heartbeats_2.json", ((1704067300 # 1)%Q, Ok sha_a))] 0.

(** The record names a file that exists with another content, while a
    second file has the published hash. *)
Definition swapped_world : World :=
  Example.world ∅ healthy_dns
    [("/proof/exports/heartbeats_1.json", ((1704067300 # 1)%Q, Ok sha_b));
     ("/proof/exports/heartbeats_2.json", ((1704067300 # 1)%Q, Ok sha_a))] 0.

(** The record names a file that exists and cannot be read. *)
Definition locked_world : World :=
  Example.world ∅ healthy_dns
    [("/proof/exports/heartbeats_1.json",
      ((1704067300 # 1)%Q,
       Raise (OSError "[Errno 13] Permission denied: '/proof/exports/heartbeats_1.json'")));
     ("/proof/exports/heartbeats_2.json", ((1704067300 # 1)%Q, Ok sha_a))] 0.

(** The proof that the example records carry. *)
Definition example_proof (file : option string) : DnsProof :=
  {| ts_iso := "2024-01-01T00:00:00Z"; sha256 := sha_a; filename := file |}.

(** A record whose time is a word. *)
Definition undated_dns (cmd : list string) : result CompletedProcess :=
  match cmd with
  | ["dig"; "+short"; "NS"; _] => Ok (mkCompleted 0 ("ns1.example.net." ++ NL) "")
  | _ =>
      Ok (mkCompleted 0
            (Py.DQ ++ "TS=yesterday;SHA256=" ++ sha_a ++ Py.DQ ++ NL) "")
  end.

Definition undated_world : World :=
  Example.world ∅ undated_dns
    [("/proof/exports/heartbeats_1.json", ((1704067300 # 1)%Q, Ok sha_a))] 0.

(** A host without network on which the fallback to the system resolver
    is switched on. *)
Definition stranded_world : World :=
  Example.world (<["POA_DNS_ALLOW_SYSTEM_RESOLVER" := "1"]> ∅)
                Example.no_network [] 0.

(** An export directory with one file that has the published hash and a
    link that leads nowhere: [glob] lists the link, [os.stat] fails on
    it. *)
Definition dangling_world : World :=
  let base :=
    Example.world ∅ Example.no_network
      [("/proof/exports/heartbeats_1.json", ((1704067300 # 1)%Q, Ok sha_a))] 0 in
  {| environ := environ base;
     subprocess_run := subprocess_run base;
     os_stat := os_stat base;
     read_text := read_text base;
     glob_glob := fun pat =>
       (glob_glob base pat
        ++ if String.eqb pat "/proof/exports/heartbeats_*.json"
           then ["/proof/exports/heartbeats_9.json"] else [])%list;
     file_sha256 := file_sha256 base;
     local_utcoffset := local_utcoffset base;
     fromisoformat_rest := fromisoformat_rest base |}.

(** The float nearest to [s] seconds and [us] microseconds has the
    integer part of the exact number: there are no microseconds and [s]
    is a float, or [s] is within [2 ^ 33] seconds of the epoch, where
    floats are closer to each other than a microsecond. *)
Definition float_exact (s us : Z) : Prop :=
  (us = 0 /\ Z.abs s < 2 ^ 53) \/ Z.abs s + 1 <= 2 ^ 33.

(** * Properties *)

(** ** The verdict *)

Lemma verdict_thresholds : WARN_SKEW_SECONDS = 600 /\ FAIL_SKEW_SECONDS = 3600.
Proof. split; reflexivity. Qed.

(** C1.  For every [hash_ok] and every integer [skew]: the verdict is
    FAIL exactly when the hash does not match, whatever the skew; it is
    OK exactly when the hash matches and [|skew| <= 600]; it is WARN
    exactly when the hash matches and [|skew| > 600], in the band up to
    3600 and beyond it alike, so a matching hash never gives FAIL. *)
Theorem verdict_from_hash_and_skew_matrix (hash_ok : bool) (skew : Z) :
  (verdict_from_hash_and_skew hash_ok skew = FAIL <-> hash_ok = false)
  /\ (verdict_from_hash_and_skew hash_ok skew = OK
      <-> hash_ok = true /\ Z.abs skew <= 600)
  /\ (verdict_from_hash_and_skew hash_ok skew = WARN
      <-> hash_ok = true /\ 600 < Z.abs skew)
  /\ (verdict_from_hash_and_skew true skew = WARN
      <-> (600 < Z.abs skew <= 3600 \/ 3600 < Z.abs skew)).
Proof.
  unfold verdict_from_hash_and_skew, WARN_SKEW_SECONDS, FAIL_SKEW_SECONDS.
  change (10 * 60) with 600. change (60 * 60) with 3600.
  destruct hash_ok; simpl;
    destruct (Z.leb_spec (Z.abs skew) 600);
    destruct (Z.leb_spec (Z.abs skew) 3600);
    repeat split; intros; try discriminate; try lia;
    repeat match goal with H : _ /\ _ |- _ => destruct H end;
    try discriminate; try lia.
Qed.

Example verdict_matrix_of_the_specification :
  verdict_from_hash_and_skew false 0 = FAIL
  /\ verdict_from_hash_and_skew true 0 = OK
  /\ verdict_from_hash_and_skew true 600 = OK
  /\ verdict_from_hash_and_skew true 601 = WARN
  /\ verdict_from_hash_and_skew true 3600 = WARN
  /\ verdict_from_hash_and_skew true 3601 = WARN
  /\ verdict_from_hash_and_skew true (-700) = WARN.
Proof. repeat split. Qed.

(** ** Trimming and quoted segments *)

Section Strings.

Import Py.

Lemma space_not_dquote c : is_space c = true -> Ascii.eqb c dquote = false.
Proof.
  destruct c as [[] [] [] [] [] [] [] []]; vm_compute; congruence.
Qed.

Lemma rstrip_by_cons p c r :
  rstrip_by p (String c r) =
  if (negb (nonempty (rstrip_by p r)) && p c)%bool then ""
  else String c (rstrip_by p r).
Proof.
  simpl. destruct (rstrip_by p r); simpl; [destruct (p c) |]; reflexivity.
Qed.

Lemma rstrip_by_empty_forall p s :
  rstrip_by p s = "" -> forallb_str p s = true.
Proof.
  induction s as [|c r IH]; [reflexivity |].
  rewrite rstrip_by_cons. simpl.
  destruct (rstrip_by p r); simpl; [| discriminate].
  destruct (p c); [auto | discriminate].
Qed.

Lemma forall_rstrip_by_empty p s :
  forallb_str p s = true -> rstrip_by p s = "".
Proof.
  induction s as [|c r IH]; [reflexivity |].
  simpl. intros [Hc Hr]%andb_prop. rewrite (IH Hr), Hc. reflexivity.
Qed.

Lemma forall_lstrip_by_empty p s :
  forallb_str p s = true -> lstrip_by p s = "".
Proof.
  induction s as [|c r IH]; [reflexivity |].
  simpl. intros [Hc Hr]%andb_prop. rewrite Hc. auto.
Qed.

(** The two one-sided trims commute. *)
Lemma rstrip_lstrip_comm p s :
  rstrip_by p (lstrip_by p s) = lstrip_by p (rstrip_by p s).
Proof.
  induction s as [|c r IH]; [reflexivity |].
  rewrite (rstrip_by_cons p c r). simpl (lstrip_by p (String c r)).
  destruct (p c) eqn:Hc.
  - rewrite IH, andb_true_r.
    destruct (rstrip_by p r) eqn:Hr; simpl; [reflexivity |].
    rewrite Hc. reflexivity.
  - rewrite andb_false_r, rstrip_by_cons, Hc, andb_false_r.
    simpl. rewrite Hc. reflexivity.
Qed.

Lemma strip_by_idempotent_empty p s : strip_by p s = "" -> forallb_str p s = true.
Proof.
  unfold strip_by. intros H%rstrip_by_empty_forall.
  induction s as [|c r IH]; [reflexivity |].
  simpl in *. destruct (p c) eqn:Hc; simpl; [auto |].
  simpl in H. rewrite Hc in H. discriminate.
Qed.

Lemma spaces_have_no_quote s :
  forallb_str is_space s = true -> contains_char dquote s = false.
Proof.
  induction s as [|c r IH]; [reflexivity |].
  simpl. intros [Hc Hr]%andb_prop.
  rewrite (space_not_dquote _ Hc), (IH Hr). reflexivity.
Qed.

Lemma findall_quoted_from_no_quote s st :
  contains_char dquote s = false -> Re.findall_quoted_from st s = [].
Proof.
  revert st. induction s as [|c r IH]; intros st; [reflexivity |].
  simpl. intros [Hc Hr]%orb_false_elim. rewrite Hc.
  destruct st; auto.
Qed.

(** Trimming leaves the quoted segments of a payload unchanged: a
    segment ends at a quote, and no quote is trimmed. *)
Lemma findall_quoted_lstrip s :
  Re.findall_quoted (lstrip_by is_space s) = Re.findall_quoted s.
Proof.
  unfold Re.findall_quoted.
  induction s as [|c r IH]; [reflexivity |].
  simpl. destruct (is_space c) eqn:Hc; [| reflexivity].
  rewrite (space_not_dquote _ Hc). exact IH.
Qed.

Lemma findall_quoted_rstrip s st :
  Re.findall_quoted_from st (rstrip_by is_space s) = Re.findall_quoted_from st s.
Proof.
  revert st. induction s as [|c r IH]; intros st; [reflexivity |].
  rewrite rstrip_by_cons.
  destruct (negb (nonempty (rstrip_by is_space r)) && is_space c)%bool eqn:E.
  - apply andb_prop in E as [E1 E2].
    assert (Hr : rstrip_by is_space r = "")
      by (destruct (rstrip_by is_space r); [reflexivity | discriminate]).
    symmetry. apply findall_quoted_from_no_quote.
    simpl. rewrite (space_not_dquote _ E2). simpl.
    apply spaces_have_no_quote, rstrip_by_empty_forall, Hr.
  - simpl. destruct st, (Ascii.eqb c dquote); rewrite ?IH; reflexivity.
Qed.

Lemma findall_quoted_strip s :
  Re.findall_quoted (strip s) = Re.findall_quoted s.
Proof.
  unfold strip, strip_by, Re.findall_quoted.
  rewrite findall_quoted_rstrip. apply findall_quoted_lstrip.
Qed.

Lemma replace_dquote_spaces s :
  forallb_str is_space s = true -> replace_char dquote "" s = s.
Proof.
  induction s as [|c r IH]; [reflexivity |].
  simpl. intros [Hc Hr]%andb_prop.
  rewrite (space_not_dquote _ Hc), (IH Hr). reflexivity.
Qed.

Lemma lstrip_replace_lstrip s :
  lstrip_by is_space (replace_char dquote "" (lstrip_by is_space s))
  = lstrip_by is_space (replace_char dquote "" s).
Proof.
  induction s as [|c r IH]; [reflexivity |].
  simpl. destruct (is_space c) eqn:Hc; [| reflexivity].
  rewrite (space_not_dquote _ Hc). simpl. rewrite Hc. exact IH.
Qed.

Lemma rstrip_replace_rstrip s :
  rstrip_by is_space (replace_char dquote "" (rstrip_by is_space s))
  = rstrip_by is_space (replace_char dquote "" s).
Proof.
  induction s as [|c r IH]; [reflexivity |].
  rewrite rstrip_by_cons.
  destruct (negb (nonempty (rstrip_by is_space r)) && is_space c)%bool eqn:E.
  - apply andb_prop in E as [E1 E2].
    assert (Hr : rstrip_by is_space r = "")
      by (destruct (rstrip_by is_space r); [reflexivity | discriminate]).
    simpl. rewrite (space_not_dquote _ E2), rstrip_by_cons.
    rewrite <- IH, Hr. simpl. rewrite E2. reflexivity.
  - cbn [replace_char append].
    destruct (Ascii.eqb c dquote); [exact IH |].
    rewrite !rstrip_by_cons, IH. reflexivity.
Qed.

Lemma strip_replace_strip s :
  strip (replace_char dquote "" (strip s)) = strip (replace_char dquote "" s).
Proof.
  unfold strip, strip_by.
  rewrite !rstrip_lstrip_comm.
  rewrite <- (rstrip_lstrip_comm is_space s).
  rewrite rstrip_replace_rstrip.
  rewrite <- !rstrip_lstrip_comm.
  rewrite lstrip_replace_lstrip. reflexivity.
Qed.

End Strings.

(** C8, as amended.  The normalisation of a raw TXT payload is the
    concatenation of all its double-quoted segments, in their order and
    with no separator, with surrounding whitespace trimmed from the
    concatenation; when the payload has no quoted segment it is the
    payload with every quote character removed and surrounding whitespace
    trimmed. *)
Theorem clean_dig_txt_normal_form (out : string) :
  _clean_dig_txt out =
  match Re.findall_quoted out with
  | [] => Py.strip (Py.replace_char Py.dquote "" out)
  | parts => Py.strip (Py.join "" parts)
  end.
Proof.
  unfold _clean_dig_txt.
  rewrite findall_quoted_strip, strip_replace_strip.
  destruct (Py.strip out) eqn:Hs; simpl; [| reflexivity].
  apply strip_by_idempotent_empty in Hs.
  unfold Re.findall_quoted.
  rewrite (findall_quoted_from_no_quote out None (spaces_have_no_quote _ Hs)).
  rewrite (replace_dquote_spaces _ Hs).
  unfold Py.strip, Py.strip_by.
  rewrite (forall_lstrip_by_empty _ _ Hs). reflexivity.
Qed.

(** C8 as stated fails: the one segment of this payload begins with a
    space, and the result is not the concatenation of the segments. *)
Lemma clean_dig_txt_not_plain_concatenation :
  let payload := Py.DQ ++ " a" ++ Py.DQ in
  Re.findall_quoted payload = [" a"]
  /\ spec_normalize_txt payload = " a"
  /\ _clean_dig_txt payload = "a"
  /\ _clean_dig_txt payload <> spec_normalize_txt payload.
Proof. repeat split. vm_compute. discriminate. Qed.

(** The split hash of the specification's example is reassembled. *)
Example clean_dig_txt_multi_segment :
  _clean_dig_txt
    (Py.DQ ++ "TS=2024-01-01T00:00:00Z;SHA" ++ Py.DQ ++ " " ++ Py.DQ
     ++ "256=0123456789abcdef0123456789abcdef0123456789abcdef0123456789abcdef;FILE=x.json"
     ++ Py.DQ)
  = "TS=2024-01-01T00:00:00Z;SHA256=0123456789abcdef0123456789abcdef0123456789abcdef0123456789abcdef;FILE=x.json".
Proof. reflexivity. Qed.

(** ** The fields of the TXT record *)

Section Fields.

Import Py.

Lemma append_assoc (a b c : string) : (a ++ b) ++ c = a ++ (b ++ c).
Proof. induction a; simpl; congruence. Qed.

Lemma append_empty_r (a : string) : a ++ "" = a.
Proof. induction a; simpl; congruence. Qed.

Lemma length_append (a b : string) :
  String.length (a ++ b) = (String.length a + String.length b)%nat.
Proof. induction a; simpl; congruence. Qed.

Lemma startswith_append p s : startswith p (p ++ s) = true.
Proof. induction p; simpl; [reflexivity |]. rewrite Ascii.eqb_refl. assumption. Qed.

Lemma startswith_split p s :
  startswith p s = true -> s = p ++ drop (String.length p) s.
Proof.
  revert s. induction p as [|a p IH]; intros [|b s]; simpl; try congruence.
  intros [Hab Hs]%andb_prop. apply Ascii.eqb_eq in Hab. subst b.
  f_equal. auto.
Qed.

Lemma drop_append p s : drop (String.length p) (p ++ s) = s.
Proof. induction p; simpl; auto. Qed.

Lemma take_append h s : take (String.length h) (h ++ s) = h.
Proof. induction h; simpl; [destruct s; reflexivity | congruence]. Qed.

Lemma string_take_drop n s : s = take n s ++ drop n s.
Proof.
  revert s. induction n as [|n IH]; intros [|c s]; simpl; try reflexivity.
  f_equal. apply IH.
Qed.

Lemma take_while_split p s :
  exists post,
    s = take_while p s ++ post
    /\ forallb_str p (take_while p s) = true
    /\ (post = "" \/ exists c r, post = String c r /\ p c = false).
Proof.
  induction s as [|c r (post & E & F & T)].
  - exists "". auto.
  - simpl. destruct (p c) eqn:Hc.
    + exists post. simpl. rewrite Hc, F. split; [congruence | auto].
    + exists (String c r). simpl. split; [reflexivity |]. split; [reflexivity |].
      right. eauto.
Qed.

Lemma search_field_some marker t v :
  Re.search_field marker t = Some v ->
  exists pre post,
    t = pre ++ marker ++ v ++ post
    /\ v <> ""
    /\ forallb_str Re.not_semicolon v = true
    /\ (post = "" \/ startswith ";" post = true).
Proof.
  induction t as [|a r IH]; [discriminate |].
  intros H. cbn [Re.search_field] in H.
  assert (Hrec : Re.search_field marker r = Some v ->
                 exists pre post,
                   String a r = pre ++ marker ++ v ++ post /\ v <> ""
                   /\ forallb_str Re.not_semicolon v = true
                   /\ (post = "" \/ startswith ";" post = true)).
  { intros (pre & post & E & R)%IH. exists (String a pre), post.
    split; [simpl; congruence | exact R]. }
  destruct (startswith marker (String a r)) eqn:Hp; [| auto].
  destruct (take_while Re.not_semicolon (drop (String.length marker) (String a r)))
    as [|c w] eqn:Hv; [auto |].
  injection H as <-.
  destruct (take_while_split Re.not_semicolon
              (drop (String.length marker) (String a r))) as (post & E & F & T).
  rewrite Hv in E, F.
  exists "", post.
  split; [| split; [discriminate | split; [exact F |]]].
  - rewrite <- E. apply (startswith_split marker), Hp.
  - destruct T as [-> | (c' & r' & -> & Hc')]; [auto | right].
    unfold Re.not_semicolon in Hc'. apply negb_false_iff, Ascii.eqb_eq in Hc'.
    subst c'. reflexivity.
Qed.

Lemma search_field_found marker t :
  has_field marker t -> Re.search_field marker t <> None.
Proof.
  intros (pre & c & post & -> & Hc).
  assert (Hhead : forall a r,
            String a r = marker ++ String c post ->
            Re.search_field marker (String a r) <> None).
  { intros a r E. cbn [Re.search_field].
    assert (H1 : startswith marker (String a r) = true)
      by (rewrite E; apply startswith_append).
    assert (H2 : drop (String.length marker) (String a r) = String c post)
      by (rewrite E; apply drop_append).
    rewrite H1, H2. simpl.
    unfold Re.not_semicolon.
    destruct (Ascii.eqb_spec c ";"); [contradiction | simpl; discriminate]. }
  induction pre as [|a pre IH].
  - simpl. destruct (marker ++ String c post) eqn:E.
    + destruct marker; discriminate.
    + apply Hhead. congruence.
  - cbn [append Re.search_field].
    destruct (startswith marker _); [| exact IH].
    destruct (take_while _ _); [exact IH | discriminate].
Qed.

Lemma search_field_none_iff marker t :
  Re.search_field marker t = None <-> ~ has_field marker t.
Proof.
  split.
  - intros H Hf. exact (search_field_found _ _ Hf H).
  - intros Hn. destruct (Re.search_field marker t) as [v|] eqn:E; [| reflexivity].
    exfalso. apply Hn.
    destruct (search_field_some _ _ _ E) as (pre & post & -> & Hv & F & _).
    destruct v as [|c v]; [congruence |].
    exists pre, c, (v ++ post). split; [reflexivity |].
    simpl in F. apply andb_prop in F as [F _].
    unfold Re.not_semicolon in F. apply negb_true_iff in F.
    intros ->. discriminate.
Qed.

Lemma hex64_after_some s v :
  Re.hex64_after "SHA256=" s = Some v ->
  String.length v = 64%nat /\ forallb_str Re.is_hex v = true
  /\ exists post, drop 7 s = v ++ post.
Proof.
  unfold Re.hex64_after. change (String.length "SHA256=") with 7%nat.
  destruct (String.length (take 64 (drop 7 s)) =? 64)%nat eqn:L; [| discriminate].
  destruct (forallb_str Re.is_hex (take 64 (drop 7 s))) eqn:F; [| discriminate].
  cbn [andb]. intros [= <-]. apply Nat.eqb_eq in L.
  repeat split; auto. exists (drop 64 (drop 7 s)). exact (string_take_drop 64 (drop 7 s)).
Qed.

Lemma search_sha256_some t h :
  Re.search_sha256 t = Some h ->
  exists pre post,
    t = pre ++ "SHA256=" ++ h ++ post
    /\ String.length h = 64%nat /\ forallb_str Re.is_hex h = true.
Proof.
  induction t as [|a r IH]; [discriminate |].
  intros H. cbn [Re.search_sha256] in H.
  assert (Hrec : Re.search_sha256 r = Some h ->
                 exists pre post,
                   String a r = pre ++ "SHA256=" ++ h ++ post
                   /\ String.length h = 64%nat /\ forallb_str Re.is_hex h = true).
  { intros (pre & post & E & R)%IH. exists (String a pre), post.
    split; [rewrite E; reflexivity | exact R]. }
  destruct (startswith "SHA256=" (String a r)) eqn:Hp; [| auto].
  destruct (Re.hex64_after "SHA256=" (String a r)) as [v|] eqn:Hv; [| auto].
  injection H as <-.
  destruct (hex64_after_some _ _ Hv) as (L & F & post & E).
  exists "", post. split; [| auto].
  rewrite <- E. apply (startswith_split "SHA256="), Hp.
Qed.

Lemma search_sha256_found t : has_sha256 t -> Re.search_sha256 t <> None.
Proof.
  intros (pre & h & post & -> & L & F).
  induction pre as [|a pre IH].
  - cbn. unfold Re.hex64_after. cbn [String.length drop append].
    rewrite <- L, take_append, Nat.eqb_refl, F. discriminate.
  - cbn [append Re.search_sha256].
    destruct (startswith "SHA256=" _); [| exact IH].
    destruct (Re.hex64_after _ _); [discriminate | exact IH].
Qed.

Lemma search_sha256_none_iff t :
  Re.search_sha256 t = None <-> ~ has_sha256 t.
Proof.
  split.
  - intros H Hf. exact (search_sha256_found _ Hf H).
  - intros Hn. destruct (Re.search_sha256 t) as [h|] eqn:E; [| reflexivity].
    exfalso. apply Hn.
    destruct (search_sha256_some _ _ E) as (pre & post & R). exists pre, h, post. exact R.
Qed.

Lemma lower_char_hex c : Re.is_hex c = true -> is_lower_hex (lower_char c) = true.
Proof.
  destruct c as [[] [] [] [] [] [] [] []]; vm_compute; congruence.
Qed.

Lemma lower_hex h :
  forallb_str Re.is_hex h = true ->
  forallb_str is_lower_hex (lower h) = true
  /\ String.length (lower h) = String.length h.
Proof.
  induction h as [|c h IH]; [auto |].
  simpl. intros [Hc Hh]%andb_prop. destruct (IH Hh) as [-> ->].
  rewrite (lower_char_hex _ Hc). auto.
Qed.

End Fields.

(** C5, as amended.  With [t] the text trimmed of whitespace and of
    leading and trailing quotes, [parse_dns_txt] raises the format error
    if and only if [t] has no [TS=] followed by a character other than
    the semicolon, or no [SHA256=] followed by 64 hexadecimal characters
    (more hexadecimal characters may follow them).  On success the hash
    returned is the 64 hexadecimal characters after such a [SHA256=],
    lower-cased, and the filename is absent exactly when [t] has no
    [FILE=] value: that absence is not an error. *)
Theorem parse_dns_txt_format (txt : string) :
  let t := Py.strip_char Py.dquote (Py.strip txt) in
  (parse_dns_txt txt = Raise (unrecognized t)
   <-> ~ has_field "TS=" t \/ ~ has_sha256 t)
  /\ ((exists p, parse_dns_txt txt = Ok p)
      <-> has_field "TS=" t /\ has_sha256 t)
  /\ (forall p, parse_dns_txt txt = Ok p ->
        (exists pre h post,
            t = pre ++ "SHA256=" ++ h ++ post
            /\ String.length h = 64%nat
            /\ Py.forallb_str Re.is_hex h = true
            /\ sha256 p = Py.lower h)
        /\ String.length (sha256 p) = 64%nat
        /\ Py.forallb_str is_lower_hex (sha256 p) = true
        /\ (filename p = None <-> ~ has_field "FILE=" t)).
Proof.
  intros t. unfold parse_dns_txt. fold t.
  pose proof (search_field_none_iff "TS=" t) as Hts.
  pose proof (search_sha256_none_iff t) as Hsha.
  pose proof (search_field_none_iff "FILE=" t) as Hfile.
  destruct (Re.search_field "TS=" t) as [ts|] eqn:Ets;
    destruct (Re.search_sha256 t) as [h|] eqn:Esha.
  - assert (Hf : has_field "TS=" t).
    { destruct (search_field_some _ _ _ Ets) as (pre & post & E & Hv & F & _).
      destruct ts as [|c v]; [congruence |].
      exists pre, c, (v ++ post). split; [exact E |].
      simpl in F. apply andb_prop in F as [F _].
      unfold Re.not_semicolon in F. apply negb_true_iff in F.
      intros ->. discriminate. }
    assert (Hs : has_sha256 t).
    { destruct (search_sha256_some _ _ Esha) as (pre & post & R).
      exists pre, h, post. exact R. }
    split; [| split].
    + split; [discriminate | intros [N | N]; contradiction].
    + split; [auto | eauto].
    + intros p [= <-]. cbn [sha256 filename].
      destruct (search_sha256_some _ _ Esha) as (pre & post & E & L & F).
      destruct (lower_hex _ F) as [Fl Ll].
      split; [exists pre, h, post; auto |].
      split; [congruence |]. split; [exact Fl | exact Hfile].
  - split; [| split].
    + split; [intros _; right; apply Hsha; reflexivity | reflexivity].
    + split; [intros [p Hp]; discriminate |].
      intros [_ Hs]. exfalso. apply Hsha in Hs; auto.
    + intros p Hp. discriminate.
  - split; [| split].
    + split; [intros _; left; apply Hts; reflexivity | reflexivity].
    + split; [intros [p Hp]; discriminate |].
      intros [Hf _]. exfalso. apply Hts in Hf; auto.
    + intros p Hp. discriminate.
  - split; [| split].
    + split; [intros _; left; apply Hts; reflexivity | reflexivity].
    + split; [intros [p Hp]; discriminate |].
      intros [Hf _]. exfalso. apply Hts in Hf; auto.
    + intros p Hp. discriminate.
Qed.

(** A record without [FILE=] and with an upper-case tail in its hash. *)
Lemma parse_dns_txt_format_witness :
  exists p,
    parse_dns_txt ("TS=2024-01-01T00:00:00Z;SHA256=" ++ hex64_example) = Ok p
    /\ sha256 p = Py.lower hex64_example
    /\ filename p = None.
Proof.
  destruct (parse_dns_txt_format ("TS=2024-01-01T00:00:00Z;SHA256=" ++ hex64_example))
    as (_ & Hok & _).
  destruct (proj2 Hok) as [p Hp].
  - split.
    + exists "", "2"%char, ("024-01-01T00:00:00Z;SHA256=" ++ hex64_example).
      split; [reflexivity | discriminate].
    + exists "TS=2024-01-01T00:00:00Z;", hex64_example, "".
      repeat split.
  - exists p. split; [exact Hp |].
    vm_compute in Hp. injection Hp as <-. split; reflexivity.
Defined.

(** C5 as stated fails: 65 hexadecimal characters follow [SHA256=], so
    the text has no hash token of exactly 64, and parsing succeeds with
    the first 64 of them. *)
Lemma parse_dns_txt_accepts_longer_hash_run :
  let h65 := "aaaaaaaaaaaaaaaaaaaaaaaaaaaaaaaaaaaaaaaaaaaaaaaaaaaaaaaaaaaaaaaaa" in
  let txt := "TS=2024-01-01T00:00:00Z;SHA256=" ++ h65 ++ ";FILE=x.json" in
  String.length h65 = 65%nat
  /\ spec_hash_token_ok txt = false
  /\ parse_dns_txt txt
     = Ok {| ts_iso := "2024-01-01T00:00:00Z";
             sha256 := Py.take 64 h65;
             filename := Some "x.json" |}.
Proof. repeat split. Qed.

(** A payload without [SHA256=] is rejected whatever its [TS=] field. *)
Example parse_dns_txt_missing_hash :
  parse_dns_txt "TS=2024-01-01T00:00:00Z;FILE=x.json"
  = Raise (unrecognized "TS=2024-01-01T00:00:00Z;FILE=x.json").
Proof. reflexivity. Qed.

(** ** Reasoning about computations *)

Section Monad.

Context {A B : Type}.

Lemma value_of_bind (m : M A) (k : A -> M B) :
  value_of (bind m k) =
  match value_of m with
  | Ok a => value_of (k a)
  | Raise e => Raise e
  end.
Proof.
  destruct m as [[a|e] t]; simpl; [| reflexivity].
  destruct (k a); reflexivity.
Qed.

Lemma trace_of_bind (m : M A) (k : A -> M B) :
  trace_of (bind m k) =
  match value_of m with
  | Ok a => (trace_of m ++ trace_of (k a))%list
  | Raise _ => trace_of m
  end.
Proof.
  destruct m as [[a|e] t]; simpl; [| reflexivity].
  destruct (k a); reflexivity.
Qed.

Lemma bind_ok (m : M A) (k : A -> M B) (a : A) (t : list event) :
  m = (Ok a, t) ->
  bind m k = (value_of (k a), (t ++ trace_of (k a))%list).
Proof. intros ->. simpl. destruct (k a); reflexivity. Qed.

Lemma bind_raise (m : M A) (k : A -> M B) (e : exn) (t : list event) :
  m = (Raise e, t) -> bind m k = (Raise e, t).
Proof. intros ->. reflexivity. Qed.

End Monad.

Lemma bind_ret_l {A B} (a : A) (k : A -> M B) : bind (ret a) k = k a.
Proof. unfold bind, ret. destruct (k a); reflexivity. Qed.

Lemma in_app_or_cons {T} (x y : T) (l : list T) :
  In x ([y] ++ l)%list -> y = x \/ In x l.
Proof. simpl. auto. Qed.

Lemma M_eta {A} (m : M A) : m = (value_of m, trace_of m).
Proof. destruct m; reflexivity. Qed.

Lemma trace_of_run w cmd : trace_of (run w cmd) = [EvRun cmd].
Proof.
  unfold run, perform. rewrite trace_of_bind. simpl.
  destruct (subprocess_run w (environ w) cmd) as [p|e]; [| reflexivity].
  destruct (returncode p =? 0); reflexivity.
Qed.

Lemma attempt_run w cmd :
  attempt (run w cmd) = (Ok (value_of (run w cmd)), [EvRun cmd]).
Proof. unfold attempt. rewrite <- (trace_of_run w cmd). reflexivity. Qed.

(** ** The nameserver loop *)

Section Fetch.

Variable w : World.
Variable name : string.

Lemma authoritative_loop_all_failed ns_list :
  forall acc,
    (forall ns, In ns ns_list -> query_failed w name ns) ->
    authoritative_loop w name ns_list acc
    = (Ok (inr (last_error w name ns_list acc)), txt_events name ns_list).
Proof.
  induction ns_list as [|ns rest IH]; intros acc Hall; [reflexivity |].
  cbn [authoritative_loop last_error txt_events map].
  rewrite (bind_ok _ _ _ _ (attempt_run w _)).
  assert (Hns : query_failed w name ns) by (apply Hall; left; reflexivity).
  assert (Hrest : forall n, In n rest -> query_failed w name n)
    by (intros n Hn; apply Hall; right; exact Hn).
  unfold query_failed in Hns. unfold query_error.
  destruct (value_of (run w (txt_query (Some ns) name))) as [out|e].
  - rewrite Hns. cbn [Py.nonempty]. rewrite (IH acc Hrest). reflexivity.
  - rewrite (IH (Some e) Hrest). reflexivity.
Qed.

(** Whatever the answers, the loop issues only TXT queries directed at
    nameservers of its list. *)
Lemma authoritative_loop_trace ns_list :
  forall acc ev,
    In ev (trace_of (authoritative_loop w name ns_list acc)) ->
    exists ns, In ns ns_list /\ ev = EvRun (txt_query (Some ns) name).
Proof.
  induction ns_list as [|ns rest IH]; intros acc ev; [intros [] |].
  cbn [authoritative_loop].
  rewrite (bind_ok _ _ _ _ (attempt_run w _)). cbn [trace_of snd].
  intros [<- | Hin]%in_app_or_cons.
  - exists ns. split; [left |]; reflexivity.
  - assert (exists acc', In ev (trace_of (authoritative_loop w name rest acc')))
      as [acc' Hacc'].
    { destruct (value_of (run w (txt_query (Some ns) name))) as [out|e].
      - destruct (Py.nonempty (_clean_dig_txt out)); [destruct Hin | eauto].
      - eauto. }
    destruct (IH _ _ Hacc') as (n & Hn & ->).
    exists n. split; [right; exact Hn | reflexivity].
Qed.

End Fetch.

Lemma trace_of_get_authoritative_ns w zone :
  trace_of (_get_authoritative_ns w zone) = [EvRun (ns_query zone)].
Proof.
  unfold _get_authoritative_ns. rewrite trace_of_bind, trace_of_run.
  destruct (value_of (run w (ns_query zone))); reflexivity.
Qed.

Lemma txt_query_is_not_fallback name name' ns :
  txt_query (Some ns) name <> txt_query None name'.
Proof. unfold txt_query. cbn [append]. intros H. discriminate H. Qed.

Lemma EvRun_inj a b : EvRun a = EvRun b -> a = b.
Proof. congruence. Qed.

Lemma ns_query_is_not_txt_query zone ns name :
  ns_query zone <> txt_query ns name.
Proof. destruct ns; unfold ns_query, txt_query; cbn [append]; intros H; discriminate H. Qed.

(** Without override and without fallback, the commands of a fetch are
    the NS lookup and TXT queries directed at nameservers. *)
Lemma dig_txt_authoritative_commands w name zone ev :
  Py.strip (getenv w "POA_DNS_NS_OVERRIDE" "") = "" ->
  getenv w "POA_DNS_ALLOW_SYSTEM_RESOLVER" "0" <> "1" ->
  In ev (trace_of (dig_txt_authoritative w name zone)) ->
  ev = EvRun (ns_query zone)
  \/ exists ns, ev = EvRun (txt_query (Some ns) name).
Proof.
  intros Hover Hflag. unfold dig_txt_authoritative, nameserver_list.
  rewrite Hover. cbn [Py.nonempty].
  rewrite trace_of_bind, trace_of_get_authoritative_ns.
  destruct (value_of (_get_authoritative_ns w zone)) as [ns_list|e].
  2: { intros [<- | []]. left. reflexivity. }
  intros [<- | H]%in_app_or_cons; [left; reflexivity | right].
  rewrite trace_of_bind in H.
  assert (Hloop : In ev (trace_of (authoritative_loop w name ns_list None)) ->
                  exists ns, ev = EvRun (txt_query (Some ns) name)).
  { intros (ns & _ & ->)%authoritative_loop_trace. eauto. }
  destruct (value_of (authoritative_loop w name ns_list None))
    as [[found | last]|e]; [rewrite app_nil_r in H; auto | | auto].
  apply in_app_or in H as [H | H]; [auto |].
  destruct (String.eqb_spec (getenv w "POA_DNS_ALLOW_SYSTEM_RESOLVER" "0") "1")
    as [Heq | _]; [contradiction |].
  cbn in H. destruct H.
Qed.

(** C2.  With no nameserver override set and the system-resolver
    fallback not enabled, no TXT query is ever left to the system
    default resolver: whatever the nameservers answer, the fetch issues
    the NS lookup of the zone and TXT queries that each carry the
    [@server] of a nameserver, and nothing else.  When the nameservers
    of the zone are [ns_list] and the query at every one of them raises
    or yields an empty payload, the fetch fails, after exactly one TXT
    query per nameserver, with the error whose message carries the
    queried name, the zone and the last per-nameserver error. *)
Theorem dig_txt_authoritative_only (w : World) (name zone : string) :
  Py.strip (getenv w "POA_DNS_NS_OVERRIDE" "") = "" ->
  getenv w "POA_DNS_ALLOW_SYSTEM_RESOLVER" "0" <> "1" ->
  (forall any,
      ~ In (EvRun (txt_query None any))
           (trace_of (dig_txt_authoritative w name zone)))
  /\ (forall ev,
        In ev (trace_of (dig_txt_authoritative w name zone)) ->
        ev = EvRun (ns_query zone)
        \/ exists ns, ev = EvRun (txt_query (Some ns) name))
  /\ (forall ns_list,
        value_of (_get_authoritative_ns w zone) = Ok ns_list ->
        (forall ns, In ns ns_list -> query_failed w name ns) ->
        value_of (dig_txt_authoritative w name zone)
          = Raise (RuntimeError
                     ("No TXT returned for " ++ name
                      ++ " via authoritative NS (zone=" ++ zone
                      ++ "). last_err="
                      ++ opt_exn_str (last_error w name ns_list None)))
        /\ trace_of (dig_txt_authoritative w name zone)
           = EvRun (ns_query zone) :: txt_events name ns_list).
Proof.
  intros Hover Hflag.
  pose proof (fun ev => dig_txt_authoritative_commands w name zone ev Hover Hflag)
    as Hcmd.
  split; [| split; [exact Hcmd |]].
  - intros any [H | (ns & H)]%Hcmd; apply EvRun_inj in H.
    + symmetry in H. exact (ns_query_is_not_txt_query _ _ _ H).
    + symmetry in H. exact (txt_query_is_not_fallback _ _ _ H).
  - intros ns_list Hns Hall.
    assert (E : dig_txt_authoritative w name zone
                = (Raise (RuntimeError
                            (no_txt_message name zone (last_error w name ns_list None))),
                   EvRun (ns_query zone) :: txt_events name ns_list)).
    { unfold dig_txt_authoritative, nameserver_list. rewrite Hover. cbn [Py.nonempty].
      rewrite (bind_ok _ _ ns_list [EvRun (ns_query zone)]).
      2: { rewrite (M_eta (_get_authoritative_ns w zone)).
           rewrite Hns, trace_of_get_authoritative_ns. reflexivity. }
      rewrite (bind_ok _ _ _ _ (authoritative_loop_all_failed w name ns_list None Hall)).
      destruct (String.eqb_spec (getenv w "POA_DNS_ALLOW_SYSTEM_RESOLVER" "0") "1")
        as [Heq | _]; [contradiction |].
      cbn. rewrite app_nil_r. reflexivity. }
    rewrite E. split; reflexivity.
Qed.

Lemma dig_txt_authoritative_only_witness :
  value_of (dig_txt_authoritative silent_world "_poa.uptimeproof.io" "uptimeproof.io")
  = Raise (RuntimeError
             ("No TXT returned for _poa.uptimeproof.io via authoritative NS "
              ++ "(zone=uptimeproof.io). last_err=Command failed: "
              ++ "dig @ns1.example.net +short TXT _poa.uptimeproof.io +time=2 +tries=1"
              ++ NL ++ ";; connection timed out; no servers could be reached"))
  /\ trace_of (dig_txt_authoritative silent_world "_poa.uptimeproof.io" "uptimeproof.io")
     = [EvRun ["dig"; "+short"; "NS"; "uptimeproof.io"];
        EvRun (txt_query (Some "ns1.example.net") "_poa.uptimeproof.io");
        EvRun (txt_query (Some "ns2.example.net") "_poa.uptimeproof.io")]
  /\ ~ In (EvRun (txt_query None "_poa.uptimeproof.io"))
          (trace_of (dig_txt_authoritative silent_world
                       "_poa.uptimeproof.io" "uptimeproof.io")).
Proof.
  destruct (dig_txt_authoritative_only silent_world
              "_poa.uptimeproof.io" "uptimeproof.io") as (Hn & _ & Hv).
  - reflexivity.
  - vm_compute. discriminate.
  - destruct (Hv ["ns1.example.net"; "ns2.example.net"]) as [Hval Htr].
    + reflexivity.
    + intros ns [<- | [<- | []]]; vm_compute; auto.
    + split; [rewrite Hval; reflexivity |].
      split; [rewrite Htr; reflexivity | exact (Hn _)].
Defined.

(** C9, as amended.  When [POA_DNS_NS_OVERRIDE] is set and not blank,
    the nameserver list is made of the comma-separated entries of its
    trimmed value, each trimmed of surrounding whitespace and of trailing
    dots, blank entries dropped, in their order; obtaining it issues no
    command at all, and the whole fetch issues no NS query for any
    zone. *)
Theorem nameserver_override_skips_ns_lookup (w : World) (zone value : string) :
  environ w !! "POA_DNS_NS_OVERRIDE" = Some value ->
  Py.strip value <> "" ->
  nameserver_list w zone
    = (Ok (ns_entries (Py.split_char "," (Py.strip value))), [])
  /\ forall name z,
       ~ In (EvRun (ns_query z)) (trace_of (dig_txt_authoritative w name zone)).
Proof.
  intros Hset Hblank.
  assert (E : nameserver_list w zone
              = (Ok (ns_entries (Py.split_char "," (Py.strip value))), [])).
  { unfold nameserver_list, getenv. rewrite Hset.
    destruct (Py.strip value); [contradiction | reflexivity]. }
  split; [exact E |].
  intros name z. unfold dig_txt_authoritative.
  rewrite (bind_ok _ _ _ _ E). cbn [trace_of snd app].
  rewrite trace_of_bind.
  set (ns_list := ns_entries _).
  assert (Hloop : ~ In (EvRun (ns_query z))
                       (trace_of (authoritative_loop w name ns_list None))).
  { intros (ns & _ & H)%authoritative_loop_trace.
    apply EvRun_inj in H. exact (ns_query_is_not_txt_query _ _ _ H). }
  destruct (value_of (authoritative_loop w name ns_list None)) as [[found | last]|e];
    [rewrite app_nil_r; exact Hloop | | exact Hloop].
  intros [H | H]%in_app_or; [exact (Hloop H) |].
  destruct (String.eqb (getenv w "POA_DNS_ALLOW_SYSTEM_RESOLVER" "0") "1").
  - assert (In (EvRun (ns_query z)) [EvRun (txt_query None name)]) as [H' | []].
    { pose proof (trace_of_run w (txt_query None name)) as T.
      destruct (run w (txt_query None name)) as [[out|e] t];
        cbn [trace_of snd] in T; subst t;
        cbn [bind ret raise trace_of snd app] in H; [| exact H].
      destruct (Py.nonempty (_clean_dig_txt out));
        cbn [bind ret raise trace_of snd app] in H; exact H. }
    apply EvRun_inj in H'. symmetry in H'.
    exact (ns_query_is_not_txt_query _ _ _ H').
  - destruct H.
Qed.

Lemma nameserver_override_skips_ns_lookup_witness :
  nameserver_list override_world "uptimeproof.io"
  = (Ok ["ns1.example.net"; "ns2.example.net"], []).
Proof.
  destruct (nameserver_override_skips_ns_lookup override_world "uptimeproof.io"
              "ns1.example.net., ns2.example.net") as [E _].
  - reflexivity.
  - discriminate.
  - rewrite E. reflexivity.
Defined.

(** C9 as stated fails: the list used is not the configured one
    verbatim, the trailing dot and the space are gone. *)
Lemma nameserver_override_not_verbatim :
  environ override_world !! "POA_DNS_NS_OVERRIDE"
  = Some "ns1.example.net., ns2.example.net"
  /\ spec_override_list "ns1.example.net., ns2.example.net"
     = ["ns1.example.net."; " ns2.example.net"]
  /\ value_of (nameserver_list override_world "uptimeproof.io")
     = Ok ["ns1.example.net"; "ns2.example.net"]
  /\ value_of (nameserver_list override_world "uptimeproof.io")
     <> Ok (spec_override_list "ns1.example.net., ns2.example.net").
Proof. repeat split. vm_compute. discriminate. Qed.

(** ** The local matcher *)

Section Matcher.

Variable w : World.

Lemma hash_scan_value sha files :
  value_of (hash_scan w sha files)
  = Ok (scan_outcome (List.find (matches w sha) files)).
Proof.
  induction files as [|f rest IH]; [reflexivity |].
  cbn [hash_scan List.find]. unfold attempt, sha256_file, perform, matches.
  cbn [bind fst snd].
  destruct (file_sha256 w f) as [h|e].
  - destruct (String.eqb (Py.lower h) sha); [reflexivity |].
    destruct (hash_scan w sha rest); exact IH.
  - destruct (hash_scan w sha rest); exact IH.
Qed.

Lemma hash_scan_trace sha files ev :
  In ev (trace_of (hash_scan w sha files)) ->
  exists f, In f files /\ ev = EvSha256 f.
Proof.
  induction files as [|f rest IH]; [intros [] |].
  cbn [hash_scan]. unfold attempt, sha256_file, perform.
  cbn [bind fst snd].
  assert (Hrest : In ev (trace_of (hash_scan w sha rest)) ->
                  exists f0, In f0 (f :: rest) /\ ev = EvSha256 f0).
  { intros (f0 & Hf0 & ->)%IH. exists f0. split; [right; exact Hf0 | reflexivity]. }
  assert (Hhead : EvSha256 f = ev -> exists f0, In f0 (f :: rest) /\ ev = EvSha256 f0).
  { intros <-. exists f. split; [left |]; reflexivity. }
  destruct (file_sha256 w f) as [h|e].
  - destruct (String.eqb (Py.lower h) sha).
    + cbn. intros [H | []]. auto.
    + destruct (hash_scan w sha rest) as [r t]. cbn in *. intros [H | H]; auto.
  - destruct (hash_scan w sha rest) as [r t]. cbn in *. intros [H | H]; auto.
Qed.

(** The scan hashes the files in order, each at most once, and stops
    at the first that matches. *)
Lemma hash_scan_hashed sha files :
  exists k, trace_of (hash_scan w sha files) = map EvSha256 (take k files).
Proof.
  induction files as [|f rest [k IH]]; [exists 0%nat; reflexivity |].
  cbn [hash_scan]. unfold attempt, sha256_file, perform.
  cbn [bind fst snd].
  destruct (file_sha256 w f) as [h|e].
  - destruct (String.eqb (Py.lower h) sha).
    + exists 1%nat. reflexivity.
    + exists (S k). destruct (hash_scan w sha rest) as [r t].
      cbn in *. rewrite IH. reflexivity.
  - exists (S k). destruct (hash_scan w sha rest) as [r t].
    cbn in *. rewrite IH. reflexivity.
Qed.

Lemma getmtime_mtime f t : getmtime w f = Ok t -> getmtime w f = Ok (mtime w f).
Proof. intros H. unfold mtime. rewrite H. reflexivity. Qed.

Lemma read_keys_ok files :
  (forall f, In f files -> getmtime w f = Ok (mtime w f)) ->
  read_keys w files = (Ok tt, map EvGetmtime files).
Proof.
  induction files as [|f rest IH]; [reflexivity |].
  intros H. cbn [read_keys]. unfold perform.
  rewrite (H f (or_introl eq_refl)). cbn [bind].
  rewrite IH by (intros g Hg; apply H; right; exact Hg). reflexivity.
Qed.

Lemma read_keys_raise pre f post e :
  (forall g, In g pre -> getmtime w g = Ok (mtime w g)) ->
  getmtime w f = Raise e ->
  read_keys w (pre ++ f :: post) = (Raise e, map EvGetmtime (pre ++ [f])).
Proof.
  intros Hpre Hf. induction pre as [|g pre IH]; cbn [app read_keys map]; unfold perform.
  - rewrite Hf. reflexivity.
  - rewrite (Hpre g (or_introl eq_refl)). cbn [bind].
    rewrite IH by (intros x Hx; apply Hpre; right; exact Hx). reflexivity.
Qed.

(** Either every key can be read, or there is a first one that
    cannot. *)
Lemma read_keys_cases files :
  (forall f, In f files -> getmtime w f = Ok (mtime w f))
  \/ exists pre f post e,
       files = (pre ++ f :: post)%list
       /\ (forall g, In g pre -> getmtime w g = Ok (mtime w g))
       /\ getmtime w f = Raise e.
Proof.
  induction files as [|f rest IH]; [left; intros f [] |].
  destruct (getmtime w f) as [t|e] eqn:Ef.
  - destruct IH as [Hall | (pre & g & post & e & -> & Hpre & Hg)].
    + left. intros x [<- | Hx]; [exact (getmtime_mtime _ _ Ef) | exact (Hall x Hx)].
    + right. exists (f :: pre), g, post, e.
      split; [reflexivity | split; [| exact Hg]].
      intros x [<- | Hx]; [exact (getmtime_mtime _ _ Ef) | exact (Hpre x Hx)].
  - right. exists [], f, rest, e.
    split; [reflexivity | split; [intros g [] | exact Ef]].
Qed.

Lemma newest_files_value export_dir n :
  sortable w export_dir ->
  newest_files w export_dir n
  = (Ok (take n (sort_desc (mtime w) (candidates w export_dir))),
     EvGlob (candidates_pattern export_dir)
     :: map EvGetmtime (candidates w export_dir)).
Proof.
  intros Hs. unfold newest_files, perform. fold (candidates w export_dir).
  cbn [bind]. rewrite (read_keys_ok _ Hs). cbn. rewrite app_nil_r. reflexivity.
Qed.

Lemma newest_files_raise export_dir n pre f post e :
  candidates w export_dir = (pre ++ f :: post)%list ->
  (forall g, In g pre -> getmtime w g = Ok (mtime w g)) ->
  getmtime w f = Raise e ->
  newest_files w export_dir n
  = (Raise e,
     EvGlob (candidates_pattern export_dir) :: map EvGetmtime (pre ++ [f])).
Proof.
  intros Hc Hpre Hf. unfold newest_files, perform. fold (candidates w export_dir).
  cbn [bind]. rewrite Hc, (read_keys_raise _ _ _ _ Hpre Hf). reflexivity.
Qed.

Lemma hashed_map_sha l : hashed (map EvSha256 l) = l.
Proof. induction l as [|x l IH]; cbn; congruence. Qed.

Lemma hashed_map_getmtime l t : hashed (map EvGetmtime l ++ t)%list = hashed t.
Proof. induction l as [|x l IH]; cbn; congruence. Qed.

Lemma hash_scan_tier export_dir sha :
  sortable w export_dir ->
  value_of (second_tier w export_dir sha)
  = Ok (scan_outcome (List.find (matches w sha) (window w export_dir)))
  /\ (forall f,
        In (EvSha256 f) (trace_of (second_tier w export_dir sha)) ->
        In f (window w export_dir))
  /\ exists k,
       hashed (trace_of (second_tier w export_dir sha))
       = take k (window w export_dir).
Proof.
  intros Hs. unfold second_tier.
  rewrite (bind_ok _ _ _ _ (newest_files_value export_dir LOOKBACK_FILES Hs)).
  fold (window w export_dir). cbn [value_of trace_of fst snd].
  split; [apply hash_scan_value | split].
  - intros f [H | H]; [discriminate H |].
    apply in_app_or in H as [H | H].
    + apply in_map_iff in H as (x & H & _). discriminate H.
    + apply hash_scan_trace in H as (f0 & Hf0 & H). congruence.
  - destruct (hash_scan_hashed sha (window w export_dir)) as [k Hk].
    exists k. rewrite Hk. cbn [hashed app].
    rewrite hashed_map_getmtime. apply hashed_map_sha.
Qed.

Lemma second_tier_raise export_dir sha pre f post e :
  candidates w export_dir = (pre ++ f :: post)%list ->
  (forall g, In g pre -> getmtime w g = Ok (mtime w g)) ->
  getmtime w f = Raise e ->
  second_tier w export_dir sha
  = (Raise e,
     EvGlob (candidates_pattern export_dir) :: map EvGetmtime (pre ++ [f])).
Proof.
  intros Hc Hpre Hf. unfold second_tier.
  rewrite (newest_files_raise export_dir LOOKBACK_FILES _ _ _ _ Hc Hpre Hf).
  reflexivity.
Qed.

End Matcher.

(** A directory is sortable when the check of every candidate
    evaluates to true. *)
Lemma sortable_check w export_dir :
  forallb (fun f => match getmtime w f with Ok _ => true | Raise _ => false end)
          (candidates w export_dir) = true ->
  sortable w export_dir.
Proof.
  intros H f Hf. rewrite forallb_forall in H. specialize (H f Hf).
  destruct (getmtime w f) as [t|e] eqn:E; [| discriminate H].
  rewrite <- E. exact (getmtime_mtime _ _ _ E).
Qed.

(** When the first tier finds nothing, [find_local_match] is the
    existence test of the hint, if there is one, followed by the second
    tier. *)
Lemma find_local_match_miss w export_dir proof :
  hint_misses w export_dir proof ->
  value_of (find_local_match w export_dir proof)
  = value_of (second_tier w export_dir (sha256 proof))
  /\ trace_of (find_local_match w export_dir proof)
     = (match filename proof with
        | Some name =>
            if Py.nonempty name then [EvExists (path_join export_dir name)] else []
        | None => []
        end ++ trace_of (second_tier w export_dir (sha256 proof)))%list.
Proof.
  intros Hmiss. unfold find_local_match, hint_misses in *.
  fold (second_tier w export_dir (sha256 proof)).
  destruct (filename proof) as [name|].
  - destruct name as [|c name]; cbn [Py.nonempty].
    + rewrite bind_ret_l. split; reflexivity.
    + unfold perform. rewrite (Hmiss _ eq_refl) by discriminate.
      cbn [bind ret app].
      destruct (second_tier w export_dir (sha256 proof)) as [r t].
      split; reflexivity.
  - rewrite bind_ret_l. split; reflexivity.
Qed.

Lemma hashed_In f t : In f (hashed t) <-> In (EvSha256 f) t.
Proof.
  induction t as [|ev t IH]; [reflexivity |].
  destruct ev; cbn [hashed In]; rewrite ?IH;
    try (split; [intros H; right; exact H | intros [H | H]; [discriminate H | exact H]]).
  split; (intros [H | H]; [left; congruence | right; exact H]).
Qed.

Lemma find_local_match_second_tier w export_dir proof :
  hint_misses w export_dir proof ->
  sortable w export_dir ->
  value_of (find_local_match w export_dir proof)
  = Ok (scan_outcome (List.find (matches w (sha256 proof)) (window w export_dir)))
  /\ (forall f,
        In (EvSha256 f) (trace_of (find_local_match w export_dir proof)) ->
        In f (window w export_dir))
  /\ exists k,
       hashed (trace_of (find_local_match w export_dir proof))
       = take k (window w export_dir).
Proof.
  intros Hmiss Hs.
  destruct (hash_scan_tier w export_dir (sha256 proof) Hs) as (Hv & Ht & k & Hk).
  destruct (find_local_match_miss w export_dir proof Hmiss) as [Ev Et].
  assert (Hh : hashed (trace_of (find_local_match w export_dir proof))
               = take k (window w export_dir)).
  { rewrite Et, <- Hk.
    destruct (filename proof) as [name|]; [| reflexivity].
    destruct (Py.nonempty name); reflexivity. }
  split; [rewrite Ev; exact Hv | split; [| exists k; exact Hh]].
  intros f Hf%hashed_In. rewrite Hh in Hf.
  apply Ht, hashed_In. rewrite Hk. exact Hf.
Qed.

(** The sort fails on the first candidate whose modification time
    cannot be read, before any file is hashed. *)
Lemma find_local_match_unsortable w export_dir proof pre f post e :
  hint_misses w export_dir proof ->
  candidates w export_dir = (pre ++ f :: post)%list ->
  (forall g, In g pre -> getmtime w g = Ok (mtime w g)) ->
  getmtime w f = Raise e ->
  value_of (find_local_match w export_dir proof) = Raise e
  /\ hashed (trace_of (find_local_match w export_dir proof)) = [].
Proof.
  intros Hmiss Hc Hpre Hf.
  destruct (find_local_match_miss w export_dir proof Hmiss) as [Ev Et].
  rewrite Ev, Et, (second_tier_raise w export_dir _ _ _ _ _ Hc Hpre Hf).
  split; [reflexivity |]. cbn [trace_of snd].
  assert (H : hashed (EvGlob (candidates_pattern export_dir)
                      :: map EvGetmtime (pre ++ [f])) = []).
  { cbn [hashed]. rewrite <- (app_nil_r (map EvGetmtime (pre ++ [f]))).
    apply hashed_map_getmtime. }
  destruct (filename proof) as [name|]; [| exact H].
  destruct (Py.nonempty name); exact H.
Qed.

(** C6.  When the proof carries a filename hint and the file it names
    exists under the export directory, [find_local_match] returns that
    file tagged [matched_by_filename]; the only thing it does is the
    existence test: no file is hashed and the candidates are not even
    listed, whatever the other files of the directory hash to. *)
Theorem find_local_match_filename_first (w : World) (export_dir : string)
    (proof : DnsProof) (name : string) :
  filename proof = Some name ->
  name <> "" ->
  path_exists w (path_join export_dir name) = true ->
  find_local_match w export_dir proof
    = (Ok (Some (path_join export_dir name), Some "matched_by_filename"),
       [EvExists (path_join export_dir name)])
  /\ (forall f, ~ In (EvSha256 f) (trace_of (find_local_match w export_dir proof)))
  /\ (forall pat, ~ In (EvGlob pat) (trace_of (find_local_match w export_dir proof))).
Proof.
  intros Hname Hne Hex.
  assert (E : find_local_match w export_dir proof
              = (Ok (Some (path_join export_dir name), Some "matched_by_filename"),
                 [EvExists (path_join export_dir name)])).
  { unfold find_local_match. rewrite Hname.
    destruct name as [|c name]; [contradiction |].
    cbn [Py.nonempty]. unfold perform. rewrite Hex. reflexivity. }
  rewrite E. cbn [trace_of snd].
  split; [reflexivity |].
  split; intros x [H | []]; discriminate H.
Qed.

Lemma find_local_match_filename_first_witness :
  matches two_files_world sha_a "/proof/exports/heartbeats_2.json" = true
  /\ find_local_match two_files_world "/proof/exports"
       {| ts_iso := "2024-01-01T00:00:00Z"; sha256 := sha_a;
          filename := Some "heartbeats_1.json" |}
     = (Ok (Some "/proof/exports/heartbeats_1.json", Some "matched_by_filename"),
        [EvExists "/proof/exports/heartbeats_1.json"]).
Proof.
  split; [reflexivity |].
  apply (find_local_match_filename_first two_files_world "/proof/exports"
           {| ts_iso := "2024-01-01T00:00:00Z"; sha256 := sha_a;
              filename := Some "heartbeats_1.json" |} "heartbeats_1.json");
    [reflexivity | discriminate | reflexivity].
Defined.

(** C10, as amended.  When the proof carries a filename hint that
    names no existing file under the export directory, the missing file
    is no error and no verdict: after the one existence test
    [find_local_match] goes on with the bounded hash scan and does
    exactly what it does for the proof without the hint.  When the
    modification time of every candidate can be read, it returns the
    result of the scan, a file tagged [matched_by_hash_scan] as soon as
    a file of the window has the published hash; when it cannot, the
    sort of the candidates raises and so does [find_local_match]. *)
Theorem find_local_match_falls_through (w : World) (export_dir : string)
    (proof : DnsProof) (name : string) :
  filename proof = Some name ->
  path_exists w (path_join export_dir name) = false ->
  let unhinted :=
    {| ts_iso := ts_iso proof; sha256 := sha256 proof; filename := None |} in
  value_of (find_local_match w export_dir proof)
    = value_of (find_local_match w export_dir unhinted)
  /\ trace_of (find_local_match w export_dir proof)
     = ((if Py.nonempty name then [EvExists (path_join export_dir name)] else [])
        ++ trace_of (find_local_match w export_dir unhinted))%list
  /\ (sortable w export_dir ->
      value_of (find_local_match w export_dir proof)
      = Ok (scan_outcome (List.find (matches w (sha256 proof)) (window w export_dir)))
      /\ forall f,
           In f (window w export_dir) -> matches w (sha256 proof) f = true ->
           exists f',
             value_of (find_local_match w export_dir proof)
             = Ok (Some f', Some "matched_by_hash_scan")
             /\ In f' (window w export_dir)
             /\ matches w (sha256 proof) f' = true)
  /\ (forall pre f post e,
        candidates w export_dir = (pre ++ f :: post)%list ->
        (forall g, In g pre -> getmtime w g = Ok (mtime w g)) ->
        getmtime w f = Raise e ->
        value_of (find_local_match w export_dir proof) = Raise e).
Proof.
  intros Hname Hex unhinted.
  assert (Hmiss : hint_misses w export_dir proof).
  { intros n Hn _. congruence. }
  assert (Hmiss' : hint_misses w export_dir unhinted).
  { intros n Hn. discriminate Hn. }
  destruct (find_local_match_miss w export_dir proof Hmiss) as [Ev Et].
  destruct (find_local_match_miss w export_dir unhinted Hmiss') as [Ev' Et'].
  cbn [filename sha256 unhinted app] in Ev', Et'. rewrite Hname in Et.
  split; [congruence | split; [congruence | split]].
  - intros Hs.
    destruct (find_local_match_second_tier w export_dir proof Hmiss Hs) as (Hv & _).
    split; [exact Hv |].
    intros f Hf Hm. rewrite Hv.
    destruct (List.find (matches w (sha256 proof)) (window w export_dir))
      as [f'|] eqn:E.
    + exists f'. apply find_some in E as [Hin Hm']. auto.
    + exfalso. pose proof (find_none _ _ E f Hf) as Hno. congruence.
  - intros pre f post e Hc Hpre Hf.
    exact (proj1 (find_local_match_unsortable w export_dir proof _ _ _ _
                    Hmiss Hc Hpre Hf)).
Qed.

Lemma find_local_match_falls_through_witness :
  value_of (find_local_match two_files_world "/proof/exports"
              {| ts_iso := "2024-01-01T00:00:00Z"; sha256 := sha_a;
                 filename := Some "heartbeats_0.json" |})
  = Ok (Some "/proof/exports/heartbeats_2.json", Some "matched_by_hash_scan").
Proof.
  destruct (find_local_match_falls_through two_files_world "/proof/exports"
              {| ts_iso := "2024-01-01T00:00:00Z"; sha256 := sha_a;
                 filename := Some "heartbeats_0.json" |} "heartbeats_0.json")
    as (_ & _ & Hs & _); [reflexivity | reflexivity |].
  destruct Hs as [Hv _].
  - apply sortable_check. vm_compute. reflexivity.
  - rewrite Hv. vm_compute. reflexivity.
Defined.

(** C10 as stated fails: the hint names a missing file, a file of the
    directory has the published hash, and [find_local_match] fails all
    the same, because the directory holds a link that leads nowhere and
    the sort cannot read its modification time. *)
Lemma missing_hint_scan_can_fail :
  path_exists dangling_world "/proof/exports/heartbeats_0.json" = false
  /\ candidates dangling_world "/proof/exports"
     = ["/proof/exports/heartbeats_1.json"; "/proof/exports/heartbeats_9.json"]
  /\ matches dangling_world sha_a "/proof/exports/heartbeats_1.json" = true
  /\ find_local_match dangling_world "/proof/exports"
       {| ts_iso := "2024-01-01T00:00:00Z"; sha256 := sha_a;
          filename := Some "heartbeats_0.json" |}
     = (Raise (Example.no_such_file "/proof/exports/heartbeats_9.json"),
        [EvExists "/proof/exports/heartbeats_0.json";
         EvGlob "/proof/exports/heartbeats_*.json";
         EvGetmtime "/proof/exports/heartbeats_1.json";
         EvGetmtime "/proof/exports/heartbeats_9.json"]).
Proof.
  repeat (apply conj; [vm_compute; reflexivity |]).
  vm_compute. reflexivity.
Qed.

(** ** The descending stable sort *)

Section Sort.

Variable key : string -> Q.

Lemma insert_desc_In x y l : In y (insert_desc key x l) <-> y = x \/ In y l.
Proof.
  induction l as [|z l IH]; simpl; [intuition |].
  destruct (Qle_bool (key z) (key x)); simpl; [intuition | ].
  rewrite IH. intuition.
Qed.

Lemma insert_desc_length x l :
  List.length (insert_desc key x l) = S (List.length l).
Proof.
  induction l as [|z l IH]; simpl; [reflexivity |].
  destruct (Qle_bool (key z) (key x)); simpl; congruence.
Qed.

Lemma insert_desc_filter (p : string -> bool) x l :
  List.length (List.filter p (insert_desc key x l))
  = List.length (List.filter p (x :: l)).
Proof.
  induction l as [|z l IH]; [reflexivity |].
  cbn [insert_desc]. destruct (Qle_bool (key z) (key x)); [reflexivity |].
  cbn [List.filter] in *.
  destruct (p z), (p x); cbn [List.length] in *; congruence.
Qed.

Lemma sort_desc_In y l : In y (sort_desc key l) <-> In y l.
Proof.
  induction l as [|x l IH]; [reflexivity |].
  cbn [sort_desc fold_right]. fold (sort_desc key l).
  rewrite insert_desc_In, IH. simpl. intuition.
Qed.

Lemma sort_desc_length l : List.length (sort_desc key l) = List.length l.
Proof.
  induction l as [|x l IH]; [reflexivity |].
  cbn [sort_desc fold_right]. fold (sort_desc key l).
  rewrite insert_desc_length, IH. reflexivity.
Qed.

Lemma sort_desc_filter (p : string -> bool) l :
  List.length (List.filter p (sort_desc key l)) = List.length (List.filter p l).
Proof.
  induction l as [|x l IH]; [reflexivity |].
  cbn [sort_desc fold_right]. fold (sort_desc key l).
  rewrite insert_desc_filter. cbn [List.filter].
  destruct (p x); cbn [List.length]; congruence.
Qed.

Lemma insert_desc_sorted x l :
  StronglySorted (not_older key) l -> StronglySorted (not_older key) (insert_desc key x l).
Proof.
  induction 1 as [|z l Hl IH Hz]; cbn [insert_desc].
  - repeat constructor.
  - destruct (Qle_bool (key z) (key x)) eqn:E.
    + apply Qle_bool_iff in E.
      constructor; [constructor; assumption |].
      constructor; [exact E |].
      rewrite List.Forall_forall in Hz |- *. intros y Hy.
      unfold not_older in *. eapply Qle_trans; [apply Hz, Hy | exact E].
    + constructor; [exact IH |].
      rewrite List.Forall_forall in Hz |- *. intros y [-> | Hy]%insert_desc_In; [| auto].
      unfold not_older. apply Qlt_le_weak, Qnot_le_lt.
      intros H%Qle_bool_iff. congruence.
Qed.

Lemma sort_desc_sorted l : StronglySorted (not_older key) (sort_desc key l).
Proof.
  induction l as [|x l IH]; [constructor |].
  cbn [sort_desc fold_right]. apply insert_desc_sorted, IH.
Qed.

(** In a sorted list nothing at or after the position of [g] is
    strictly newer than [g]. *)
Lemma sorted_tail_not_newer g l1 l2 :
  StronglySorted (not_older key) (l1 ++ g :: l2)%list ->
  List.filter (newer_than key g) (g :: l2) = [].
Proof.
  induction l1 as [|x l1 IH]; cbn [app].
  - intros H. apply StronglySorted_inv in H as [_ H].
    cbn [List.filter]. unfold newer_than at 1.
    rewrite (proj2 (Qle_bool_iff _ _) (Qle_refl (key g))). cbn [negb].
    rewrite List.Forall_forall in H.
    induction l2 as [|y l2 IH2]; [reflexivity |].
    cbn [List.filter]. unfold newer_than at 1.
    rewrite (proj2 (Qle_bool_iff _ _) (H y (or_introl eq_refl))). cbn [negb].
    apply IH2. intros z Hz. apply H. right. exact Hz.
  - intros H. apply StronglySorted_inv in H as [H _]. exact (IH H).
Qed.

(** A file among the [n] most recent has fewer than [n] strictly newer
    candidates, and a file with [n] or more is not among them. *)
Lemma newest_few_newer g l n :
  In g (take n (sort_desc key l)) ->
  (List.length (List.filter (newer_than key g) l) < n)%nat.
Proof.
  intros Hin.
  apply in_split in Hin as (l1 & l2 & E).
  pose proof (sort_desc_sorted l) as Hs.
  rewrite <- (take_drop n (sort_desc key l)), E, <- app_assoc in Hs.
  cbn [app] in Hs.
  pose proof (sorted_tail_not_newer g l1 _ Hs) as Htail.
  assert (Hcount : List.length (List.filter (newer_than key g) (sort_desc key l))
                   = List.length (List.filter (newer_than key g) l1)).
  { rewrite <- (take_drop n (sort_desc key l)), E, <- app_assoc.
    cbn [app]. rewrite List.filter_app, Htail, app_nil_r. reflexivity. }
  rewrite sort_desc_filter in Hcount.
  assert (Hl1 : (List.length l1 < n)%nat).
  { assert (List.length (take n (sort_desc key l)) <= n)%nat as Hle
      by (rewrite length_take; lia).
    rewrite E, length_app in Hle. cbn [List.length] in Hle. lia. }
  pose proof (List.filter_length_le (newer_than key g) l1). lia.
Qed.

Lemma strictly_older_outside_newest g l n :
  (n <= List.length (List.filter (newer_than key g) l))%nat ->
  ~ In g (take n (sort_desc key l)).
Proof. intros Hn Hin%newest_few_newer. lia. Qed.

End Sort.

Lemma filter_length_lt {T} (p : T -> bool) (x : T) (l : list T) :
  In x l -> p x = false ->
  (List.length (List.filter p l) < List.length l)%nat.
Proof.
  intros Hin Hp. induction l as [|y l IH]; [destruct Hin |].
  pose proof (List.filter_length_le p l) as Hle.
  cbn [List.filter List.length].
  destruct Hin as [-> | Hin].
  - rewrite Hp. lia.
  - specialize (IH Hin). destruct (p y); cbn [List.length]; lia.
Qed.

Lemma newer_than_irrefl key g : newer_than key g g = false.
Proof.
  unfold newer_than.
  rewrite (proj2 (Qle_bool_iff _ _) (Qle_refl (key g))). reflexivity.
Qed.

Lemma In_take {T} (x : T) n l : In x (take n l) -> In x l.
Proof.
  revert l. induction n as [|n IH]; intros [|y l]; simpl; try tauto.
  intros [H | H]; auto.
Qed.

Lemma window_candidates w export_dir f :
  In f (window w export_dir) -> In f (candidates w export_dir).
Proof. intros H%In_take. apply sort_desc_In in H. exact H. Qed.

(** C7, as amended.  The second tier hashes only the 300 most recently
    modified candidates.  Let the proof have no filename hint, or one
    that names no existing file, and let the modification time of every
    candidate be readable.  When the only candidate that can hash to the
    published hash has 300 or more candidates modified strictly after
    it, [find_local_match] returns no match.  The directory then holds
    more than 300 candidates; at most 300 files were hashed, all of
    them candidates with fewer than 300 strictly newer candidates. *)
Theorem find_local_match_scan_bound (w : World) (export_dir : string)
    (proof : DnsProof) (g : string) :
  hint_misses w export_dir proof ->
  sortable w export_dir ->
  In g (candidates w export_dir) ->
  (forall f, In f (candidates w export_dir) ->
             matches w (sha256 proof) f = true -> f = g) ->
  (300 <= newer_count w export_dir g)%nat ->
  value_of (find_local_match w export_dir proof) = Ok (None, None)
  /\ (300 < List.length (candidates w export_dir))%nat
  /\ (List.length (hashed (trace_of (find_local_match w export_dir proof)))
      <= 300)%nat
  /\ (forall f,
        In f (hashed (trace_of (find_local_match w export_dir proof))) ->
        In f (candidates w export_dir)
        /\ (newer_count w export_dir f < 300)%nat).
Proof.
  intros Hmiss Hs Hg Huniq Hold.
  destruct (find_local_match_second_tier w export_dir proof Hmiss Hs)
    as (Hv & _ & k & Hk).
  assert (Hout : ~ In g (window w export_dir))
    by (apply strictly_older_outside_newest; exact Hold).
  split; [| split; [| split]].
  - rewrite Hv.
    destruct (List.find (matches w (sha256 proof)) (window w export_dir))
      as [f|] eqn:E; [exfalso | reflexivity].
    apply find_some in E as [Hin Hf].
    apply Hout. rewrite <- (Huniq f (window_candidates _ _ _ Hin) Hf). exact Hin.
  - pose proof (filter_length_lt (newer_than (mtime w) g) g _ Hg
                  (newer_than_irrefl _ _)) as Hlt.
    unfold newer_count in Hold. lia.
  - rewrite Hk, length_take. unfold window, LOOKBACK_FILES.
    rewrite length_take. lia.
  - intros f Hf. rewrite Hk in Hf. apply In_take in Hf.
    split; [exact (window_candidates _ _ _ Hf) |].
    exact (newest_few_newer (mtime w) f _ _ Hf).
Qed.

Lemma find_local_match_scan_bound_witness :
  value_of (find_local_match crowded_world "/proof/exports"
              {| ts_iso := "2024-01-01T00:00:00Z"; sha256 := sha_a;
                 filename := None |})
  = Ok (None, None).
Proof.
  assert (Hc : candidates crowded_world "/proof/exports"
               = map candidate_name (seq 0 301))
    by (vm_compute; reflexivity).
  refine (proj1 (find_local_match_scan_bound crowded_world "/proof/exports"
                   {| ts_iso := "2024-01-01T00:00:00Z"; sha256 := sha_a;
                      filename := None |}
                   (candidate_name 0) _ _ _ _ _)).
  - intros name H. discriminate H.
  - apply sortable_check. vm_compute. reflexivity.
  - rewrite Hc. apply (in_map candidate_name (seq 0 301) 0%nat), in_seq. lia.
  - assert (H : forallb (fun f => implb (matches crowded_world sha_a f)
                                        (String.eqb f (candidate_name 0)))
                        (candidates crowded_world "/proof/exports") = true)
      by (vm_compute; reflexivity).
    intros f Hf Hmf. rewrite forallb_forall in H. specialize (H f Hf).
    change (matches crowded_world sha_a f = true) in Hmf.
    rewrite Hmf in H. apply String.eqb_eq, H.
  - apply Nat.leb_le. vm_compute. reflexivity.
Defined.

(** C7 as stated fails: the directory holds 301 candidates and the only
    one with the published hash is the oldest, with 300 candidates
    modified after it, but the proof names it, so the first tier
    returns it. *)
Lemma scan_bound_overridden_by_hint :
  List.length (candidates crowded_world "/proof/exports") = 301%nat
  /\ newer_count crowded_world "/proof/exports" (candidate_name 0) = 300%nat
  /\ matches crowded_world sha_a (candidate_name 0) = true
  /\ forallb (fun f => implb (matches crowded_world sha_a f)
                             (String.eqb f (candidate_name 0)))
             (candidates crowded_world "/proof/exports") = true
  /\ existsb (String.eqb (candidate_name 0))
             (window crowded_world "/proof/exports") = false
  /\ value_of (find_local_match crowded_world "/proof/exports"
                 {| ts_iso := "2024-01-01T00:00:00Z"; sha256 := sha_a;
                    filename := Some "heartbeats_0.json" |})
     = Ok (Some "/proof/exports/heartbeats_0.json", Some "matched_by_filename").
Proof.
  repeat (apply conj; [vm_compute; reflexivity |]).
  vm_compute. reflexivity.
Qed.

(** ** Rounding to binary64

    Between two multiples of [2 ^ -k] that are close enough to zero to
    be floats, rounding stays between them.  Hence, within [2 ^ 33]
    seconds of the epoch, a number of seconds with at most six decimals
    is rounded to a float with the same integer part. *)

Section Floats.

Lemma round_half_even_between n d A B :
  0 < d -> A * d <= n -> n <= B * d ->
  A <= round_half_even n d <= B.
Proof.
  intros Hd HA HB. unfold round_half_even.
  pose proof (Z.div_mod n d ltac:(lia)) as E.
  pose proof (Z.mod_pos_bound n d Hd) as Hr.
  assert (A <= n / d) by (apply Z.div_le_lower_bound; lia).
  assert (n / d <= B) by (apply Z.div_le_upper_bound; lia).
  assert (0 < n mod d -> n / d + 1 <= B) by nia.
  destruct (2 * (n mod d) <? d) eqn:E1; [lia |].
  apply Z.ltb_ge in E1.
  destruct (d <? 2 * (n mod d)); [lia |].
  destruct (Z.even (n / d)); lia.
Qed.

Lemma binary_exponent_le a d m :
  0 < a -> 0 < d -> 0 <= m -> a < d * 2 ^ m -> binary_exponent a d <= m.
Proof.
  intros Ha Hd Hm H. unfold binary_exponent.
  set (e0 := Z.log2 a - Z.log2 d).
  assert (He0 : e0 <= m).
  { subst e0.
    assert (Z.log2 a <= Z.log2 (d * 2 ^ m)) by (apply Z.log2_le_mono; lia).
    rewrite Z.log2_mul_pow2 in * by lia. lia. }
  destruct (0 <=? e0) eqn:E0.
  - destruct (d * 2 ^ e0 <=? a) eqn:E1; [| exact He0].
    apply Z.leb_le in E1. apply Z.leb_le in E0.
    destruct (Z.eq_dec e0 m) as [-> | Hne]; [lia | lia].
  - apply Z.leb_gt in E0. destruct (d <=? a * 2 ^ (- e0)); lia.
Qed.

Lemma round_double_between (x : Q) (k A B : Z) :
  0 <= k -> k <= 53 ->
  Z.abs (Qnum x) < Zpos (Qden x) * 2 ^ (53 - k) ->
  A * Zpos (Qden x) <= Qnum x * 2 ^ k ->
  Qnum x * 2 ^ k <= B * Zpos (Qden x) ->
  (Qmake A (Z.to_pos (2 ^ k)) <= round_double x)%Q
  /\ (round_double x <= Qmake B (Z.to_pos (2 ^ k)))%Q.
Proof.
  intros Hk Hk53 Hx HA HB. destruct x as [n d]. cbn [Qnum Qden] in *.
  assert (P2 : forall j, 0 <= j -> 0 < 2 ^ j) by (intros; apply Z.pow_pos_nonneg; lia).
  pose proof (P2 k Hk) as Pk.
  unfold round_double. cbn [Qnum Qden].
  destruct (n =? 0) eqn:En.
  - apply Z.eqb_eq in En. subst n.
    unfold Qle. cbn [Qnum Qden]. rewrite Z2Pos.id by lia. nia.
  - apply Z.eqb_neq in En.
    set (e := binary_exponent (Z.abs n) (Z.pos d)).
    assert (He : e <= 53 - k)
      by (apply binary_exponent_le; lia).
    set (K := 53 - e). assert (HK : k <= K) by (subst K; lia).
    assert (E0 : (0 <=? K) = true) by (apply Z.leb_le; lia). rewrite E0.
    pose proof (P2 K ltac:(lia)) as PK.
    pose proof (P2 (K - k) ltac:(lia)) as PKk.
    assert (EK : 2 ^ K = 2 ^ (K - k) * 2 ^ k).
    { rewrite <- Z.pow_add_r by lia. f_equal. lia. }
    rewrite EK. clear EK Hx He.
    generalize dependent (2 ^ (K - k)). generalize dependent (2 ^ k).
    clear PK. intros q HA HB Pq p Pp.
    destruct (round_half_even_between (n * (p * q)) (Z.pos d) (A * p) (B * p))
      as [H1 H2].
    + lia.
    + replace (A * p * Z.pos d) with (p * (A * Z.pos d)) by ring.
      replace (n * (p * q)) with (p * (n * q)) by ring.
      apply Z.mul_le_mono_nonneg_l; lia.
    + replace (B * p * Z.pos d) with (p * (B * Z.pos d)) by ring.
      replace (n * (p * q)) with (p * (n * q)) by ring.
      apply Z.mul_le_mono_nonneg_l; lia.
    + unfold Qle. cbn [Qnum Qden]. rewrite !Z2Pos.id by lia.
      split.
      * replace (A * (p * q)) with (A * p * q) by ring.
        apply Z.mul_le_mono_nonneg_r; lia.
      * replace (B * (p * q)) with (B * p * q) by ring.
        apply Z.mul_le_mono_nonneg_r; lia.
Qed.

Lemma quot_trunc p q s :
  0 < q ->
  (0 <= s -> s * q <= p < (s + 1) * q -> Z.quot p q = s)
  /\ (s < 0 -> s * q < p < (s + 1) * q -> Z.quot p q = s + 1)
  /\ (p = s * q -> Z.quot p q = s).
Proof.
  intros Hq. split; [| split].
  - intros Hs H. rewrite Z.quot_div_nonneg by nia.
    symmetry. apply (Z.div_unique p q s (p - s * q)); lia.
  - intros Hs H.
    replace p with (- (- p)) by lia. rewrite Z.quot_opp_l by lia.
    rewrite Z.quot_div_nonneg by nia.
    assert ((- p) / q = - (s + 1)); [| lia].
    symmetry. apply (Z.div_unique (- p) q (- (s + 1)) (- p + (s + 1) * q)); lia.
  - intros ->. apply Z.quot_mul. lia.
Qed.

(** [int] of a float between [s] and [s + 1 - 2^-20], and away from
    [s] by [2^-20] when there are microseconds. *)
Lemma int_of_Q_between (z : Q) (s us : Z) :
  0 <= us < 1000000 ->
  (Qmake (s * 2 ^ 20 + (if us =? 0 then 0 else 1)) (Z.to_pos (2 ^ 20)) <= z)%Q ->
  (z <= Qmake (s * 2 ^ 20 + (if us =? 0 then 0 else 2 ^ 20 - 1)) (Z.to_pos (2 ^ 20)))%Q ->
  int_of_Q z = Z.quot (s * 1000000 + us) 1000000.
Proof.
  intros Hus H1 H2. destruct z as [p q]. unfold int_of_Q, Qle in *.
  cbn [Qnum Qden] in *.
  change (Z.pos (Z.to_pos (2 ^ 20))) with 1048576 in *.
  change (2 ^ 20) with 1048576 in *.
  destruct (quot_trunc p (Z.pos q) s ltac:(lia)) as (Qa & Qb & Qc).
  destruct (quot_trunc (s * 1000000 + us) 1000000 s ltac:(lia)) as (Ra & Rb & Rc).
  destruct (us =? 0) eqn:E.
  - apply Z.eqb_eq in E. subst us.
    rewrite Qc by lia. rewrite Rc by lia. reflexivity.
  - apply Z.eqb_neq in E.
    destruct (Z_lt_le_dec s 0) as [Hs | Hs].
    + rewrite Qb by lia. rewrite Rb by lia. reflexivity.
    + rewrite Qa by lia. rewrite Ra by lia. reflexivity.
Qed.

(** The truncated quotient of the microseconds by a million survives
    the rounding of the division. *)
Lemma int_round_quotient (s us : Z) :
  0 <= us < 1000000 ->
  float_exact s us ->
  int_of_Q (round_double (Qmake (s * 1000000 + us) 1000000))
  = Z.quot (s * 1000000 + us) 1000000.
Proof.
  intros Hus Hs. unfold float_exact in Hs.
  destruct (Z.eq_dec us 0) as [-> | Hne].
  - assert (Hs' : Z.abs s < 2 ^ 53) by (change (2 ^ 33) with 8589934592 in *; change (2 ^ 53) with 9007199254740992 in *; lia).
    destruct (round_double_between (Qmake (s * 1000000 + 0) 1000000) 0 s s)
      as [H1 H2]; cbn [Qnum Qden]; try lia.
    destruct (round_double _) as [p q]. unfold int_of_Q, Qle in *.
    cbn [Qnum Qden] in *. change (Z.pos (Z.to_pos (2 ^ 0))) with 1 in *.
    destruct (quot_trunc p (Z.pos q) s ltac:(lia)) as (_ & _ & Qc).
    destruct (quot_trunc (s * 1000000 + 0) 1000000 s ltac:(lia)) as (_ & _ & Rc).
    rewrite Qc by lia. rewrite Rc by lia. reflexivity.
  - destruct Hs as [[? _] | Hs]; [contradiction |].
    change (2 ^ 33) with 8589934592 in Hs.
    apply (int_of_Q_between _ s us Hus);
      replace (us =? 0) with false by (symmetry; apply Z.eqb_neq; exact Hne).
    + apply (round_double_between (Qmake (s * 1000000 + us) 1000000) 20
               (s * 2 ^ 20 + 1) (s * 2 ^ 20 + (2 ^ 20 - 1)));
        cbn [Qnum Qden]; change (2 ^ 20) with 1048576;
        change (2 ^ (53 - 20)) with 8589934592; lia.
    + apply (round_double_between (Qmake (s * 1000000 + us) 1000000) 20
               (s * 2 ^ 20 + 1) (s * 2 ^ 20 + (2 ^ 20 - 1)));
        cbn [Qnum Qden]; change (2 ^ 20) with 1048576;
        change (2 ^ (53 - 20)) with 8589934592; lia.
Qed.

Lemma sum_bound (s q p M : Z) :
  0 < q -> 0 < p < q -> Z.abs s + 1 <= M -> Z.abs (s * q + p * 1) < q * M.
Proof.
  intros Hq Hp HM.
  assert (q * (Z.abs s + 1) <= q * M) by (apply Z.mul_le_mono_nonneg_l; lia).
  destruct (Z.abs_spec s) as [[? E] | [? E]]; rewrite E in *; nia.
Qed.

(** The same for the sum of a whole number of seconds and the rounded
    fraction. *)
Lemma int_round_sum (s us : Z) :
  0 <= us < 1000000 ->
  float_exact s us ->
  int_of_Q (round_double (inject_Z s + round_double (Qmake us 1000000))%Q)
  = Z.quot (s * 1000000 + us) 1000000.
Proof.
  intros Hus Hs. unfold float_exact in Hs.
  change (2 ^ 33) with 8589934592 in Hs. change (2 ^ 53) with 9007199254740992 in Hs.
  destruct (Z.eq_dec us 0) as [-> | Hne].
  - change (round_double (Qmake 0 1000000)) with 0%Q.
    destruct (round_double_between (inject_Z s + 0)%Q 0 s s) as [H1 H2];
      cbn [Qnum Qden Qplus inject_Z];
      change (2 ^ (53 - 0)) with 9007199254740992; try lia.
    destruct (round_double _) as [p q]. unfold int_of_Q, Qle in *.
    cbn [Qnum Qden] in *. change (Z.pos (Z.to_pos (2 ^ 0))) with 1 in *.
    destruct (quot_trunc p (Z.pos q) s ltac:(lia)) as (_ & _ & Qc).
    destruct (quot_trunc (s * 1000000 + 0) 1000000 s ltac:(lia)) as (_ & _ & Rc).
    rewrite Qc by lia. rewrite Rc by lia. reflexivity.
  - destruct Hs as [[? _] | Hs]; [contradiction |].
    destruct (round_double_between (Qmake us 1000000) 20 1 (2 ^ 20 - 1))
      as [Y1 Y2]; cbn [Qnum Qden]; change (2 ^ 20) with 1048576;
      change (2 ^ (53 - 20)) with 8589934592; try lia.
    destruct (round_double (Qmake us 1000000)) as [py qy].
    unfold Qle in Y1, Y2. cbn [Qnum Qden] in Y1, Y2.
    change (Z.pos (Z.to_pos (2 ^ 20))) with 1048576 in *.
    change (2 ^ 20) with 1048576 in *.
    apply (int_of_Q_between _ s us Hus);
      replace (us =? 0) with false by (symmetry; apply Z.eqb_neq; exact Hne).
    + apply (round_double_between (inject_Z s + Qmake py qy)%Q 20
               (s * 2 ^ 20 + 1) (s * 2 ^ 20 + (2 ^ 20 - 1)));
        cbn [Qnum Qden Qplus inject_Z]; change (Z.pos (1 * qy)) with (Z.pos qy);
        change (2 ^ 20) with 1048576;
        change (2 ^ (53 - 20)) with 8589934592; try lia;
        apply sum_bound; lia.
    + apply (round_double_between (inject_Z s + Qmake py qy)%Q 20
               (s * 2 ^ 20 + 1) (s * 2 ^ 20 + (2 ^ 20 - 1)));
        cbn [Qnum Qden Qplus inject_Z]; change (Z.pos (1 * qy)) with (Z.pos qy);
        change (2 ^ 20) with 1048576;
        change (2 ^ (53 - 20)) with 8589934592; try lia;
        apply sum_bound; lia.
Qed.

End Floats.

(** ** Timestamps and time zones *)

Section Zones.

Import Py Datetime.

Lemma replace_char_absent old new s :
  contains_char old s = false -> replace_char old new s = s.
Proof.
  induction s as [|c r IH]; [reflexivity |].
  simpl. intros [Hc Hr]%orb_false_elim. rewrite Hc, (IH Hr). reflexivity.
Qed.

Lemma replace_char_trailing old new s :
  contains_char old s = false ->
  replace_char old new (s ++ String old "") = s ++ new.
Proof.
  induction s as [|c r IH].
  - intros _. simpl. rewrite Ascii.eqb_refl. apply append_empty_r.
  - simpl. intros [Hc Hr]%orb_false_elim. rewrite Hc, (IH Hr). reflexivity.
Qed.

Lemma take_append_le n s x :
  (n <= String.length s)%nat -> take n (s ++ x) = take n s.
Proof.
  revert s. induction n as [|n IH]; intros [|c s] H; simpl in *; try lia.
  - destruct x; reflexivity.
  - reflexivity.
  - f_equal. apply IH. lia.
Qed.

Lemma drop_append_le n s x :
  (n <= String.length s)%nat -> drop n (s ++ x) = drop n s ++ x.
Proof.
  revert s. induction n as [|n IH]; intros [|c s] H; simpl in *; try lia.
  - reflexivity.
  - reflexivity.
  - apply IH. lia.
Qed.

Lemma drop_length n s :
  String.length (drop n s) = (String.length s - n)%nat.
Proof.
  revert s. induction n as [|n IH]; intros [|c s]; simpl; auto; lia.
Qed.

Lemma split_at_sign_none t a :
  split_at_sign t = (a, None) ->
  a = t /\ forall r, split_at_sign (t ++ String "+" r) = (t, Some ("+"%char, r)).
Proof.
  revert a. induction t as [|c t IH]; intros a.
  - simpl. intros [= <-]. auto.
  - simpl. destruct (is_sign c); [discriminate |].
    destruct (split_at_sign t) as [a' b'] eqn:E. intros [= <- ->].
    destruct (IH a' eq_refl) as [-> Hr].
    split; [reflexivity |]. intros r. rewrite Hr. reflexivity.
Qed.

(** A naive datetime read off a string with a time part: the same
    string followed by [+00:00] gives the same reading, at offset zero. *)
Lemma parse_with_utc_suffix d dt :
  parse d = Some dt ->
  tzinfo dt = None ->
  (10 < String.length d)%nat ->
  parse (d ++ "+00:00")
  = Some (mkDatetime (year dt) (month dt) (day dt)
                     (hour dt) (minute dt) (second dt) (microsecond dt) (Some 0)).
Proof.
  intros Hp Htz Hlen. unfold parse in *.
  rewrite take_append_le, drop_append_le by lia.
  destruct (_parse_isoformat_date (take 10 d)) as [[[y m] dd]|]; [| discriminate].
  cbn [mbind option_bind] in *.
  destruct (drop 10 d) as [|sep tstr] eqn:Ed.
  { pose proof (drop_length 10 d) as L. rewrite Ed in L. simpl in L. lia. }
  cbn [append]. unfold _parse_isoformat_time in *.
  destruct (split_at_sign tstr) as [timestr tz] eqn:Es.
  destruct (_parse_hh_mm_ss_ff timestr) as [[[[hh mm] ss] us]|] eqn:Et;
    [| discriminate].
  cbn [mbind option_bind] in Hp.
  destruct tz as [[sign tzstr]|].
  - exfalso.
    destruct (negb _); [discriminate |].
    destruct (_parse_hh_mm_ss_ff tzstr) as [[[[th tm] ts] tu]|]; [| discriminate].
    cbn [mbind option_bind] in Hp.
    destruct (valid _); [| discriminate].
    injection Hp as <-. discriminate Htz.
  - destruct (split_at_sign_none _ _ Es) as [-> Hr]. rewrite Hr, Et.
    cbn [mbind option_bind] in *.
    destruct (valid (mkDatetime y m dd hh mm ss us None)) eqn:Ev; [| discriminate].
    injection Hp as <-. cbn [year month day hour minute second microsecond].
    change (_parse_hh_mm_ss_ff "00:00") with (Some (0, 0, 0, 0)).
    cbn [mbind option_bind String.length Nat.eqb orb negb Ascii.eqb].
    unfold valid in *. cbn [year month day hour minute second microsecond tzinfo] in *.
    rewrite andb_true_r in Ev.
    change ((0 * 3600 + 0 * 60 + 0) * 1000000 + 0) with 0.
    replace (if ("+" =? "-")%char then - 0 else 0) with 0 by reflexivity.
    rewrite Ev. reflexivity.
Qed.

Lemma parse_valid d dt : parse d = Some dt -> valid dt = true.
Proof.
  unfold parse.
  destruct (_parse_isoformat_date (take 10 d)) as [[[y m] dd]|]; [| discriminate].
  cbn [mbind option_bind].
  destruct (match drop 10 d with "" => _ | String _ tstr => _ end)
    as [[[[[hh mm] ss] us] tz]|]; [| discriminate].
  cbn [mbind option_bind].
  destruct (valid _) eqn:E; [| discriminate].
  intros [= <-]. exact E.
Qed.

Lemma days_before_year_succ y :
  _days_before_year (y + 1) = _days_before_year y + (if is_leap y then 366 else 365).
Proof.
  unfold _days_before_year, is_leap.
  replace (y + 1 - 1) with y by lia.
  destruct (y mod 4 =? 0) eqn:E4; destruct (y mod 100 =? 0) eqn:E100;
    destruct (y mod 400 =? 0) eqn:E400; cbn [andb orb negb];
    rewrite ?Z.eqb_eq, ?Z.eqb_neq in *;
    Z.to_euclidean_division_equations; lia.
Qed.

Lemma days_before_year_bound y :
  1 <= y <= 10000 -> 0 <= _days_before_year y <= 3652059.
Proof.
  intros H. unfold _days_before_year.
  Z.to_euclidean_division_equations. lia.
Qed.

(** The days of the year before each month. *)
Lemma days_before_month_value y m :
  1 <= m <= 12 ->
  _days_before_month y m
  = nth (Z.to_nat (m - 1)) [0; 31; 59; 90; 120; 151; 181; 212; 243; 273; 304; 334] 0
    + (if (3 <=? m) && is_leap y then 1 else 0).
Proof.
  intros Hm.
  assert (Hc : m = 1 \/ m = 2 \/ m = 3 \/ m = 4 \/ m = 5 \/ m = 6 \/ m = 7
               \/ m = 8 \/ m = 9 \/ m = 10 \/ m = 11 \/ m = 12) by lia.
  unfold _days_before_month.
  decompose [or] Hc; subst m;
    repeat match goal with
           | |- context [Z.to_nat ?e] =>
               let n := eval vm_compute in (Z.to_nat e) in
               change (Z.to_nat e) with n
           end;
    cbn [days_before_month_nat]; unfold days_in_month;
    generalize (is_leap y); intros [|]; vm_compute; reflexivity.
Qed.

Lemma day_of_year_bound y m d :
  1 <= m <= 12 -> 1 <= d <= days_in_month y m ->
  1 <= _days_before_month y m + d <= (if is_leap y then 366 else 365).
Proof.
  intros Hm Hd. rewrite (days_before_month_value y m Hm).
  assert (Hc : m = 1 \/ m = 2 \/ m = 3 \/ m = 4 \/ m = 5 \/ m = 6 \/ m = 7
               \/ m = 8 \/ m = 9 \/ m = 10 \/ m = 11 \/ m = 12) by lia.
  unfold days_in_month in Hd.
  decompose [or] Hc; subst m;
    destruct (is_leap y);
    match goal with
    | |- context [nth ?k ?l 0] =>
        let v := eval vm_compute in (nth k l 0) in change (nth k l 0) with v
    end;
    cbn [Z.leb Z.compare Pos.compare Pos.compare_cont andb Z.eqb Pos.eqb orb] in *;
    lia.
Qed.

Lemma ymd2ord_bound y m d :
  1 <= y <= 9999 -> 1 <= m <= 12 -> 1 <= d <= days_in_month y m ->
  1 <= _ymd2ord y m d <= 3652059.
Proof.
  intros Hy Hm Hd. unfold _ymd2ord.
  pose proof (day_of_year_bound y m d Hm Hd) as Hdoy.
  pose proof (days_before_year_succ y) as Hs.
  pose proof (days_before_year_bound y ltac:(lia)).
  pose proof (days_before_year_bound (y + 1) ltac:(lia)).
  destruct (is_leap y); lia.
Qed.

(** The wall-clock reading of a valid datetime lies between those of
    the first and of the last second of the calendar. *)
Lemma wall_seconds_range dt :
  valid dt = true ->
  min_seconds <= wall_seconds dt <= max_seconds
  /\ 0 <= microsecond dt < 1000000.
Proof.
  unfold valid. intros H.
  repeat (apply andb_prop in H as [H ?]).
  repeat match goal with
         | H : (_ <=? _) = true |- _ => apply Z.leb_le in H
         end.
  pose proof (ymd2ord_bound (year dt) (month dt) (day dt)
                ltac:(lia) ltac:(lia) ltac:(lia)) as Hord.
  unfold wall_seconds, min_seconds, max_seconds.
  change (_ymd2ord 1970 1 1) with 719163. lia.
Qed.

Lemma local_in_range offset u :
  min_seconds <= u + offset u <= max_seconds ->
  local offset u = Ok (u + offset u).
Proof.
  intros [H1 H2]. unfold local.
  apply Z.leb_le in H1. apply Z.leb_le in H2. rewrite H1, H2. reflexivity.
Qed.

Lemma local_out_of_range offset u :
  u + offset u < min_seconds \/ max_seconds < u + offset u ->
  exists msg, local offset u = Raise (ValueError msg).
Proof.
  intros H. unfold local.
  destruct (min_seconds <=? u + offset u) eqn:E1;
    [destruct (u + offset u <=? max_seconds) eqn:E2 |];
    cbn [andb]; eauto.
  apply Z.leb_le in E1. apply Z.leb_le in E2. lia.
Qed.

Lemma local_ok_or_value_error offset u :
  (exists t, local offset u = Ok t) \/ exists msg, local offset u = Raise (ValueError msg).
Proof.
  unfold local. destruct (_ && _); eauto.
Qed.

(** On a host at a fixed offset, [_mktime] subtracts the offset, once
    the local readings it takes on the way are inside the calendar:
    that of [t] as an instant, and that of the instant a day before the
    one found. *)
Lemma mktime_fixed_offset offset c t :
  (forall u, offset u = c) ->
  min_seconds <= t + c <= max_seconds ->
  min_seconds + 86400 <= t <= max_seconds ->
  _mktime offset t = Ok (t - c).
Proof.
  intros H Hc Ht. unfold _mktime.
  rewrite (local_in_range offset t) by (rewrite H; exact Hc).
  cbn [mbind result_bind]. rewrite !H.
  replace (t - (t + c - t)) with (t - c) by lia.
  rewrite (local_in_range offset (t - c)) by (rewrite H; lia).
  cbn [mbind result_bind]. rewrite !H.
  replace (t - c + c) with t by lia. rewrite Z.eqb_refl.
  rewrite (local_in_range offset (t - c - 24 * 3600)) by (rewrite H; lia).
  cbn [mbind result_bind]. rewrite !H.
  replace (t - c - 24 * 3600 + c - (t - c - 24 * 3600)) with (t + c - t) by lia.
  rewrite Z.eqb_refl. reflexivity.
Qed.

Lemma mktime_fixed_offset_raise offset c t :
  (forall u, offset u = c) ->
  t + c < min_seconds \/ max_seconds < t + c \/ t < min_seconds + 86400 ->
  exists msg, _mktime offset t = Raise (ValueError msg).
Proof.
  intros H Ht. unfold _mktime.
  destruct (local_ok_or_value_error offset t) as [[lt E] | [msg E]];
    rewrite E; cbn [mbind result_bind]; [| eauto].
  assert (Hlt : lt = t + c /\ min_seconds <= t + c <= max_seconds).
  { unfold local in E. rewrite H in E.
    destruct (min_seconds <=? t + c) eqn:E1;
      [destruct (t + c <=? max_seconds) eqn:E2 |]; cbn [andb] in E;
      try discriminate E.
    apply Z.leb_le in E1. apply Z.leb_le in E2.
    split; [congruence | lia]. }
  destruct Hlt as [-> Hc].
  replace (t - (t + c - t)) with (t - c) by lia.
  destruct (local_ok_or_value_error offset (t - c)) as [[t1 E1] | [msg E1]];
    rewrite E1; cbn [mbind result_bind]; [| eauto].
  assert (Ht1 : t1 = t).
  { unfold local in E1. rewrite H in E1.
    destruct (_ && _); [| discriminate E1]. injection E1 as <-. lia. }
  subst t1. rewrite Z.eqb_refl.
  destruct (local_out_of_range offset (t - c - 24 * 3600)) as [msg E2];
    [rewrite H; lia |].
  rewrite E2. cbn [mbind result_bind]. eauto.
Qed.

End Zones.

(** C4, as amended.  Let [d] be a timestamp with a time part, in the
    format that [isoformat()] writes, without offset and without [Z].
    - Followed by [Z], it is parsed after substituting [+00:00] for the
      [Z] and yields the epoch seconds of its reading as UTC, whatever
      the host's time zone; this for a time without microseconds or
      within [2 ^ 33] seconds of the epoch, where the float that
      [timestamp] returns has the right integer part.
    - On its own it is a naive datetime, read in the host's local time
      zone: what [_mktime] makes of its wall-clock reading, be it a
      number of seconds or an error.
    - On a host at the fixed offset [c] this is the epoch seconds of its
      reading as UTC less [c], when the local readings that [_mktime]
      takes are inside the calendar, and a [ValueError] otherwise. *)
Theorem iso_to_unix_time_zone (w : World) (d : string) (dt : Datetime.datetime) :
  Datetime.parse d = Some dt ->
  Datetime.tzinfo dt = None ->
  (10 < String.length d)%nat ->
  Py.contains_char "Z" d = false ->
  let wall := Datetime.wall_seconds dt in
  let us := Datetime.microsecond dt in
  (us = 0 \/ Z.abs wall + 1 <= 2 ^ 33 ->
   iso_to_unix w (d ++ "Z") = Ok (utc_epoch dt))
  /\ (forall s,
        Datetime._mktime (utcoffset w) wall = Ok s ->
        float_exact s us ->
        iso_to_unix w d = Ok (Z.quot (s * 1000000 + us) 1000000))
  /\ (forall e,
        Datetime._mktime (utcoffset w) wall = Raise e ->
        iso_to_unix w d = Raise e)
  /\ (forall c,
        (forall u, utcoffset w u = c) ->
        (Datetime.min_seconds <= wall + c <= Datetime.max_seconds ->
         Datetime.min_seconds + 86400 <= wall ->
         us = 0 \/ Z.abs (wall - c) + 1 <= 2 ^ 33 ->
         iso_to_unix w d = Ok (Z.quot ((wall - c) * 1000000 + us) 1000000))
        /\ (wall + c < Datetime.min_seconds \/ Datetime.max_seconds < wall + c
            \/ wall < Datetime.min_seconds + 86400 ->
            exists msg, iso_to_unix w d = Raise (ValueError msg))).
Proof.
  intros Hp Htz Hlen HZ wall us.
  destruct (wall_seconds_range dt (parse_valid d dt Hp)) as [Hwall Hus].
  fold wall us in Hwall, Hus.
  assert (Hbare : iso_to_unix w d
                  = (s ← Datetime._mktime (utcoffset w) wall;
                     Ok (int_of_Q (round_double
                                     (inject_Z s
                                      + round_double (Qmake us 1000000))%Q)))).
  { unfold iso_to_unix, Datetime.fromisoformat.
    rewrite (replace_char_absent _ _ _ HZ), Hp. cbn [mbind result_bind].
    unfold Datetime.timestamp_int. rewrite Htz. reflexivity. }
  assert (Hok : forall s,
             Datetime._mktime (utcoffset w) wall = Ok s ->
             float_exact s us ->
             iso_to_unix w d = Ok (Z.quot (s * 1000000 + us) 1000000)).
  { intros s Hs Hf. rewrite Hbare, Hs. cbn [mbind result_bind].
    rewrite (int_round_sum s us Hus Hf). reflexivity. }
  assert (Hraise : forall e,
             Datetime._mktime (utcoffset w) wall = Raise e ->
             iso_to_unix w d = Raise e).
  { intros e He. rewrite Hbare, He. reflexivity. }
  assert (P53 : 2 ^ 53 = 9007199254740992) by reflexivity.
  assert (P33 : 2 ^ 33 = 8589934592) by reflexivity.
  unfold Datetime.min_seconds, Datetime.max_seconds in *.
  split; [| split; [exact Hok | split; [exact Hraise |]]].
  - intros Hf. unfold iso_to_unix, Datetime.fromisoformat.
    rewrite (replace_char_trailing "Z" "+00:00" d HZ).
    rewrite (parse_with_utc_suffix d dt Hp Htz Hlen). cbn [mbind result_bind].
    unfold Datetime.timestamp_int, utc_epoch, Datetime.wall_seconds.
    cbn [Datetime.tzinfo Datetime.year Datetime.month Datetime.day
         Datetime.hour Datetime.minute Datetime.second Datetime.microsecond].
    fold (Datetime.wall_seconds dt). fold wall us.
    rewrite Z.sub_0_r. f_equal. apply int_round_quotient; [exact Hus |].
    destruct Hf as [Hf | Hf]; [left; split; [exact Hf | lia] | right; exact Hf].
  - intros c Hc. split.
    + intros Hin Hday Hf. apply Hok.
      * apply mktime_fixed_offset; unfold Datetime.min_seconds, Datetime.max_seconds;
          [exact Hc | lia | lia].
      * destruct Hf as [Hf | Hf]; [left; split; [exact Hf | lia] | right; exact Hf].
    + intros Hout.
      destruct (mktime_fixed_offset_raise (utcoffset w) c wall Hc) as [msg Hm];
        [unfold Datetime.min_seconds, Datetime.max_seconds; lia |].
      exists msg. exact (Hraise _ Hm).
Qed.

Lemma iso_to_unix_time_zone_witness :
  iso_to_unix paris_world "2024-01-01T00:00:00Z" = Ok 1704067200
  /\ iso_to_unix paris_world "2024-01-01T00:00:00" = Ok 1704063600.
Proof.
  destruct (iso_to_unix_time_zone paris_world "2024-01-01T00:00:00"
              (Datetime.mkDatetime 2024 1 1 0 0 0 0 None))
    as (Hz & _ & _ & Hc); [reflexivity | reflexivity | simpl; lia | reflexivity |].
  split; [exact (Hz (or_introl eq_refl)) |].
  destruct (Hc 3600 (fun _ => eq_refl)) as [Hok _].
  apply Hok; [vm_compute; split; discriminate | vm_compute; discriminate
             | left; reflexivity].
Defined.

(** C4 as stated fails: on a host one hour east of UTC the bare
    timestamp is read as local time, an hour before its reading as
    UTC. *)
Lemma iso_to_unix_bare_is_local_time :
  utc_epoch (Datetime.mkDatetime 2024 1 1 0 0 0 0 None) = 1704067200
  /\ iso_to_unix paris_world "2024-01-01T00:00:00Z" = Ok 1704067200
  /\ iso_to_unix paris_world "2024-01-01T00:00:00" = Ok 1704063600
  /\ iso_to_unix paris_world "2024-01-01T00:00:00"
     <> Ok (utc_epoch (Datetime.mkDatetime 2024 1 1 0 0 0 0 None)).
Proof. repeat split. vm_compute. discriminate. Qed.

(** ** The report and the exit status *)

Section Report.

Lemma printed_app t1 t2 : printed (t1 ++ t2)%list = (printed t1 ++ printed t2)%list.
Proof.
  induction t1 as [|ev t1 IH]; [reflexivity |].
  destruct ev; simpl; rewrite ?IH; reflexivity.
Qed.

Lemma quiet_ret {A} (a : A) : quiet (ret a).
Proof. reflexivity. Qed.

Lemma quiet_raise {A} (e : exn) : quiet (@raise A e).
Proof. reflexivity. Qed.

Lemma quiet_lift {A} (r : result A) : quiet (lift r).
Proof. reflexivity. Qed.

Lemma quiet_bind {A B} (m : M A) (k : A -> M B) :
  quiet m -> (forall a, quiet (k a)) -> quiet (bind m k).
Proof.
  unfold quiet. intros Hm Hk. rewrite trace_of_bind.
  destruct (value_of m) as [a|e]; [| exact Hm].
  rewrite printed_app, Hm, (Hk a). reflexivity.
Qed.

Lemma quiet_attempt {A} (m : M A) : quiet m -> quiet (attempt m).
Proof. intros H. exact H. Qed.

Lemma quiet_run w cmd : quiet (run w cmd).
Proof. unfold quiet. rewrite trace_of_run. reflexivity. Qed.

Lemma quiet_authoritative_loop w name ns_list :
  forall acc, quiet (authoritative_loop w name ns_list acc).
Proof.
  induction ns_list as [|ns rest IH]; intros acc; [reflexivity |].
  cbn [authoritative_loop]. apply quiet_bind; [apply quiet_attempt, quiet_run |].
  intros [out|e]; [| apply IH].
  destruct (Py.nonempty (_clean_dig_txt out)); [apply quiet_ret | apply IH].
Qed.

Lemma quiet_dig_txt_authoritative w name zone :
  quiet (dig_txt_authoritative w name zone).
Proof.
  unfold dig_txt_authoritative. apply quiet_bind.
  - unfold nameserver_list.
    destruct (Py.nonempty _); [apply quiet_ret |].
    unfold _get_authoritative_ns.
    apply quiet_bind; [apply quiet_run | intros; apply quiet_ret].
  - intros ns_list. apply quiet_bind; [apply quiet_authoritative_loop |].
    intros [found | last]; [apply quiet_ret |].
    apply quiet_bind.
    + destruct (String.eqb _ _); [| apply quiet_ret].
      apply quiet_bind; [apply quiet_run |].
      intros out. destruct (Py.nonempty _); apply quiet_ret.
    + intros [found|]; [apply quiet_ret | apply quiet_raise].
Qed.

Lemma quiet_load_env_file w path : quiet (load_env_file w path).
Proof.
  unfold load_env_file. apply quiet_bind; [reflexivity |].
  intros found. destruct found; cbn [negb]; [| apply quiet_ret].
  apply quiet_bind; [reflexivity | intros; apply quiet_ret].
Qed.

Lemma quiet_hash_scan w sha files : quiet (hash_scan w sha files).
Proof.
  induction files as [|f rest IH]; [reflexivity |].
  cbn [hash_scan]. apply quiet_bind; [reflexivity |].
  intros [h|e]; [| exact IH].
  destruct (String.eqb _ _); [apply quiet_ret | exact IH].
Qed.

Lemma quiet_read_keys w files : quiet (read_keys w files).
Proof.
  induction files as [|f rest IH]; [reflexivity |].
  cbn [read_keys]. apply quiet_bind; [reflexivity | intros _; exact IH].
Qed.

Lemma quiet_newest_files w export_dir n : quiet (newest_files w export_dir n).
Proof.
  unfold newest_files. apply quiet_bind; [reflexivity | intros files].
  apply quiet_bind; [apply quiet_read_keys | intros _; apply quiet_ret].
Qed.

Lemma quiet_find_local_match w export_dir proof :
  quiet (find_local_match w export_dir proof).
Proof.
  unfold find_local_match. apply quiet_bind.
  - destruct (filename proof) as [name|]; [| apply quiet_ret].
    destruct (Py.nonempty name); [| apply quiet_ret].
    apply quiet_bind; [reflexivity |].
    intros found. destruct found; apply quiet_ret.
  - intros [candidate|]; [apply quiet_ret |].
    apply quiet_bind; [apply quiet_newest_files | intros; apply quiet_hash_scan].
Qed.

(** A quiet stage in front of a computation leaves what it reports
    unchanged. *)
Lemma reported_bind {A} (m : M A) (k : A -> M Z) :
  quiet m ->
  (forall a, reported (value_of (k a)) (printed (trace_of (k a)))) ->
  reported (value_of (bind m k)) (printed (trace_of (bind m k))).
Proof.
  unfold quiet. intros Hm Hk. rewrite value_of_bind, trace_of_bind.
  destruct (value_of m) as [a|e]; [| exact Hm].
  rewrite printed_app, Hm. exact (Hk a).
Qed.

Lemma reported_no_match used_ns dns_txt export_dir :
  reported (value_of (no_match used_ns dns_txt export_dir))
           (printed (trace_of (no_match used_ns dns_txt export_dir))).
Proof.
  exists FAIL. eexists. cbn. split; [reflexivity | split; reflexivity].
Qed.

Lemma reported_main w :
  reported (value_of (main w)) (printed (trace_of (main w))).
Proof.
  unfold main.
  apply reported_bind; [apply quiet_load_env_file | intros env].
  apply reported_bind; [apply quiet_dig_txt_authoritative | intros [dns_txt used_ns]].
  apply reported_bind; [apply quiet_lift | intros proof].
  apply reported_bind; [apply quiet_lift | intros dns_ts_unix].
  apply reported_bind; [apply quiet_find_local_match | intros [match_path how]].
  destruct match_path as [path|]; [| apply reported_no_match].
  destruct (Py.nonempty path); [| apply reported_no_match].
  apply reported_bind; [reflexivity | intros digest].
  apply reported_bind; [reflexivity | intros mt].
  set (v := verdict_from_hash_and_skew _ _).
  exists v. eexists. cbn. split; [reflexivity | split; [reflexivity |]].
  intros H.
  repeat (destruct H as [H | H]; [destruct v; discriminate H |]).
  destruct H.
Qed.

End Report.

Lemma path_join_nonempty a b : b <> "" -> path_join a b <> "".
Proof.
  intros Hb. unfold path_join.
  destruct (Py.startswith "/" b); [exact Hb |].
  destruct (negb (Py.nonempty a) || _).
  - destruct a; [exact Hb | discriminate].
  - destruct a; discriminate.
Qed.

Lemma nonempty_true s : s <> "" -> Py.nonempty s = true.
Proof. destruct s; [congruence | reflexivity]. Qed.

Lemma exit_code_inj v v' : exit_code v = exit_code v' -> v = v'.
Proof. destruct v, v'; cbn; intros H; try reflexivity; discriminate H. Qed.

(** What [main] returns once the record is obtained and the matcher has
    returned a path: reading that file and its modification time
    decides. *)
Lemma main_after_match w proof ts path how :
  record_obtained w proof ts ->
  value_of (find_local_match w (export_dir_of w) proof) = Ok (Some path, how) ->
  path <> "" ->
  value_of (main w)
  = match file_sha256 w path with
    | Ok digest =>
        match getmtime w path with
        | Ok mt =>
            Ok (exit_code (verdict_from_hash_and_skew
                             (String.eqb (Py.lower digest) (sha256 proof))
                             (int_of_Q mt - ts)))
        | Raise e => Raise e
        end
    | Raise e => Raise e
    end.
Proof.
  intros (env & dns_txt & used_ns & Henv & Hdig & Hparse & Hts) Hfind Hne.
  unfold main.
  rewrite value_of_bind, Henv.
  rewrite value_of_bind, Hdig.
  rewrite value_of_bind. unfold lift at 1. cbn [value_of fst]. rewrite Hparse.
  rewrite value_of_bind. unfold lift at 1. cbn [value_of fst]. rewrite Hts.
  rewrite value_of_bind, Hfind.
  rewrite (nonempty_true _ Hne).
  rewrite value_of_bind. unfold sha256_file, perform at 1. cbn [value_of fst].
  destruct (file_sha256 w path) as [digest|e]; [| reflexivity].
  rewrite value_of_bind. unfold perform at 1. cbn [value_of fst].
  destruct (getmtime w path) as [mt|e]; reflexivity.
Qed.

(** What [main] does once the record is obtained and the matcher has
    returned no path: the report of no match. *)
Lemma main_without_match w proof ts how :
  record_obtained w proof ts ->
  value_of (find_local_match w (export_dir_of w) proof) = Ok (None, how) ->
  value_of (main w) = Ok 2
  /\ exists used_ns dns_txt,
       printed (trace_of (main w))
       = ["VERDICT: FAIL";
          "DNS NS      : " ++ used_ns;
          "DNS TXT     : " ++ dns_txt;
          "EXPORT_DIR  : " ++ export_dir_of w;
          no_match_line].
Proof.
  intros (env & dns_txt & used_ns & Henv & Hdig & Hparse & Hts) Hfind.
  unfold main.
  rewrite value_of_bind, trace_of_bind, Henv, printed_app, quiet_load_env_file.
  rewrite value_of_bind, trace_of_bind, Hdig, printed_app,
    quiet_dig_txt_authoritative.
  rewrite value_of_bind, trace_of_bind. unfold lift at 1 2 3.
  cbn [value_of trace_of fst snd app]. rewrite Hparse.
  rewrite value_of_bind, trace_of_bind. unfold lift at 1 2 3.
  cbn [value_of trace_of fst snd app]. rewrite Hts.
  rewrite value_of_bind, trace_of_bind, Hfind, printed_app,
    quiet_find_local_match.
  split; [reflexivity |]. exists used_ns, dns_txt. reflexivity.
Qed.

Lemma exit_status_silent_raise w e :
  value_of (main w) = Raise e ->
  exit_status w = 1 /\ printed (trace_of (main w)) = [].
Proof.
  intros He. pose proof (reported_main w) as R.
  unfold exit_status. rewrite He in *. split; [reflexivity | exact R].
Qed.




(** * Further properties *)

(** ** Trimming *)

Section Trimming.

Import Py.

Variable p : ascii -> bool.

Lemma lstrip_by_head s :
  lstrip_by p s = "" \/ exists c r, lstrip_by p s = String c r /\ p c = false.
Proof.
  induction s as [|c r IH]; [left; reflexivity |].
  simpl. destruct (p c) eqn:Hc; [exact IH | right; eauto].
Qed.

Lemma lstrip_by_idem s : lstrip_by p (lstrip_by p s) = lstrip_by p s.
Proof.
  destruct (lstrip_by_head s) as [-> | (c & r & -> & Hc)]; [reflexivity |].
  simpl. rewrite Hc. reflexivity.
Qed.

Lemma rstrip_by_idem s : rstrip_by p (rstrip_by p s) = rstrip_by p s.
Proof.
  induction s as [|c r IH]; [reflexivity |].
  rewrite rstrip_by_cons.
  destruct (negb (nonempty (rstrip_by p r)) && p c)%bool eqn:E; [reflexivity |].
  rewrite rstrip_by_cons, IH, E. reflexivity.
Qed.

Lemma strip_by_idem s : strip_by p (strip_by p s) = strip_by p s.
Proof.
  unfold strip_by.
  rewrite <- (rstrip_lstrip_comm p (lstrip_by p s)).
  rewrite lstrip_by_idem, rstrip_by_idem. reflexivity.
Qed.

Lemma lstrip_by_free s : free_of p s = true -> lstrip_by p s = s.
Proof.
  unfold free_of. destruct s as [|c r]; [reflexivity |].
  simpl. intros [Hc _]%andb_prop. apply negb_true_iff in Hc.
  rewrite Hc. reflexivity.
Qed.

Lemma rstrip_by_free s : free_of p s = true -> rstrip_by p s = s.
Proof.
  unfold free_of. induction s as [|c r IH]; [reflexivity |].
  simpl. intros [Hc Hr]%andb_prop. apply negb_true_iff in Hc.
  rewrite (IH Hr), Hc. destruct r; reflexivity.
Qed.

Lemma strip_by_free s : free_of p s = true -> strip_by p s = s.
Proof.
  intros H. unfold strip_by. rewrite (lstrip_by_free _ H). apply rstrip_by_free, H.
Qed.

(** Trimming removes characters and adds none. *)
Lemma lstrip_by_forall (q : ascii -> bool) s :
  forallb_str q s = true -> forallb_str q (lstrip_by p s) = true.
Proof.
  induction s as [|c r IH]; [reflexivity |].
  simpl. intros H. destruct (p c); [| exact H].
  apply andb_prop in H as [_ H]. auto.
Qed.

Lemma rstrip_by_forall (q : ascii -> bool) s :
  forallb_str q s = true -> forallb_str q (rstrip_by p s) = true.
Proof.
  induction s as [|c r IH]; [reflexivity |].
  rewrite rstrip_by_cons. simpl. intros [Hc Hr]%andb_prop.
  destruct (negb _ && p c)%bool; [reflexivity |].
  simpl. rewrite Hc. auto.
Qed.

Lemma strip_by_forall (q : ascii -> bool) s :
  forallb_str q s = true -> forallb_str q (strip_by p s) = true.
Proof. intros H. apply rstrip_by_forall, lstrip_by_forall, H. Qed.

End Trimming.

(** ** The cleaned payload *)

Section Cleaned.

Import Py.

Lemma forallb_str_app q a b :
  forallb_str q (a ++ b) = (forallb_str q a && forallb_str q b)%bool.
Proof.
  induction a as [|c a IH]; [reflexivity |].
  simpl. rewrite IH, andb_assoc. reflexivity.
Qed.

Lemma free_of_dquote s :
  forallb_str no_dquote s = true -> free_of (is_char dquote) s = true.
Proof.
  unfold free_of, no_dquote, is_char. induction s as [|c r IH]; [reflexivity |].
  cbn [forallb_str]. intros [Hc Hr]%andb_prop.
  rewrite (Ascii.eqb_sym dquote c), Hc. auto.
Qed.

Lemma replace_dquote_clean s :
  forallb_str no_dquote (replace_char dquote "" s) = true.
Proof.
  induction s as [|c r IH]; [reflexivity |].
  simpl. destruct (Ascii.eqb c dquote) eqn:Hc; [exact IH |].
  simpl. unfold no_dquote at 1. rewrite Hc. exact IH.
Qed.

Lemma findall_quoted_from_clean s :
  forall cur,
    match cur with
    | Some seg => forallb_str no_dquote seg = true
    | None => True
    end ->
    List.Forall (fun seg => forallb_str no_dquote seg = true)
                (Re.findall_quoted_from cur s).
Proof.
  induction s as [|c r IH]; intros cur Hcur; [constructor |].
  simpl. destruct cur as [seg|]; destruct (Ascii.eqb c dquote) eqn:Hc.
  - constructor; [exact Hcur | apply IH; exact I].
  - apply IH. rewrite forallb_str_app, Hcur. simpl.
    unfold no_dquote. rewrite Hc. reflexivity.
  - apply IH. reflexivity.
  - apply IH. exact I.
Qed.

Lemma join_clean parts :
  List.Forall (fun seg => forallb_str no_dquote seg = true) parts ->
  forallb_str no_dquote (join "" parts) = true.
Proof.
  unfold join. induction 1 as [|seg rest Hseg Hrest IH]; [reflexivity |].
  destruct rest as [|seg' rest]; [exact Hseg |].
  cbn [String.concat]. rewrite forallb_str_app, Hseg. exact IH.
Qed.

End Cleaned.

(** X1.  Whatever [dig] printed, the cleaned payload holds no double
    quote and has no whitespace at either end; so the trimming of
    whitespace and quotes that [parse_dns_txt] starts with leaves a
    cleaned payload as it is. *)
Theorem clean_dig_txt_is_clean (out : string) :
  Py.forallb_str no_dquote (_clean_dig_txt out) = true
  /\ Py.strip (_clean_dig_txt out) = _clean_dig_txt out
  /\ Py.strip_char Py.dquote (Py.strip (_clean_dig_txt out)) = _clean_dig_txt out.
Proof.
  assert (H : exists x, _clean_dig_txt out = Py.strip x
                        /\ Py.forallb_str no_dquote x = true).
  { unfold _clean_dig_txt.
    destruct (Py.nonempty (Py.strip out)); cbn [negb].
    - destruct (Re.findall_quoted (Py.strip out)) as [|seg rest] eqn:E.
      + eexists. split; [reflexivity | apply replace_dquote_clean].
      + eexists. split; [reflexivity |]. apply join_clean.
        rewrite <- E. apply (findall_quoted_from_clean _ None). exact I.
    - exists "". split; reflexivity. }
  destruct H as (x & -> & Hx).
  assert (Hclean : Py.forallb_str no_dquote (Py.strip x) = true)
    by (apply strip_by_forall, Hx).
  assert (Hidem : Py.strip (Py.strip x) = Py.strip x) by apply strip_by_idem.
  split; [exact Hclean | split; [exact Hidem |]].
  rewrite Hidem. apply strip_by_free, free_of_dquote, Hclean.
Qed.

(** ** The fetch *)

Section FetchMore.

Variable w : World.
Variable name : string.

Lemma authoritative_loop_first_success pre ns post out :
  forall acc,
    (forall n, In n pre -> query_failed w name n) ->
    value_of (run w (txt_query (Some ns) name)) = Ok out ->
    _clean_dig_txt out <> "" ->
    authoritative_loop w name (pre ++ ns :: post) acc
    = (Ok (inl (_clean_dig_txt out, ns)), txt_events name (pre ++ [ns])).
Proof.
  induction pre as [|n pre IH]; intros acc Hpre Hout Hne.
  - cbn [app authoritative_loop txt_events map].
    rewrite (bind_ok _ _ _ _ (attempt_run w _)), Hout.
    destruct (_clean_dig_txt out); [contradiction | reflexivity].
  - cbn [app authoritative_loop txt_events map].
    rewrite (bind_ok _ _ _ _ (attempt_run w _)).
    assert (Hn : query_failed w name n) by (apply Hpre; left; reflexivity).
    assert (Hrest : forall m, In m pre -> query_failed w name m)
      by (intros m Hm; apply Hpre; right; exact Hm).
    unfold query_failed in Hn.
    destruct (value_of (run w (txt_query (Some n) name))) as [o|e].
    + rewrite Hn. cbn [Py.nonempty]. rewrite (IH acc Hrest Hout Hne). reflexivity.
    + rewrite (IH (Some e) Hrest Hout Hne). reflexivity.
Qed.

(** The loop never raises, and what it returns from inside is the
    non-empty cleaned answer of a nameserver of the list. *)
Lemma authoritative_loop_value ns_list :
  forall acc,
    match value_of (authoritative_loop w name ns_list acc) with
    | Ok (inl (txt, ns)) =>
        In ns ns_list /\ txt <> ""
        /\ exists out,
             value_of (run w (txt_query (Some ns) name)) = Ok out
             /\ txt = _clean_dig_txt out
    | Ok (inr _) => forall ns, In ns ns_list -> query_failed w name ns
    | Raise _ => False
    end.
Proof.
  induction ns_list as [|n rest IH]; intros acc.
  - cbn. intros ns [].
  - cbn [authoritative_loop].
    rewrite (bind_ok _ _ _ _ (attempt_run w _)). cbn [value_of fst].
    destruct (value_of (run w (txt_query (Some n) name))) as [out|e] eqn:E.
    + destruct (_clean_dig_txt out) as [|c r] eqn:Ec; cbn [Py.nonempty].
      * specialize (IH acc).
        destruct (value_of (authoritative_loop w name rest acc))
          as [[[txt ns] | last]|e']; [| | exact IH].
        -- destruct IH as (Hin & Hne & Hout). split; [right; exact Hin | auto].
        -- intros ns [<- | Hns]; [| exact (IH ns Hns)].
           unfold query_failed. rewrite E. exact Ec.
      * cbn. split; [left; reflexivity |]. split; [discriminate |].
        exists out. rewrite Ec. auto.
    + specialize (IH (Some e)).
      destruct (value_of (authoritative_loop w name rest (Some e)))
        as [[[txt ns] | last]|e']; [| | exact IH].
      * destruct IH as (Hin & Hne & Hout). split; [right; exact Hin | auto].
      * intros ns [<- | Hns]; [| exact (IH ns Hns)].
        unfold query_failed. rewrite E. exact I.
Qed.

End FetchMore.

(** X2.  The first nameserver of the list whose answer is not empty
    decides: the fetch returns its cleaned payload with its name, and
    after the queries at the silent nameservers before it and at itself
    nothing more is issued, so the nameservers after it are never
    asked. *)
Theorem first_answering_nameserver_wins (w : World) (name zone : string)
    (pre : list string) (ns : string) (post : list string)
    (t0 : list event) (out : string) :
  nameserver_list w zone = (Ok (pre ++ ns :: post)%list, t0) ->
  (forall n, In n pre -> query_failed w name n) ->
  value_of (run w (txt_query (Some ns) name)) = Ok out ->
  _clean_dig_txt out <> "" ->
  dig_txt_authoritative w name zone
  = (Ok (_clean_dig_txt out, ns), (t0 ++ txt_events name (pre ++ [ns]))%list).
Proof.
  intros Hlist Hpre Hout Hne. unfold dig_txt_authoritative.
  rewrite (bind_ok _ _ _ _ Hlist).
  rewrite (bind_ok _ _ _ _
             (authoritative_loop_first_success w name pre ns post out None
                Hpre Hout Hne)).
  cbn. rewrite app_nil_r. reflexivity.
Qed.

(** X3.  With the fallback flag set to 1 and every nameserver of the
    list silent, the system default resolver is asked once, after all of
    them; a non-empty answer is returned with the tag SYSTEM_RESOLVER,
    an empty one gives the "No TXT returned" error, and a failure of
    that last command raises its own error. *)
Theorem fallback_to_system_resolver (w : World) (name zone : string)
    (ns_list : list string) (t0 : list event) :
  nameserver_list w zone = (Ok ns_list, t0) ->
  (forall ns, In ns ns_list -> query_failed w name ns) ->
  getenv w "POA_DNS_ALLOW_SYSTEM_RESOLVER" "0" = "1" ->
  dig_txt_authoritative w name zone
  = (match value_of (run w (txt_query None name)) with
     | Ok out =>
         if Py.nonempty (_clean_dig_txt out)
         then Ok (_clean_dig_txt out, "SYSTEM_RESOLVER")
         else Raise (RuntimeError
                       (no_txt_message name zone (last_error w name ns_list None)))
     | Raise e => Raise e
     end,
     (t0 ++ txt_events name ns_list ++ [EvRun (txt_query None name)])%list).
Proof.
  intros Hlist Hall Hflag. unfold dig_txt_authoritative.
  rewrite (bind_ok _ _ _ _ Hlist).
  rewrite (bind_ok _ _ _ _ (authoritative_loop_all_failed w name ns_list None Hall)).
  rewrite Hflag. cbn [String.eqb Ascii.eqb Bool.eqb].
  pose proof (trace_of_run w (txt_query None name)) as T.
  destruct (run w (txt_query None name)) as [[out|e] t];
    cbn [trace_of snd] in T; subst t; cbn [value_of fst bind].
  - destruct (Py.nonempty (_clean_dig_txt out));
      cbn; rewrite ?app_nil_r; reflexivity.
  - cbn. reflexivity.
Qed.

(** X4.  A payload the fetch returns is never empty.  It is the cleaned
    answer of a nameserver of the list, returned with that nameserver's
    name, or else the cleaned answer of the system default resolver,
    returned with the tag SYSTEM_RESOLVER, which happens only when the
    fallback flag is 1. *)
Theorem fetched_payload_origin (w : World) (name zone txt src : string) :
  value_of (dig_txt_authoritative w name zone) = Ok (txt, src) ->
  txt <> ""
  /\ ((exists ns_list out,
          value_of (nameserver_list w zone) = Ok ns_list
          /\ In src ns_list
          /\ value_of (run w (txt_query (Some src) name)) = Ok out
          /\ txt = _clean_dig_txt out)
      \/ (src = "SYSTEM_RESOLVER"
          /\ getenv w "POA_DNS_ALLOW_SYSTEM_RESOLVER" "0" = "1"
          /\ exists out,
               value_of (run w (txt_query None name)) = Ok out
               /\ txt = _clean_dig_txt out)).
Proof.
  unfold dig_txt_authoritative. rewrite value_of_bind.
  destruct (value_of (nameserver_list w zone)) as [ns_list|e]; [| discriminate].
  rewrite value_of_bind.
  pose proof (authoritative_loop_value w name ns_list None) as L.
  destruct (value_of (authoritative_loop w name ns_list None))
    as [[[txt' ns] | last]|e]; [| | contradiction].
  - cbn. intros [= -> ->]. destruct L as (Hin & Hne & out & Hout & ->).
    split; [exact Hne |]. left. exists ns_list, out. auto.
  - rewrite value_of_bind.
    destruct (String.eqb_spec (getenv w "POA_DNS_ALLOW_SYSTEM_RESOLVER" "0") "1")
      as [Hflag | _]; [| cbn; discriminate].
    rewrite value_of_bind.
    destruct (value_of (run w (txt_query None name))) as [out|e]; [| discriminate].
    destruct (_clean_dig_txt out) as [|c r] eqn:Ec; cbn; [discriminate |].
    intros [= <- <-]. split; [discriminate |]. right.
    split; [reflexivity | split; [exact Hflag |]]. exists out. auto.
Qed.

Lemma first_answering_nameserver_wins_witness :
  dig_txt_authoritative answering_world "_poa.uptimeproof.io" "uptimeproof.io"
  = (Ok (published_record, "ns2.example.net"),
     [EvRun (ns_query "uptimeproof.io");
      EvRun (txt_query (Some "ns1.example.net") "_poa.uptimeproof.io");
      EvRun (txt_query (Some "ns2.example.net") "_poa.uptimeproof.io")]).
Proof.
  apply (first_answering_nameserver_wins answering_world
           "_poa.uptimeproof.io" "uptimeproof.io"
           ["ns1.example.net"] "ns2.example.net" ["ns3.example.net"]
           [EvRun (ns_query "uptimeproof.io")]
           (Py.DQ ++ published_record ++ Py.DQ)).
  - reflexivity.
  - intros n [<- | []]. exact I.
  - reflexivity.
  - vm_compute. discriminate.
Defined.

Lemma fallback_to_system_resolver_witness :
  dig_txt_authoritative fallback_world "_poa.uptimeproof.io" "uptimeproof.io"
  = (Ok ("from the system resolver", "SYSTEM_RESOLVER"),
     [EvRun (ns_query "uptimeproof.io");
      EvRun (txt_query (Some "ns1.example.net") "_poa.uptimeproof.io");
      EvRun (txt_query (Some "ns2.example.net") "_poa.uptimeproof.io");
      EvRun (txt_query None "_poa.uptimeproof.io")]).
Proof.
  apply (fallback_to_system_resolver fallback_world
           "_poa.uptimeproof.io" "uptimeproof.io"
           ["ns1.example.net"; "ns2.example.net"]
           [EvRun (ns_query "uptimeproof.io")]).
  - reflexivity.
  - intros ns [<- | [<- | []]]; vm_compute; auto.
  - reflexivity.
Defined.

Lemma fetched_payload_origin_witness :
  published_record <> ""
  /\ In "ns2.example.net" ["ns1.example.net"; "ns2.example.net"; "ns3.example.net"].
Proof.
  destruct (fetched_payload_origin answering_world
              "_poa.uptimeproof.io" "uptimeproof.io"
              published_record "ns2.example.net" eq_refl)
    as [Hne [(l & out & Hl & Hin & _) | (H & _)]].
  - split; [exact Hne |]. vm_compute in Hl. injection Hl as <-. exact Hin.
  - discriminate H.
Defined.

Lemma ns_entries_trimmed xs :
  List.Forall (fun ns => Py.rstrip_char "." ns = ns
                         /\ Py.lstrip_by Py.is_space ns = ns)
              (ns_entries xs).
Proof.
  unfold ns_entries. apply List.Forall_forall. intros ns Hin.
  apply in_map_iff in Hin as (x & <- & _).
  split; [apply rstrip_by_idem |].
  unfold Py.rstrip_char, Py.strip, Py.strip_by.
  rewrite rstrip_lstrip_comm.
  destruct (lstrip_by_head Py.is_space (Py.rstrip_by Py.is_space x))
    as [-> | (c & r & -> & Hc)]; [reflexivity |].
  rewrite rstrip_by_cons.
  destruct (negb _ && _)%bool; [reflexivity |].
  simpl. rewrite Hc. reflexivity.
Qed.

(** X5.  Whether it comes from the override or from the NS lookup, no
    nameserver of the list ends with a dot or begins with whitespace:
    the name given to [dig] after the at sign is the normalised one. *)
Theorem nameserver_names_are_normalised (w : World) (zone : string)
    (ns_list : list string) :
  value_of (nameserver_list w zone) = Ok ns_list ->
  List.Forall (fun ns => Py.rstrip_char "." ns = ns
                         /\ Py.lstrip_by Py.is_space ns = ns)
              ns_list.
Proof.
  unfold nameserver_list.
  destruct (Py.nonempty _).
  - intros [= <-]. apply ns_entries_trimmed.
  - unfold _get_authoritative_ns. rewrite value_of_bind.
    destruct (value_of (run w (ns_query zone))) as [out|e]; [| discriminate].
    intros [= <-]. apply ns_entries_trimmed.
Qed.

Lemma nameserver_names_are_normalised_witness :
  List.Forall (fun ns => Py.rstrip_char "." ns = ns
                         /\ Py.lstrip_by Py.is_space ns = ns)
              ["ns1.example.net"; "ns2.example.net"].
Proof.
  exact (nameserver_names_are_normalised override_world "uptimeproof.io"
           ["ns1.example.net"; "ns2.example.net"] eq_refl).
Defined.

(** ** Reading a published record back *)

Section RoundTrip.

Import Py.

Lemma rstrip_by_keeps_end p a b :
  b <> "" -> rstrip_by p b = b ->
  a ++ b <> "" /\ rstrip_by p (a ++ b) = a ++ b.
Proof.
  intros Hne Hb. induction a as [|c a [IHne IH]].
  - split; assumption.
  - split; [discriminate |].
    cbn [append]. rewrite rstrip_by_cons, IH.
    destruct (a ++ b); [contradiction | reflexivity].
Qed.

Lemma lstrip_by_keeps_head p c r : p c = false -> lstrip_by p (String c r) = String c r.
Proof. intros H. simpl. rewrite H. reflexivity. Qed.

Lemma hex_is_plain c :
  Re.is_hex c = true ->
  is_space c = false /\ is_char dquote c = false
  /\ Ascii.eqb "I" c = false /\ Ascii.eqb c ";" = false.
Proof.
  destruct c as [[] [] [] [] [] [] [] []]; vm_compute; intros H;
    repeat split; congruence.
Qed.

Lemma hex_free_of p h :
  (forall c, Re.is_hex c = true -> p c = false) ->
  forallb_str Re.is_hex h = true -> free_of p h = true.
Proof.
  intros Hp. unfold free_of. induction h as [|c h IH]; [reflexivity |].
  simpl. intros [Hc Hh]%andb_prop. rewrite (Hp c Hc). auto.
Qed.

Lemma free_of_imp (p q : ascii -> bool) s :
  (forall c, q c = true -> p c = true) ->
  free_of p s = true -> free_of q s = true.
Proof.
  intros Hpq. unfold free_of. induction s as [|c s IH]; [reflexivity |].
  simpl. intros [Hc Hs]%andb_prop. rewrite (IH Hs), andb_true_r.
  destruct (q c) eqn:Hq; [| reflexivity].
  rewrite (Hpq c Hq) in Hc. discriminate Hc.
Qed.

Lemma take_while_all p s : forallb_str p s = true -> take_while p s = s.
Proof.
  induction s as [|c s IH]; [reflexivity |].
  simpl. intros [Hc Hs]%andb_prop. rewrite Hc, (IH Hs). reflexivity.
Qed.

Lemma take_while_stop p s c r :
  forallb_str p s = true -> p c = false -> take_while p (s ++ String c r) = s.
Proof.
  intros Hs Hc. induction s as [|a s IH].
  - simpl. rewrite Hc. reflexivity.
  - simpl in *. apply andb_prop in Hs as [Ha Hs]. rewrite Ha, (IH Hs). reflexivity.
Qed.

Lemma search_field_skip m0 m' pre s :
  free_of (Ascii.eqb m0) pre = true ->
  Re.search_field (String m0 m') (pre ++ s) = Re.search_field (String m0 m') s.
Proof.
  unfold free_of. induction pre as [|c pre IH]; [reflexivity |].
  cbn [forallb_str append Re.search_field startswith].
  intros [Hc Hpre]%andb_prop. apply negb_true_iff in Hc.
  rewrite Hc. cbn [andb]. auto.
Qed.

Lemma search_sha256_skip pre s :
  free_of (Ascii.eqb "S") pre = true ->
  Re.search_sha256 (pre ++ s) = Re.search_sha256 s.
Proof.
  unfold free_of. induction pre as [|c pre IH]; [reflexivity |].
  cbn [forallb_str append Re.search_sha256 startswith].
  intros [Hc Hpre]%andb_prop. apply negb_true_iff in Hc.
  rewrite Hc. cbn [andb]. auto.
Qed.

Lemma search_sha256_here h s :
  String.length h = 64%nat -> forallb_str Re.is_hex h = true ->
  Re.search_sha256 ("SHA256=" ++ h ++ s) = Some h.
Proof.
  intros L F. cbn. unfold Re.hex64_after. cbn [String.length drop append].
  rewrite <- L, take_append, Nat.eqb_refl, F. reflexivity.
Qed.

(** No [FILE=] starts inside a run of hexadecimal characters that is
    followed by a semicolon or by nothing. *)
Lemma search_file_skip_hex h s :
  forallb_str Re.is_hex h = true ->
  s = "" \/ startswith ";" s = true ->
  Re.search_field "FILE=" (h ++ s) = Re.search_field "FILE=" s.
Proof.
  intros F Hs. induction h as [|c h IH]; [reflexivity |].
  simpl in F. apply andb_prop in F as [Hc Hh].
  cbn [append Re.search_field].
  replace (startswith "FILE=" (String c (h ++ s))) with false; [exact (IH Hh) |].
  symmetry. cbn [startswith].
  destruct (Ascii.eqb "F" c); [| reflexivity]. cbn [andb].
  destruct h as [|c' h].
  - destruct Hs as [-> | Hs]; [reflexivity |].
    destruct s as [|c0 s]; [reflexivity |].
    cbn [startswith] in Hs. apply andb_prop in Hs as [Hs _].
    apply Ascii.eqb_eq in Hs. subst c0. reflexivity.
  - simpl in Hh. apply andb_prop in Hh as [Hc' _].
    cbn [append startswith].
    destruct (hex_is_plain c' Hc') as (_ & _ & -> & _). reflexivity.
Qed.

Lemma search_field_here marker v s :
  v <> "" -> forallb_str Re.not_semicolon v = true ->
  s = "" \/ startswith ";" s = true ->
  marker <> "" ->
  Re.search_field marker (marker ++ v ++ s) = Some v.
Proof.
  intros Hv Fv Hs Hm.
  assert (Htake : take_while Re.not_semicolon (v ++ s) = v).
  { destruct Hs as [-> | Hs].
    - rewrite append_empty_r. apply take_while_all, Fv.
    - destruct s as [|c s]; [discriminate |].
      cbn [startswith] in Hs. apply andb_prop in Hs as [Hs _].
      apply Ascii.eqb_eq in Hs. subst c. apply take_while_stop; [exact Fv | reflexivity]. }
  destruct (marker ++ v ++ s) as [|c r] eqn:E.
  - destruct marker; [contradiction | discriminate].
  - cbn [Re.search_field]. rewrite <- E.
    rewrite startswith_append, drop_append, Htake.
    destruct v; [contradiction | reflexivity].
Qed.

End RoundTrip.

(** X6.  A record written in the published format reads back: for a
    timestamp that is not empty and holds no semicolon and no letter S
    or F, a hash of 64 hexadecimal characters in any case, and a
    filename, when there is one, without semicolon and not ending in
    whitespace or a quote, [parse_dns_txt] returns that timestamp, the
    hash in lower case and that filename (or none). *)
Theorem parse_dns_txt_round_trip (ts h : string) (file : option string) :
  ts <> "" ->
  free_of breaks_timestamp ts = true ->
  String.length h = 64%nat ->
  Py.forallb_str Re.is_hex h = true ->
  readable_field file ->
  parse_dns_txt (render_proof ts h file)
  = Ok {| ts_iso := ts; sha256 := Py.lower h; filename := file |}.
Proof.
  intros Hts Fts L Fh Hfile.
  set (tail := match file with Some f => ";FILE=" ++ f | None => "" end).
  assert (Htail : tail = "" \/ Py.startswith ";" tail = true)
    by (subst tail; destruct file; [right | left]; reflexivity).
  assert (Hsemi : Py.forallb_str Re.not_semicolon ts = true
                  /\ free_of (Ascii.eqb "S") ts = true
                  /\ free_of (Ascii.eqb "F") ts = true).
  { split; [| split].
    - apply (free_of_imp breaks_timestamp (fun c => Ascii.eqb c ";")); [| exact Fts].
      intros c Hc. unfold breaks_timestamp. rewrite Hc. reflexivity.
    - apply (free_of_imp breaks_timestamp (Ascii.eqb "S")); [| exact Fts].
      intros c Hc%Ascii.eqb_eq. subst c. reflexivity.
    - apply (free_of_imp breaks_timestamp (Ascii.eqb "F")); [| exact Fts].
      intros c Hc%Ascii.eqb_eq. subst c. reflexivity. }
  destruct Hsemi as (Fsemi & FS & FF).
  (* the end of the record is neither whitespace nor a quote *)
  assert (Hend : h ++ tail <> ""
                 /\ Py.rstrip_by Py.is_space (h ++ tail) = h ++ tail
                 /\ Py.rstrip_char Py.dquote (h ++ tail) = h ++ tail).
  { assert (Hh : h <> "") by (intros ->; discriminate L).
    assert (Hh1 : Py.rstrip_by Py.is_space h = h).
    { apply rstrip_by_free, hex_free_of; [| exact Fh].
      intros c Hc. apply (hex_is_plain c Hc). }
    assert (Hh2 : Py.rstrip_char Py.dquote h = h).
    { apply rstrip_by_free, hex_free_of; [| exact Fh].
      intros c Hc. apply (hex_is_plain c Hc). }
    subst tail. destruct file as [f|].
    - destruct Hfile as (_ & Hf & Hf1 & Hf2).
      destruct (rstrip_by_keeps_end Py.is_space ";FILE=" f Hf Hf1) as [N1 E1].
      destruct (rstrip_by_keeps_end (Py.is_char Py.dquote) ";FILE=" f Hf Hf2)
        as [_ E2].
      destruct (rstrip_by_keeps_end Py.is_space h _ N1 E1) as [N3 E3].
      destruct (rstrip_by_keeps_end (Py.is_char Py.dquote) h _ N1 E2) as [_ E4].
      auto.
    - rewrite append_empty_r. auto. }
  destruct Hend as (Ne & E1 & E2).
  assert (Hstrip : Py.strip_char Py.dquote (Py.strip (render_proof ts h file))
                   = render_proof ts h file).
  { unfold render_proof. fold tail.
    destruct (rstrip_by_keeps_end Py.is_space ("TS=" ++ ts ++ ";SHA256=")
                (h ++ tail) Ne E1) as [_ R1].
    destruct (rstrip_by_keeps_end (Py.is_char Py.dquote) ("TS=" ++ ts ++ ";SHA256=")
                (h ++ tail) Ne E2) as [_ R2].
    rewrite !append_assoc in R1, R2.
    unfold Py.strip_char, Py.strip, Py.strip_by.
    cbn [append] in *.
    rewrite (lstrip_by_keeps_head Py.is_space) by reflexivity.
    rewrite R1.
    rewrite (lstrip_by_keeps_head (Py.is_char Py.dquote)) by reflexivity.
    exact R2. }
  unfold parse_dns_txt. rewrite Hstrip. unfold render_proof. fold tail.
  assert (Hs1 : Re.search_field "TS=" ("TS=" ++ ts ++ ";SHA256=" ++ h ++ tail)
                = Some ts).
  { apply search_field_here; [exact Hts | exact Fsemi | | discriminate].
    right. reflexivity. }
  assert (Hs2 : Re.search_sha256 ("TS=" ++ ts ++ ";SHA256=" ++ h ++ tail) = Some h).
  { change ("TS=" ++ ts ++ ";SHA256=" ++ h ++ tail)
      with (String "T" (String "S" (String "=" (ts ++ String ";" ("SHA256=" ++ h ++ tail))))).
    cbn [Re.search_sha256 Py.startswith Ascii.eqb Bool.eqb andb].
    rewrite (search_sha256_skip ts _ FS).
    cbn [Re.search_sha256 Py.startswith Ascii.eqb Bool.eqb andb].
    apply search_sha256_here; assumption. }
  assert (Hs3 : Re.search_field "FILE=" ("TS=" ++ ts ++ ";SHA256=" ++ h ++ tail)
                = file).
  { rewrite (search_field_skip "F" "ILE=" "TS=") by reflexivity.
    rewrite (search_field_skip "F" "ILE=" ts) by exact FF.
    rewrite (search_field_skip "F" "ILE=" ";SHA256=") by reflexivity.
    rewrite (search_file_skip_hex h tail Fh Htail).
    subst tail. destruct file as [f|]; [| reflexivity].
    destruct Hfile as (Ff & Hf & _).
    change (";FILE=" ++ f) with (";" ++ "FILE=" ++ f).
    rewrite (search_field_skip "F" "ILE=" ";" ("FILE=" ++ f)) by reflexivity.
    rewrite <- (append_empty_r f) at 1.
    apply search_field_here; [exact Hf | | left; reflexivity | discriminate].
    unfold free_of, Re.not_semicolon in *. exact Ff. }
  rewrite Hs1, Hs2, Hs3. reflexivity.
Qed.

Lemma parse_dns_txt_round_trip_witness :
  parse_dns_txt (render_proof "2024-01-01T00:00:00Z" hex64_example
                   (Some "heartbeats_1.json"))
  = Ok {| ts_iso := "2024-01-01T00:00:00Z";
          sha256 := Py.lower hex64_example;
          filename := Some "heartbeats_1.json" |}.
Proof.
  apply (parse_dns_txt_round_trip "2024-01-01T00:00:00Z" hex64_example
           (Some "heartbeats_1.json")).
  - discriminate.
  - reflexivity.
  - reflexivity.
  - reflexivity.
  - repeat split. discriminate.
Defined.

(** ** The configuration file *)

Lemma env_line_parse (d : gmap string string) (line : string) :
  env_line d line =
  match parse_env_line line with
  | Some (k, v) => <[k := v]> d
  | None => d
  end.
Proof.
  unfold env_line, parse_env_line.
  destruct (negb _ || _ || _)%bool; [reflexivity |].
  destruct (Py.partition_char "=" (Py.strip line)). reflexivity.
Qed.

Lemma snoc_split {T} (l l1 l2 : list T) (x y : T) :
  (l ++ [x] = l1 ++ y :: l2)%list ->
  (l2 = [] /\ l = l1 /\ x = y)
  \/ (exists l2', l2 = (l2' ++ [x])%list /\ l = (l1 ++ y :: l2')%list).
Proof.
  destruct (List.exists_last (l := y :: l2)) as (l2' & z & E); [discriminate |].
  intros H.
  destruct l2' as [|y' l2'].
  - left. injection E as <- ->.
    apply (app_inj_tail l l1) in H as [-> ->]. auto.
  - right. injection E as <- ->.
    rewrite app_comm_cons, app_assoc in H.
    apply app_inj_tail in H as [-> ->].
    exists l2'. auto.
Qed.

Lemma fold_env_line_lookup (lines : list string) (key v : string) :
  fold_left env_line lines ∅ !! key = Some v <-> last_assignment lines key v.
Proof.
  revert v. induction lines as [|x lines IH] using rev_ind; intros v.
  - cbn [fold_left].
    split; [intros H; rewrite lookup_empty in H; discriminate H |].
    intros (l1 & line & l2 & E & _). destruct l1; discriminate E.
  - rewrite fold_left_app. cbn [fold_left]. rewrite env_line_parse.
    set (d := fold_left env_line lines ∅) in *.
    assert (Hkeep : ~ defines key x ->
                    (d !! key = Some v <-> last_assignment (lines ++ [x]) key v)).
    { intros Hx. rewrite IH. split.
      - intros (l1 & line & l2 & -> & Hp & Hno).
        exists l1, line, (l2 ++ [x])%list.
        split; [rewrite <- app_assoc; reflexivity | split; [exact Hp |]].
        intros l [Hl | [<- | []]]%in_app_or; [exact (Hno l Hl) | exact Hx].
      - intros (l1 & line & l2 & E & Hp & Hno).
        apply snoc_split in E as [(-> & -> & ->) | (l2' & -> & ->)].
        + exfalso. apply Hx. exists v. exact Hp.
        + exists l1, line, l2'. split; [reflexivity | split; [exact Hp |]].
          intros l Hl. apply Hno, in_or_app. left. exact Hl. }
    destruct (parse_env_line x) as [[k v']|] eqn:Ex.
    + destruct (String.eqb_spec k key) as [-> | Hne].
      * rewrite lookup_insert_eq. split.
        -- intros [= <-]. exists lines, x, []. split; [reflexivity |].
           split; [exact Ex | intros l []].
        -- intros (l1 & line & l2 & E & Hp & Hno).
           apply snoc_split in E as [(-> & -> & ->) | (l2' & -> & ->)].
           ++ congruence.
           ++ exfalso. apply (Hno x); [apply in_or_app; right; left; reflexivity |].
              exists v'. exact Ex.
      * rewrite lookup_insert_ne by exact Hne. apply Hkeep.
        intros [v0 H0]. congruence.
    + apply Hkeep. intros [v0 H0]. congruence.
Qed.

(** X7.  When the configuration file exists and can be read, it is
    tested and read once, and the value the dictionary holds for a key
    is the one assigned by the last line that assigns that key; keys and
    values are stored trimmed, and blank lines, comment lines and lines
    without an equals sign assign nothing. *)
Theorem load_env_file_last_assignment_wins (w : World) (path text : string) :
  path_exists w path = true ->
  read_text w path = Ok text ->
  exists env,
    load_env_file w path = (Ok env, [EvExists path; EvReadText path])
    /\ (forall key v,
          env !! key = Some v <-> last_assignment (Py.splitlines text) key v)
    /\ (forall key v,
          env !! key = Some v -> Py.strip key = key /\ Py.strip v = v).
Proof.
  intros Hex Hread.
  exists (fold_left env_line (Py.splitlines text) ∅).
  split; [| split].
  - unfold load_env_file, perform. rewrite Hex, Hread. reflexivity.
  - intros key v. apply fold_env_line_lookup.
  - intros key v (l1 & line & l2 & _ & Hp & _)%fold_env_line_lookup.
    unfold parse_env_line in Hp.
    destruct (negb _ || _ || _)%bool; [discriminate |].
    destruct (Py.partition_char "=" (Py.strip line)) as [k0 v0].
    injection Hp as <- <-. split; apply strip_by_idem.
Qed.

Lemma load_env_file_last_assignment_wins_witness :
  exists env,
    value_of (load_env_file configured_world ENV_FILE) = Ok env
    /\ env !! "DNS_NAME" = Some "_poa.example.org"
    /\ env !! "DNS_ZONE" = Some "example.org".
Proof.
  destruct (load_env_file_last_assignment_wins configured_world ENV_FILE
              poa_env_text eq_refl eq_refl) as (env & E & Hlast & _).
  exists env. split; [rewrite E; reflexivity |].
  split; apply Hlast.
  - exists ["# proof of availability"; "DNS_NAME = _old.example.org";
            "  DNS_ZONE=example.org  "; "no assignment here"],
           "DNS_NAME=_poa.example.org", [].
    split; [reflexivity | split; [reflexivity | intros l []]].
  - exists ["# proof of availability"; "DNS_NAME = _old.example.org"],
           "  DNS_ZONE=example.org  ",
           ["no assignment here"; "DNS_NAME=_poa.example.org"].
    split; [reflexivity | split; [reflexivity |]].
    intros l [<- | [<- | []]] [v Hv]; vm_compute in Hv; discriminate Hv.
Defined.

(** ** What the program reads of its environment *)

Lemma bind_ext {A B} (m : M A) (k1 k2 : A -> M B) :
  (forall a, k1 a = k2 a) -> bind m k1 = bind m k2.
Proof.
  intros H. destruct m as [[a|e] t]; [| reflexivity]. simpl. rewrite H. reflexivity.
Qed.

Section Frame.

Variables w1 w2 : World.
Hypothesis Hhost : same_host w1 w2.
Hypothesis Hsettings : same_settings w1 w2.

Lemma frame_run cmd : run w1 cmd = run w2 cmd.
Proof. unfold run. destruct Hhost as (-> & _). reflexivity. Qed.

Lemma frame_authoritative_loop name ns_list :
  forall acc,
    authoritative_loop w1 name ns_list acc = authoritative_loop w2 name ns_list acc.
Proof.
  induction ns_list as [|ns rest IH]; intros acc; [reflexivity |].
  cbn [authoritative_loop]. rewrite frame_run. apply bind_ext.
  intros [out|e]; [| apply IH].
  destruct (Py.nonempty (_clean_dig_txt out)); [reflexivity | apply IH].
Qed.

Lemma frame_getenv k d : In k environment_keys -> getenv w1 k d = getenv w2 k d.
Proof. intros H. unfold getenv. rewrite (Hsettings k H). reflexivity. Qed.

Lemma frame_dig_txt_authoritative name zone :
  dig_txt_authoritative w1 name zone = dig_txt_authoritative w2 name zone.
Proof.
  unfold dig_txt_authoritative, nameserver_list, _get_authoritative_ns.
  rewrite (frame_getenv "POA_DNS_NS_OVERRIDE") by (simpl; auto).
  rewrite (frame_getenv "POA_DNS_ALLOW_SYSTEM_RESOLVER") by (simpl; auto).
  rewrite !frame_run. apply bind_ext. intros ns_list.
  rewrite frame_authoritative_loop. reflexivity.
Qed.

Lemma frame_getmtime f : getmtime w1 f = getmtime w2 f.
Proof. unfold getmtime. destruct Hhost as (_ & -> & _). reflexivity. Qed.

Lemma frame_mtime : mtime w1 = mtime w2.
Proof.
  unfold mtime, getmtime. destruct Hhost as (_ & -> & _). reflexivity.
Qed.

Lemma frame_path_exists f : path_exists w1 f = path_exists w2 f.
Proof. unfold path_exists. destruct Hhost as (_ & -> & _). reflexivity. Qed.

Lemma frame_read_keys files : read_keys w1 files = read_keys w2 files.
Proof.
  induction files as [|f rest IH]; [reflexivity |].
  cbn [read_keys]. rewrite frame_getmtime.
  apply bind_ext. intros _. exact IH.
Qed.

Lemma frame_hash_scan sha files : hash_scan w1 sha files = hash_scan w2 sha files.
Proof.
  induction files as [|f rest IH]; [reflexivity |].
  cbn [hash_scan]. unfold sha256_file.
  destruct Hhost as (_ & _ & _ & _ & -> & _).
  apply bind_ext. intros [h|e]; [| exact IH].
  destruct (String.eqb (Py.lower h) sha); [reflexivity | exact IH].
Qed.

Lemma frame_newest_files export_dir n :
  newest_files w1 export_dir n = newest_files w2 export_dir n.
Proof.
  unfold newest_files. rewrite frame_mtime.
  destruct Hhost as (_ & _ & _ & -> & _).
  apply bind_ext. intros files. rewrite frame_read_keys. reflexivity.
Qed.

Lemma frame_find_local_match export_dir proof :
  find_local_match w1 export_dir proof = find_local_match w2 export_dir proof.
Proof.
  unfold find_local_match. rewrite frame_newest_files.
  destruct (filename proof) as [name|];
    [rewrite frame_path_exists |];
    (apply bind_ext; intros [candidate|]; [reflexivity |]);
    apply bind_ext; intros files; apply frame_hash_scan.
Qed.

Lemma frame_main : main w1 = main w2.
Proof.
  unfold main, load_env_file, dns_zone_of, export_dir_of, iso_to_unix, sha256_file.
  rewrite (Hsettings "DNS_ZONE") by (simpl; auto).
  rewrite (Hsettings "POA_EXPORT_DIR") by (simpl; auto).
  rewrite frame_path_exists.
  destruct Hhost as (_ & _ & -> & _ & -> & -> & ->).
  apply bind_ext. intros env.
  rewrite frame_dig_txt_authoritative.
  apply bind_ext. intros [dns_txt used_ns].
  apply bind_ext. intros proof.
  apply bind_ext. intros dns_ts_unix.
  rewrite frame_find_local_match.
  apply bind_ext. intros [[path|] how]; [| reflexivity].
  destruct (Py.nonempty path); [| reflexivity].
  apply bind_ext. intros digest. rewrite frame_getmtime. reflexivity.
Qed.

End Frame.



(** ** More on the local matcher *)

Lemma find_split {T} (p : T -> bool) (l : list T) (x : T) :
  List.find p l = Some x ->
  exists l1 l2,
    l = (l1 ++ x :: l2)%list /\ p x = true /\ forall y, In y l1 -> p y = false.
Proof.
  induction l as [|a l IH]; [discriminate |].
  simpl. destruct (p a) eqn:Ha.
  - intros [= ->]. exists [], l. split; [reflexivity | split; [exact Ha | intros y []]].
  - intros (l1 & l2 & -> & Hx & Hl1)%IH.
    exists (a :: l1), l2. split; [reflexivity | split; [exact Hx |]].
    intros y [<- | Hy]; auto.
Qed.

Lemma sorted_prefix {T} (R : T -> T -> Prop) (l1 l2 : list T) :
  StronglySorted R (l1 ++ l2)%list ->
  StronglySorted R l1 /\ forall a b, In a l1 -> In b l2 -> R a b.
Proof.
  induction l1 as [|x l1 IH]; cbn [app].
  - intros _. split; [constructor | intros a b []].
  - intros H. apply StronglySorted_inv in H as [Hs Hx].
    destruct (IH Hs) as [Hs1 Hcross].
    rewrite List.Forall_forall in Hx.
    split.
    + constructor; [exact Hs1 |]. apply List.Forall_forall.
      intros y Hy. apply Hx, in_or_app. left. exact Hy.
    + intros a b [<- | Ha] Hb; [| exact (Hcross a b Ha Hb)].
      apply Hx, in_or_app. right. exact Hb.
Qed.

Lemma hash_scan_none_trace w sha files :
  List.find (matches w sha) files = None ->
  trace_of (hash_scan w sha files) = map EvSha256 files.
Proof.
  induction files as [|f rest IH]; [reflexivity |].
  cbn [List.find hash_scan map]. unfold matches at 1.
  unfold attempt, sha256_file, perform. cbn [bind fst snd].
  destruct (file_sha256 w f) as [h|e].
  - destruct (String.eqb (Py.lower h) sha); [discriminate |].
    intros H. rewrite <- (IH H).
    destruct (hash_scan w sha rest); reflexivity.
  - intros H. rewrite <- (IH H).
    destruct (hash_scan w sha rest); reflexivity.
Qed.

(** The three ways [find_local_match] can go: the hint names an
    existing file; the hint misses and the sort goes through; the hint
    misses and the sort fails on a candidate. *)
Lemma find_local_match_cases w export_dir proof :
  (exists name,
      filename proof = Some name /\ name <> ""
      /\ path_exists w (path_join export_dir name) = true
      /\ find_local_match w export_dir proof
         = (Ok (Some (path_join export_dir name), Some "matched_by_filename"),
            [EvExists (path_join export_dir name)]))
  \/ (hint_misses w export_dir proof
      /\ sortable w export_dir
      /\ value_of (find_local_match w export_dir proof)
         = Ok (scan_outcome (List.find (matches w (sha256 proof))
                                       (window w export_dir))))
  \/ (hint_misses w export_dir proof
      /\ exists e f,
           In f (candidates w export_dir)
           /\ getmtime w f = Raise e
           /\ value_of (find_local_match w export_dir proof) = Raise e
           /\ hashed (trace_of (find_local_match w export_dir proof)) = []).
Proof.
  assert (Hscan : hint_misses w export_dir proof ->
            (hint_misses w export_dir proof
             /\ sortable w export_dir
             /\ value_of (find_local_match w export_dir proof)
                = Ok (scan_outcome (List.find (matches w (sha256 proof))
                                              (window w export_dir))))
            \/ (hint_misses w export_dir proof
                /\ exists e f,
                     In f (candidates w export_dir)
                     /\ getmtime w f = Raise e
                     /\ value_of (find_local_match w export_dir proof) = Raise e
                     /\ hashed (trace_of (find_local_match w export_dir proof)) = [])).
  { intros Hmiss.
    destruct (read_keys_cases w (candidates w export_dir))
      as [Hs | (pre & f & post & e & Hc & Hpre & Hf)].
    - left. split; [exact Hmiss | split; [exact Hs |]].
      exact (proj1 (find_local_match_second_tier _ _ _ Hmiss Hs)).
    - right. split; [exact Hmiss |]. exists e, f.
      split; [rewrite Hc; apply in_or_app; right; left; reflexivity |].
      split; [exact Hf |].
      exact (find_local_match_unsortable _ _ _ _ _ _ _ Hmiss Hc Hpre Hf). }
  destruct (filename proof) as [name|] eqn:Hname.
  - destruct name as [|c name].
    + right. apply Hscan. intros n Hn Hne. congruence.
    + destruct (path_exists w (path_join export_dir (String c name))) eqn:Hex.
      * left. exists (String c name).
        split; [reflexivity | split; [discriminate | split; [exact Hex |]]].
        unfold find_local_match. rewrite Hname. cbn [Py.nonempty].
        unfold perform. rewrite Hex. reflexivity.
      * right. apply Hscan. intros n Hn Hne. congruence.
  - right. apply Hscan. intros n Hn. congruence.
Qed.

(** A path tagged [matched_by_hash_scan] is what the scan of the window
    found, after a sort that went through. *)
Lemma hash_scan_tag_found w export_dir proof f :
  value_of (find_local_match w export_dir proof)
    = Ok (Some f, Some "matched_by_hash_scan") ->
  sortable w export_dir
  /\ List.find (matches w (sha256 proof)) (window w export_dir) = Some f.
Proof.
  intros Hv.
  destruct (find_local_match_cases w export_dir proof)
    as [(name & _ & _ & _ & E) | [(_ & Hs & E) | (_ & e & g & _ & _ & E & _)]];
    rewrite E in Hv.
  - cbn in Hv. discriminate Hv.
  - split; [exact Hs |].
    destruct (List.find (matches w (sha256 proof)) (window w export_dir))
      as [f'|]; [| discriminate Hv].
    cbn in Hv. injection Hv as ->. reflexivity.
  - discriminate Hv.
Qed.

(** X9.  A file returned by the hash scan is a file of the window whose
    digest is the published hash, and it is the first such file in scan
    order: no file before it in the window, and no candidate modified
    strictly later, has the published hash. *)
Theorem hash_scan_returns_newest_match (w : World) (export_dir : string)
    (proof : DnsProof) (f : string) :
  value_of (find_local_match w export_dir proof)
    = Ok (Some f, Some "matched_by_hash_scan") ->
  matches w (sha256 proof) f = true
  /\ (exists before after,
         window w export_dir = (before ++ f :: after)%list
         /\ forall g, In g before -> matches w (sha256 proof) g = false)
  /\ (forall g,
        In g (candidates w export_dir) ->
        newer_than (mtime w) f g = true ->
        matches w (sha256 proof) g = false).
Proof.
  intros [_ Ef]%hash_scan_tag_found.
  apply find_split in Ef as (l1 & l2 & Hw & Hf & Hl1).
  split; [exact Hf |]. split; [exists l1, l2; auto |].
  intros g Hg Hnew.
  pose proof (sort_desc_sorted (mtime w) (candidates w export_dir)) as Hs.
  apply (sort_desc_In (mtime w)) in Hg.
  unfold window in Hw.
  rewrite <- (take_drop LOOKBACK_FILES
                (sort_desc (mtime w) (candidates w export_dir))) in Hs, Hg.
  rewrite Hw, <- app_assoc in Hs, Hg. cbn [app] in Hs, Hg.
  pose proof (sorted_tail_not_newer (mtime w) f l1 _ Hs) as Htail.
  apply in_app_or in Hg as [Hg | Hg]; [exact (Hl1 g Hg) | exfalso].
  assert (Hin : In g (List.filter (newer_than (mtime w) f)
                        (f :: l2 ++ drop LOOKBACK_FILES
                                      (sort_desc (mtime w)
                                         (candidates w export_dir)))))
    by (apply filter_In; split; assumption).
  rewrite Htail in Hin. destruct Hin.
Qed.

Lemma hash_scan_returns_newest_match_witness :
  value_of (find_local_match two_files_world "/proof/exports" (example_proof None))
    = Ok (Some "/proof/exports/heartbeats_2.json", Some "matched_by_hash_scan")
  /\ matches two_files_world sha_a "/proof/exports/heartbeats_2.json" = true.
Proof.
  assert (H : value_of (find_local_match two_files_world "/proof/exports"
                          (example_proof None))
              = Ok (Some "/proof/exports/heartbeats_2.json",
                    Some "matched_by_hash_scan"))
    by (vm_compute; reflexivity).
  split; [exact H |].
  exact (proj1 (hash_scan_returns_newest_match two_files_world "/proof/exports"
                  (example_proof None) "/proof/exports/heartbeats_2.json" H)).
Defined.

(** X10.  [newest_files] lists the candidates once and reads their
    modification times in the order listed.  When every one can be
    read, it returns [n] of the candidates, or all when there are
    fewer, most recent first, and no candidate left out was modified
    after a candidate returned.  When one cannot, it raises the error
    of the first such candidate, having read no further. *)
Theorem newest_files_are_the_most_recent (w : World) (export_dir : string)
    (n : nat) :
  (sortable w export_dir ->
   exists files,
     newest_files w export_dir n
     = (Ok files,
        EvGlob (candidates_pattern export_dir)
        :: map EvGetmtime (candidates w export_dir))
     /\ List.length files = Nat.min n (List.length (candidates w export_dir))
     /\ (forall f, In f files -> In f (candidates w export_dir))
     /\ StronglySorted (not_older (mtime w)) files
     /\ (forall f g,
           In f files -> In g (candidates w export_dir) -> ~ In g files ->
           (mtime w g <= mtime w f)%Q))
  /\ (forall pre f post e,
        candidates w export_dir = (pre ++ f :: post)%list ->
        (forall g, In g pre -> getmtime w g = Ok (mtime w g)) ->
        getmtime w f = Raise e ->
        newest_files w export_dir n
        = (Raise e,
           EvGlob (candidates_pattern export_dir)
           :: map EvGetmtime (pre ++ [f]))).
Proof.
  split; [| intros pre f post e; apply newest_files_raise].
  intros Hsort.
  exists (take n (sort_desc (mtime w) (candidates w export_dir))).
  pose proof (sort_desc_sorted (mtime w) (candidates w export_dir)) as Hs.
  rewrite <- (take_drop n (sort_desc (mtime w) (candidates w export_dir))) in Hs.
  destruct (sorted_prefix _ _ _ Hs) as [Hs1 Hcross].
  split; [apply newest_files_value, Hsort |].
  split; [rewrite length_take, sort_desc_length; reflexivity |].
  split; [intros f Hf%In_take; apply sort_desc_In in Hf; exact Hf |].
  split; [exact Hs1 |].
  intros f g Hf Hg Hout. apply (Hcross f g Hf).
  apply (sort_desc_In (mtime w)) in Hg.
  rewrite <- (take_drop n (sort_desc (mtime w) (candidates w export_dir))) in Hg.
  apply in_app_or in Hg as [Hg | Hg]; [contradiction | exact Hg].
Qed.

(** X11.  A filename hint that is an absolute path is looked up as that
    path and not under the export directory: when it exists it is
    returned as the match, tagged [matched_by_filename], whatever the
    export directory is, after the one existence test. *)
Theorem absolute_hint_leaves_export_dir (w : World) (export_dir : string)
    (proof : DnsProof) (name : string) :
  filename proof = Some name ->
  Py.startswith "/" name = true ->
  path_exists w name = true ->
  find_local_match w export_dir proof
  = (Ok (Some name, Some "matched_by_filename"), [EvExists name]).
Proof.
  intros Hname Habs Hex.
  assert (Hjoin : path_join export_dir name = name)
    by (unfold path_join; rewrite Habs; reflexivity).
  unfold find_local_match. rewrite Hname.
  destruct name as [|c name]; [discriminate Habs |].
  cbn [Py.nonempty]. unfold perform. rewrite Hjoin, Hex. reflexivity.
Qed.

Lemma absolute_hint_leaves_export_dir_witness :
  find_local_match two_files_world "/srv/other"
    (example_proof (Some "/proof/exports/heartbeats_1.json"))
  = (Ok (Some "/proof/exports/heartbeats_1.json", Some "matched_by_filename"),
     [EvExists "/proof/exports/heartbeats_1.json"]).
Proof.
  refine (absolute_hint_leaves_export_dir two_files_world "/srv/other"
            (example_proof (Some "/proof/exports/heartbeats_1.json"))
            "/proof/exports/heartbeats_1.json" _ _ _); vm_compute; reflexivity.
Defined.

(** X12.  [find_local_match] has three outcomes.  It returns a path
    with one of the two tags.  Or it returns neither path nor tag, which
    happens only when the filename hint misses and every file of the
    window was hashed, or could not be read, without giving the
    published hash.  Or it raises, which happens only when the hint
    misses and the modification time of a candidate cannot be read: the
    error is that of the sort, raised before any file is hashed; a file
    that cannot be hashed never makes it raise. *)
Theorem find_local_match_outcomes (w : World) (export_dir : string)
    (proof : DnsProof) :
  (exists path how,
      value_of (find_local_match w export_dir proof) = Ok (Some path, Some how)
      /\ (how = "matched_by_filename" \/ how = "matched_by_hash_scan"))
  \/ (value_of (find_local_match w export_dir proof) = Ok (None, None)
      /\ hint_misses w export_dir proof
      /\ sortable w export_dir
      /\ forall f,
           In f (window w export_dir) ->
           matches w (sha256 proof) f = false
           /\ In (EvSha256 f) (trace_of (find_local_match w export_dir proof)))
  \/ (exists e f,
        value_of (find_local_match w export_dir proof) = Raise e
        /\ hint_misses w export_dir proof
        /\ In f (candidates w export_dir)
        /\ getmtime w f = Raise e
        /\ hashed (trace_of (find_local_match w export_dir proof)) = []).
Proof.
  destruct (find_local_match_cases w export_dir proof)
    as [(name & _ & _ & _ & E)
       | [(Hmiss & Hs & E) | (Hmiss & e & f & Hf & He & E & Hh)]].
  - left. rewrite E. eauto.
  - destruct (List.find (matches w (sha256 proof)) (window w export_dir))
      as [f|] eqn:Ef.
    + left. rewrite E. cbn. eauto.
    + right. left.
      split; [rewrite E; reflexivity | split; [exact Hmiss | split; [exact Hs |]]].
      intros f Hf. split; [exact (find_none _ _ Ef f Hf) |].
      rewrite (proj2 (find_local_match_miss w export_dir proof Hmiss)).
      apply in_or_app. right. unfold second_tier.
      rewrite (bind_ok _ _ _ _ (newest_files_value w export_dir LOOKBACK_FILES Hs)).
      cbn [trace_of snd]. right. apply in_or_app. right.
      fold (window w export_dir).
      rewrite (hash_scan_none_trace _ _ _ Ef). apply in_map, Hf.
  - right. right. exists e, f. auto.
Qed.

(** ** How [main] composes the steps *)



(** A hint that names an existing file is what the matcher returns. *)
Lemma find_local_match_hinted w export_dir proof name :
  filename proof = Some name ->
  name <> "" ->
  path_exists w (path_join export_dir name) = true ->
  value_of (find_local_match w export_dir proof)
  = Ok (Some (path_join export_dir name), Some "matched_by_filename").
Proof.
  intros Hname Hne Hex.
  destruct (find_local_match_cases w export_dir proof)
    as [(name' & Hname' & _ & _ & E) | [(Hmiss & _) | (Hmiss & _)]].
  - rewrite E. cbn. congruence.
  - rewrite (Hmiss name Hname Hne) in Hex. discriminate Hex.
  - rewrite (Hmiss name Hname Hne) in Hex. discriminate Hex.
Qed.

(** A path that exists has a modification time. *)
Lemma path_exists_getmtime w path :
  path_exists w path = true -> getmtime w path = Ok (mtime w path).
Proof.
  unfold path_exists, mtime, getmtime.
  destruct (os_stat w path); [reflexivity | discriminate].
Qed.



(** X15.  An unreadable file is skipped by the hash scan but not when
    the record names it: when the file named by the hint exists and
    reading it raises, the error leaves [main], nothing is printed and
    the exit status is 1, the status of the WARN verdict. *)
Theorem unreadable_hinted_file_aborts (w : World) (proof : DnsProof)
    (ts : Z) (name : string) (e : exn) :
  record_obtained w proof ts ->
  filename proof = Some name ->
  name <> "" ->
  path_exists w (path_join (export_dir_of w) name) = true ->
  file_sha256 w (path_join (export_dir_of w) name) = Raise e ->
  value_of (main w) = Raise e
  /\ exit_status w = 1
  /\ printed (trace_of (main w)) = [].
Proof.
  intros Hrec Hname Hne Hex Hsha.
  pose proof (find_local_match_hinted w _ proof name Hname Hne Hex) as Hfind.
  pose proof (main_after_match w proof ts _ _ Hrec Hfind
                (path_join_nonempty _ _ Hne)) as Hmain.
  rewrite Hsha in Hmain.
  split; [exact Hmain | exact (exit_status_silent_raise w e Hmain)].
Qed.

Lemma unreadable_hinted_file_aborts_witness :
  matches locked_world sha_a "/proof/exports/heartbeats_2.json" = true
  /\ exit_status locked_world = 1
  /\ printed (trace_of (main locked_world)) = [].
Proof.
  split; [vm_compute; reflexivity |].
  refine (proj2 (unreadable_hinted_file_aborts locked_world
            (example_proof (Some "heartbeats_1.json")) 1704067200
            "heartbeats_1.json" _ _ _ _ _ _)).
  - eexists _, _, _.
    repeat (apply conj; [vm_compute; reflexivity |]). vm_compute; reflexivity.
  - reflexivity.
  - discriminate.
  - vm_compute; reflexivity.
  - vm_compute; reflexivity.
Defined.

(** X16.  Exit status 0 is sound: the verifier ends with 0 only when
    the record was fetched and parsed, the matcher returned a file, the
    digest of that file, lower-cased, is the published hash, and its
    modification time, which could be read, is within 600 seconds of
    the published time. *)
Theorem exit_zero_is_sound (w : World) :
  exit_status w = 0 ->
  exists proof ts path how digest,
    record_obtained w proof ts
    /\ value_of (find_local_match w (export_dir_of w) proof) = Ok (Some path, how)
    /\ file_sha256 w path = Ok digest
    /\ Py.lower digest = sha256 proof
    /\ getmtime w path = Ok (mtime w path)
    /\ Z.abs (skew_of w path ts) <= 600.
Proof.
  unfold exit_status, main.
  rewrite value_of_bind.
  destruct (value_of (load_env_file w ENV_FILE)) as [env|] eqn:Henv;
    [| discriminate].
  rewrite value_of_bind.
  destruct (value_of (dig_txt_authoritative w _ _)) as [[dns_txt used_ns]|] eqn:Hdig;
    [| discriminate].
  rewrite value_of_bind. unfold lift at 1. cbn [value_of fst].
  destruct (parse_dns_txt dns_txt) as [proof|] eqn:Hparse; [| discriminate].
  rewrite value_of_bind. unfold lift at 1. cbn [value_of fst].
  destruct (iso_to_unix w (ts_iso proof)) as [ts|] eqn:Hts; [| discriminate].
  rewrite value_of_bind.
  destruct (value_of (find_local_match w _ proof)) as [[match_path how]|] eqn:Hfind;
    [| discriminate].
  destruct match_path as [path|]; [| cbn; discriminate].
  destruct (Py.nonempty path); [| cbn; discriminate].
  rewrite value_of_bind. unfold sha256_file, perform at 1. cbn [value_of fst].
  destruct (file_sha256 w path) as [digest|] eqn:Hsha; [| discriminate].
  rewrite value_of_bind. unfold perform at 1. cbn [value_of fst].
  destruct (getmtime w path) as [mt|] eqn:Hmt; [| discriminate].
  pose proof (getmtime_mtime _ _ _ Hmt) as Hmt'.
  assert (Emt : mt = mtime w path) by congruence. subst mt.
  cbn. fold (skew_of w path ts).
  unfold verdict_from_hash_and_skew.
  destruct (String.eqb (Py.lower digest) (sha256 proof)) eqn:Heq;
    cbn [negb]; [| discriminate].
  change WARN_SKEW_SECONDS with 600.
  destruct (Z.abs (skew_of w path ts) <=? 600) eqn:Hskew.
  - intros _. exists proof, ts, path, how, digest.
    split; [exists env, dns_txt, used_ns; auto |].
    split; [exact Hfind |]. split; [exact Hsha |].
    split; [apply String.eqb_eq, Heq |].
    split; [exact Hmt | apply Z.leb_le, Hskew].
  - intros H. destruct (Z.leb _ _) in H; cbn in H; discriminate H.
Qed.

Lemma exit_zero_is_sound_witness :
  exit_status healthy_world = 0
  /\ exists proof ts path how digest,
       record_obtained healthy_world proof ts
       /\ value_of (find_local_match healthy_world (export_dir_of healthy_world) proof)
          = Ok (Some path, how)
       /\ file_sha256 healthy_world path = Ok digest
       /\ Py.lower digest = sha256 proof
       /\ getmtime healthy_world path = Ok (mtime healthy_world path)
       /\ Z.abs (skew_of healthy_world path ts) <= 600.
Proof.
  assert (H : exit_status healthy_world = 0) by (vm_compute; reflexivity).
  split; [exact H | exact (exit_zero_is_sound healthy_world H)].
Defined.

(** ** The export directory *)

Lemma rstrip_by_forall_empty p s :
  Py.forallb_str p s = true -> Py.rstrip_by p s = "".
Proof.
  induction s as [|c r IH]; [reflexivity |].
  cbn [Py.forallb_str]. intros [Hc Hr]%andb_prop.
  rewrite rstrip_by_cons, (IH Hr), Hc. reflexivity.
Qed.

(** What [rstrip] leaves does not end with a character it removes. *)
Lemma rstrip_by_end p s :
  Py.rstrip_by p s = ""
  \/ exists pre c, Py.rstrip_by p s = pre ++ String c "" /\ p c = false.
Proof.
  induction s as [|c r IH]; [left; reflexivity |].
  rewrite rstrip_by_cons.
  destruct IH as [-> | (pre & c' & -> & Hc')].
  - cbn [Py.nonempty negb andb]. destruct (p c) eqn:Hc; [left; reflexivity |].
    right. exists "", c. split; [reflexivity | exact Hc].
  - right. exists (String c pre), c'.
    destruct pre; cbn [append Py.nonempty negb andb]; split; auto.
Qed.

Lemma path_join_plain a b :
  Py.startswith "/" b = false ->
  (a = "" \/ exists pre c, a = pre ++ String c "" /\ Py.is_char "/" c = false) ->
  path_join a b = if Py.nonempty a then a ++ "/" ++ b else b.
Proof.
  intros Hb Ha. unfold path_join. rewrite Hb.
  destruct Ha as [-> | (pre & c & -> & Hc)]; [reflexivity |].
  rewrite length_append. cbn [String.length].
  replace (String.length pre + 1 - 1)%nat with (String.length pre) by lia.
  rewrite drop_append.
  assert (Hne : Py.nonempty (pre ++ String c "") = true) by (destruct pre; reflexivity).
  rewrite Hne. cbn [negb orb Py.startswith].
  unfold Py.is_char in Hc. rewrite Hc. reflexivity.
Qed.

(** X17.  The export directory loses its trailing slashes, so a
    relative name is joined to it with exactly one slash.  A setting
    made of slashes only, the root directory, becomes the empty string:
    the candidates are then looked for under the relative pattern
    [heartbeats_*.json], in the working directory and not in the root. *)
Theorem export_dir_normal_form (w : World) :
  (export_dir_of w = ""
   <-> exists s, environ w !! "POA_EXPORT_DIR" = Some s
                 /\ s <> "" /\ Py.forallb_str (Py.is_char "/") s = true)
  /\ (forall name,
        Py.startswith "/" name = false ->
        path_join (export_dir_of w) name
        = if Py.nonempty (export_dir_of w)
          then export_dir_of w ++ "/" ++ name else name)
  /\ candidates_pattern (export_dir_of w)
     = if Py.nonempty (export_dir_of w)
       then export_dir_of w ++ "/heartbeats_*.json" else "heartbeats_*.json".
Proof.
  assert (Hjoin : forall name,
             Py.startswith "/" name = false ->
             path_join (export_dir_of w) name
             = if Py.nonempty (export_dir_of w)
               then export_dir_of w ++ "/" ++ name else name).
  { intros name Hname. apply path_join_plain; [exact Hname |].
    unfold export_dir_of, Py.rstrip_char. apply rstrip_by_end. }
  split; [| split; [exact Hjoin | exact (Hjoin "heartbeats_*.json" eq_refl)]].
  unfold export_dir_of, Py.rstrip_char, or_else. split.
  - intros H%rstrip_by_empty_forall.
    destruct (environ w !! "POA_EXPORT_DIR") as [s|]; [| discriminate H].
    destruct s as [|c s]; [discriminate H |].
    exists (String c s). split; [reflexivity | split; [discriminate | exact H]].
  - intros (s & -> & Hs & Hall).
    destruct s as [|c s]; [congruence |].
    apply rstrip_by_forall_empty, Hall.
Qed.

(** ** A time that is no time *)

Lemma digits_at_not_digit n c r :
  Datetime.is_digit c = false -> Datetime.digits_at (S n) (String c r) = None.
Proof.
  intros Hc. unfold Datetime.digits_at. cbn [Py.take].
  destruct (_ =? _)%nat; [| reflexivity].
  unfold Datetime.digits. cbn [Datetime.digits_from]. rewrite Hc. reflexivity.
Qed.

Lemma parse_not_digit c r :
  Datetime.is_digit c = false -> Datetime.parse (String c r) = None.
Proof.
  intros Hc. unfold Datetime.parse, Datetime._parse_isoformat_date.
  cbn [Py.take]. rewrite (digits_at_not_digit 3 c _ Hc). reflexivity.
Qed.

Lemma fromisoformat_not_digit rest c r :
  Datetime.is_digit c = false ->
  Datetime.fromisoformat rest (String c r)
  = Raise (Datetime.invalid_isoformat (String c r)).
Proof.
  intros Hc. unfold Datetime.fromisoformat, Datetime.begins_with_year.
  rewrite (parse_not_digit _ _ Hc), (digits_at_not_digit 3 c _ Hc). reflexivity.
Qed.

Lemma iso_to_unix_not_digit w c r :
  Datetime.is_digit c = false ->
  exists msg, iso_to_unix w (String c r) = Raise (ValueError msg).
Proof.
  intros Hc. unfold iso_to_unix.
  cbn [Py.replace_char].
  destruct (Ascii.eqb c "Z").
  - change ("+00:00" ++ Py.replace_char "Z" "+00:00" r)
      with (String "+" ("00:00" ++ Py.replace_char "Z" "+00:00" r)).
    rewrite fromisoformat_not_digit by reflexivity.
    unfold Datetime.invalid_isoformat. cbn [mbind result_bind]. eauto.
  - rewrite (fromisoformat_not_digit _ _ _ Hc).
    unfold Datetime.invalid_isoformat. cbn [mbind result_bind]. eauto.
Qed.

(** X18.  The parser does not look at the time it extracts: a record
    whose TS value does not begin with a decimal digit is accepted by
    [parse_dns_txt] and then rejected by [iso_to_unix] with a
    [ValueError] that nothing catches.  The run ends with status 1
    without a verdict line. *)
Theorem malformed_time_aborts (w : World) (env : gmap string string)
    (dns_txt used_ns : string) (proof : DnsProof) (c : ascii) (rest : string) :
  value_of (load_env_file w ENV_FILE) = Ok env ->
  value_of (dig_txt_authoritative w (dns_name_of env) (dns_zone_of w env))
    = Ok (dns_txt, used_ns) ->
  parse_dns_txt dns_txt = Ok proof ->
  ts_iso proof = String c rest ->
  Datetime.is_digit c = false ->
  exists msg,
    value_of (main w) = Raise (ValueError msg)
    /\ exit_status w = 1
    /\ printed (trace_of (main w)) = [].
Proof.
  intros Henv Hdig Hparse Hts Hc.
  destruct (iso_to_unix_not_digit w c rest Hc) as (msg & Hiso).
  exists msg.
  assert (Hmain : value_of (main w) = Raise (ValueError msg)).
  { unfold main.
    rewrite value_of_bind, Henv.
    rewrite value_of_bind, Hdig.
    rewrite value_of_bind. unfold lift at 1. cbn [value_of fst]. rewrite Hparse.
    rewrite value_of_bind. unfold lift at 1. cbn [value_of fst].
    rewrite Hts, Hiso. reflexivity. }
  split; [exact Hmain | exact (exit_status_silent_raise w _ Hmain)].
Qed.

Lemma malformed_time_aborts_witness :
  exists msg,
    value_of (main undated_world) = Raise (ValueError msg)
    /\ exit_status undated_world = 1
    /\ printed (trace_of (main undated_world)) = [].
Proof.
  refine (malformed_time_aborts undated_world ∅
            ("TS=yesterday;SHA256=" ++ sha_a) "ns1.example.net"
            {| ts_iso := "yesterday"; sha256 := sha_a; filename := None |}
            "y" "esterday" _ _ _ _ _); vm_compute; reflexivity.
Defined.

(** ** A failed NS lookup *)

(** X19.  A failed NS lookup is final.  Without nameserver override,
    when the command that lists the nameservers of the zone fails, its
    error leaves [dig_txt_authoritative] as it is: no TXT query is sent
    to any server, and the fallback to the system resolver is not tried
    even when it is switched on. *)
Theorem failed_ns_lookup_is_final (w : World) (name zone : string) (e : exn) :
  Py.strip (getenv w "POA_DNS_NS_OVERRIDE" "") = "" ->
  value_of (run w (ns_query zone)) = Raise e ->
  dig_txt_authoritative w name zone = (Raise e, [EvRun (ns_query zone)]).
Proof.
  intros Hov Hrun.
  unfold dig_txt_authoritative, nameserver_list. rewrite Hov. cbn [Py.nonempty].
  unfold _get_authoritative_ns.
  assert (E : run w (ns_query zone) = (Raise e, [EvRun (ns_query zone)])).
  { rewrite (M_eta (run w (ns_query zone))), Hrun, trace_of_run. reflexivity. }
  rewrite E. reflexivity.
Qed.

Lemma failed_ns_lookup_is_final_witness :
  getenv stranded_world "POA_DNS_ALLOW_SYSTEM_RESOLVER" "0" = "1"
  /\ dig_txt_authoritative stranded_world "_poa.example.org" "example.org"
     = (Raise (RuntimeError
                 ("Command failed: dig +short NS example.org" ++ NL
                  ++ ";; communications error")),
        [EvRun ["dig"; "+short"; "NS"; "example.org"]]).
Proof.
  split; [vm_compute; reflexivity |].
  refine (failed_ns_lookup_is_final stranded_world "_poa.example.org" "example.org"
            _ _ _); vm_compute; reflexivity.
Defined.
